(** * simtrans: VRML and COLLADA readers and writers

    A shallow embedding of [simtrans/vrml.py] and [simtrans/collada.py].
    Python dictionaries are finite maps, or lists of items where the order
    of the items matters, NumPy arrays are lists of rows,
    exceptions are the [Raise] branch of a result type, and the depth of the
    interpreter stack is an explicit bound on the recursive tree build. *)

From stdpp Require Import gmap strings list fin_maps relations pretty sorting.
From Stdlib Require Import ZArith Lia Ascii.

Open Scope string_scope.
Open Scope list_scope.

(** ** Results of Python calls *)

(** A call either returns a value or raises; an exception is identified by
    the name of its class. *)
Inductive result (A : Type) : Type :=
  | Ok (a : A)
  | Raise (exn : string).
Arguments Ok {A} a.
Arguments Raise {A} exn.

Definition bind {A B : Type} (r : result A) (k : A → result B) : result B :=
  match r with
  | Ok a => k a
  | Raise e => Raise e
  end.

Notation "'do' x <- r ; k" := (bind r (fun x => k))
  (at level 10, x name, r at level 100, k at level 200).

(** Python's [l[i]]: a negative index counts from the end, an index out of
    range raises [IndexError]. *)
Definition getitem {A : Type} (l : list A) (i : Z) : result A :=
  let n := Z.of_nat (length l) in
  let k := if (i <? 0)%Z then (i + n)%Z else i in
  if (k <? 0)%Z then Raise "IndexError"
  else match l !! Z.to_nat k with
       | Some a => Ok a
       | None => Raise "IndexError"
       end.

(** ** NumPy arrays

    A two-dimensional array is the list of its rows. *)
Abbreviation ndarray A := (list (list A)) (only parsing).

(** [a.size] *)
Definition size_of {A : Type} (a : ndarray A) : nat := length (concat a).

Fixpoint rows {A : Type} (r c : nat) (l : list A) : list (list A) :=
  match r with
  | O => []
  | S r' => take c l :: rows r' c (drop c l)
  end.

(** [a.reshape(r, c)] of a flat array: [ValueError] unless it has [r * c]
    elements. *)
Definition reshape {A : Type} (r c : nat) (l : list A) : result (ndarray A) :=
  if decide (r * c = length l) then Ok (rows r c l) else Raise "ValueError".

(** [numpy.array(l).reshape(len(l)/3, 3)], with the integer division of
    Python 2. *)
Definition reshape3 {A : Type} (l : list A) : result (ndarray A) :=
  reshape (length l `div` 3) 3 l.

(** [a.reshape(1, a.size)] *)
Definition reshape_row {A : Type} (a : ndarray A) : ndarray A := [concat a].

(** [numpy.vstack([a, b])]: the rows of [a] above the rows of [b]; all rows
    must have one length. *)
Definition row_lengths {A : Type} (a : ndarray A) : list nat := length <$> a.

Definition vstack {A : Type} (a b : ndarray A) : result (ndarray A) :=
  match row_lengths (a ++ b) with
  | [] => Ok (a ++ b)
  | n :: ns => if decide (Forall (λ k, k = n) ns) then Ok (a ++ b)
               else Raise "ValueError"
  end.

(** [a.T] for an array whose rows all have the length of the first row. *)
Definition column {A : Type} (a : ndarray A) (j : nat) : list A :=
  omap (λ row, row !! j) a.

Definition transpose {A : Type} (a : ndarray A) : ndarray A :=
  match a with
  | [] => []
  | row :: _ => column a <$> seq 0 (length row)
  end.

(** The truth value of an array: empty arrays are false, an array of one
    element has the truth value of that element, any larger array raises
    [ValueError]. *)
Definition array_bool {A : Type} (nonzero : A → bool) (a : ndarray A)
  : result bool :=
  match concat a with
  | [] => Ok false
  | [x] => Ok (nonzero x)
  | _ :: _ :: _ => Raise "ValueError"
  end.

(** ** The canonical model ([model.py])

    [model.py] is not among the sources; the records below carry the
    attributes that [vrml.py] and [collada.py] read and assign. *)

(** Modelled from the spec: the joint type constants of [model.JointModel]
    (joint type is one of Fixed, Revolute, Prismatic, Screw). *)
Definition J_FIXED : string := "fixed".
Definition J_REVOLUTE : string := "revolute".
Definition J_PRISMATIC : string := "prismatic".
Definition J_SCREW : string := "screw".

(** Modelled from the spec: the shape type tags of [model.ShapeModel]
    (a shape is one of Mesh, Sphere, Cylinder, Box). *)
Definition SP_MESH : string := "mesh".
Definition SP_SPHERE : string := "sphere".
Definition SP_CYLINDER : string := "cylinder".
Definition SP_BOX : string := "box".

Record MaterialModel {scalar : Type} := {
  material_name : string;
  ambient : scalar;
  diffuse : list scalar;
  specular : list scalar;
  emission : list scalar;
  shininess : scalar;
  transparency : scalar;
}.
Arguments MaterialModel : clear implicits.

(** Attributes that a constructor leaves unassigned are [None]. *)
Record MeshData {scalar : Type} := {
  vertex : ndarray scalar;
  vertex_index : ndarray Z;
  normal : option (ndarray scalar);
  normal_index : option (ndarray Z);
  uvmap : option (ndarray scalar);
  uvmap_index : option (ndarray Z);
  image : option string;
  material : option (MaterialModel scalar);
}.
Arguments MeshData : clear implicits.

Inductive ShapeData {scalar : Type} :=
  | Mesh (m : MeshData scalar)
  | SphereData (radius : scalar) (mat : MaterialModel scalar)
  | CylinderData (radius height : scalar) (mat : MaterialModel scalar)
  | BoxData (x y z : scalar) (mat : MaterialModel scalar).
Arguments ShapeData : clear implicits.

Record ShapeModel {scalar : Type} := {
  shape_name : string;
  matrix : ndarray scalar;
  shapeType : string;
  data : ShapeData scalar;
}.
Arguments ShapeModel : clear implicits.

Record LinkModel {scalar : Type} := {
  link_name : string;
  mass : scalar;
  centerofmass : list scalar;
  visuals : list (ShapeModel scalar);
}.
Arguments LinkModel : clear implicits.

Record JointModel {scalar : Type} := {
  joint_name : string;
  parent : string;
  child : string;
  jointType : string;
  limit : list scalar;
  axis : list scalar;
  trans : list scalar;
  rot : list scalar;
}.
Arguments JointModel : clear implicits.

Record BodyModel {scalar : Type} := {
  body_name : option string;
  links : list (LinkModel scalar);
  joints : list (JointModel scalar);
}.
Arguments BodyModel : clear implicits.

(** ** VRMLWriter *)

Record VRMLWriter {scalar : Type} := {
  _linkmap : gmap string (LinkModel scalar);
  _roots : list string;
}.
Arguments VRMLWriter : clear implicits.

(** One node of the nested tree: the dictionary with the keys ['joint'],
    ['jointtype'], ['link'] (absent when the lookup failed) and
    ['children']. *)
#[warnings="-register-all"]
Inductive nmodel {scalar : Type} :=
  | NModel (joint : JointModel scalar) (jointtype : string)
           (link : option (LinkModel scalar)) (children : list nmodel).
Arguments nmodel : clear implicits.

Section VRMLWriter.
Context {scalar : Type}.

Definition nm_joint (n : nmodel scalar) : JointModel scalar :=
  match n with NModel j _ _ _ => j end.
Definition nm_jointtype (n : nmodel scalar) : string :=
  match n with NModel _ t _ _ => t end.
Definition nm_link (n : nmodel scalar) : option (LinkModel scalar) :=
  match n with NModel _ _ l _ => l end.
Definition nm_children (n : nmodel scalar) : list (nmodel scalar) :=
  match n with NModel _ _ _ c => c end.

(** [VRMLWriter.__init__] *)
Definition VRMLWriter_init : VRMLWriter scalar :=
  {| _linkmap := ∅; _roots := [] |}.

(** [VRMLWriter.convertjointtype] *)
Definition convertjointtype (t : string) : result string :=
  if decide (t = J_FIXED) then Ok "fixed"
  else if decide (t = J_REVOLUTE) then Ok "rotate"
  else if decide (t = J_PRISMATIC) then Ok "slide"
  else if decide (t = J_SCREW) then Ok "rotate"
  else Raise "Exception".

(** [VRMLWriter.findchildren]: the joints whose parent is [linkname], in
    the order of the joint list. *)
Definition findchildren (mdata : BodyModel scalar) (linkname : string)
  : list (JointModel scalar) :=
  filter (λ j, parent j = linkname) (joints mdata).

(** The loop of [convertchildren] over the child joints; [recurse] is the
    recursive call on the child link. *)
Fixpoint convertchildren_loop (self : VRMLWriter scalar)
    (recurse : string → result (list (nmodel scalar)))
    (cjoints : list (JointModel scalar)) : result (list (nmodel scalar)) :=
  match cjoints with
  | [] => Ok []
  | cjoint :: rest =>
    do jt <- convertjointtype (jointType cjoint);
    let link := _linkmap self !! child cjoint in
    do sub <- recurse (child cjoint);
    do children <- convertchildren_loop self recurse rest;
    Ok (NModel cjoint jt link sub :: children)
  end.

(** [VRMLWriter.convertchildren].  [depth] is the number of nested
    activations of [convertchildren] the interpreter stack still allows;
    once it is used up the call raises [RuntimeError] (maximum recursion
    depth exceeded). *)
Fixpoint convertchildren (self : VRMLWriter scalar) (depth : nat)
    (mdata : BodyModel scalar) (linkname : string)
  : result (list (nmodel scalar)) :=
  match depth with
  | O => Raise "RuntimeError"
  | S depth' =>
    convertchildren_loop self (convertchildren self depth' mdata)
      (findchildren mdata linkname)
  end.

(** The dictionary of [findroot].  A Python dictionary lists its items in
    the order in which the keys were first inserted: assigning to a key that
    is present keeps its place, a new key goes to the end, and deleting a
    key leaves the order of the others. *)
Fixpoint dict_get {V : Type} (d : list (string * V)) (k : string)
  : option V :=
  match d with
  | [] => None
  | kv :: d' => if decide (kv.1 = k) then Some kv.2 else dict_get d' k
  end.

Fixpoint dict_set {V : Type} (d : list (string * V)) (k : string) (v : V)
  : list (string * V) :=
  match d with
  | [] => [(k, v)]
  | kv :: d' => if decide (kv.1 = k) then (k, v) :: d'
                else kv :: dict_set d' k v
  end.

Definition dict_del {V : Type} (d : list (string * V)) (k : string)
  : list (string * V) :=
  filter (λ kv, kv.1 ≠ k) d.

(** The first loop of [findroot]: how many joints name each link as their
    parent, the joints attached to ['world'] left out. *)
Definition count_parent (counts : list (string * nat)) (j : JointModel scalar)
  : list (string * nat) :=
  if decide (parent j = "world") then counts
  else match dict_get counts (parent j) with
       | Some n => dict_set counts (parent j) (n + 1)
       | None => dict_set counts (parent j) 1
       end.

(** The second loop of [findroot]: [del joints[j.child]], a missing key
    ignored. *)
Definition drop_child (counts : list (string * nat)) (j : JointModel scalar)
  : list (string * nat) :=
  dict_del counts (child j).

(** [sorted(items, key=lambda x: x[1], reverse=True)]: a stable sort by
    descending count; items of equal count keep their order. *)
Fixpoint insert_desc (x : string * nat) (l : list (string * nat))
  : list (string * nat) :=
  match l with
  | [] => [x]
  | y :: l' => if decide (x.2 < y.2) then y :: insert_desc x l'
               else x :: y :: l'
  end.

Definition sorted_desc (l : list (string * nat)) : list (string * nat) :=
  foldr insert_desc [] l.

(** [VRMLWriter.findroot] *)
Definition findroot (mdata : BodyModel scalar) : list string :=
  let counts := foldl count_parent [] (joints mdata) in
  let counts := foldl drop_child counts (joints mdata) in
  (sorted_desc counts).*1.

(** The synthesized root joint: a fresh [JointModel] with [name] and
    [jointType] assigned. *)
Definition rootjoint_of (JointModel_new : JointModel scalar) (root : string)
  : JointModel scalar :=
  {| joint_name := root; parent := parent JointModel_new;
     child := child JointModel_new; jointType := "fixed";
     limit := limit JointModel_new; axis := axis JointModel_new;
     trans := trans JointModel_new; rot := rot JointModel_new |}.

(** The first loop of [write]: [self._linkmap[m.name] = m]. *)
Definition register_links (self : VRMLWriter scalar)
    (mdata : BodyModel scalar) : VRMLWriter scalar :=
  {| _linkmap := foldl (λ lm m, <[link_name m := m]> lm) (_linkmap self)
                   (links mdata);
     _roots := _roots self |}.

Definition set_roots (self : VRMLWriter scalar) (roots : list string)
  : VRMLWriter scalar :=
  {| _linkmap := _linkmap self; _roots := roots |}.

(** Lines 229-241 of [write]: the root name, the root link and the root
    joint. *)
Definition select_root (JointModel_new : JointModel scalar)
    (self : VRMLWriter scalar) (mdata : BodyModel scalar)
  : result (string * LinkModel scalar * JointModel scalar) :=
  match _roots self with
  | root :: _ =>
    match _linkmap self !! root with
    | Some rootlink => Ok (root, rootlink, rootjoint_of JointModel_new root)
    | None => Raise "KeyError"
    end
  | [] =>
    do rootlink <- getitem (links mdata) 0;
    Ok ("waist", rootlink, rootjoint_of JointModel_new "waist")
  end.

(** What [write] hands to the template of the main file. *)
Record rendering := {
  r_model : list (nmodel scalar);
  r_links : list string;
  r_joints : list string;
  r_jointmap : gmap string nat;
  r_root : string;
}.

(** [VRMLWriter.write], up to the rendering of the templates.  The file
    name only decides the name of a body that has none and the names of the
    files written. *)
Definition write (JointModel_new : JointModel scalar)
    (self : VRMLWriter scalar) (depth : nat) (mdata : BodyModel scalar)
  : result rendering :=
  let self := register_links self mdata in
  let self := set_roots self (findroot mdata) in
  do sel <- select_root JointModel_new self mdata;
  let '(root, rootlink, rootjoint) := sel in
  let others := tail (_roots self) in
  let links_ := link_name <$>
    filter (λ l, 0 < length (visuals l) ∧ link_name l ∉ others)
      (links mdata) in
  let joints_ := joint_name <$>
    filter (λ j, child j ∈ links_ ∧ parent j ∉ others) (joints mdata) in
  let joints_ := if decide (length joints_ = 0) then [root] else joints_ in
  do children <- convertchildren self depth mdata root;
  let node := NModel rootjoint (jointType rootjoint) (Some rootlink)
                children in
  let jointmap := foldl (λ jm j, <[joint_name j := 0]> jm) {[root := 0]}
                    (joints mdata) in
  let jointmap := (foldl (λ '(jm, jointcount) j,
                            (<[j := jointcount]> jm, jointcount + 1))
                     (jointmap, 1) joints_).1 in
  Ok {| r_model := [node]; r_links := links_; r_joints := joints_;
        r_jointmap := jointmap; r_root := root |}.

End VRMLWriter.

(** ** VRMLReader *)

(** The structures of the OpenHRP model loader, as [vrml.py] reads them. *)
Inductive ShapePrimitiveType :=
  | OpenHRP_SP_MESH | OpenHRP_SP_BOX | OpenHRP_SP_CYLINDER | OpenHRP_SP_CONE
  | OpenHRP_SP_SPHERE | OpenHRP_SP_PLANE.

Record TransformedShapeIndex {scalar : Type} := {
  transformMatrix : list scalar;
  shapeIndex : Z;
}.
Arguments TransformedShapeIndex : clear implicits.

Record LinkInfo {scalar : Type} := {
  li_name : string;
  li_mass : scalar;
  centerOfMass : list scalar;
  shapeIndices : list (TransformedShapeIndex scalar);
  childIndices : list Z;
  li_jointType : string;
  ulimit : list scalar;
  llimit : list scalar;
  jointAxis : list scalar;
  translation : list scalar;
  rotation : list scalar;
}.
Arguments LinkInfo : clear implicits.

Record ShapeInfo {scalar : Type} := {
  primitiveType : ShapePrimitiveType;
  vertices : list scalar;
  triangles : list Z;
  appearanceIndex : Z;
  primitiveParameters : list scalar;
}.
Arguments ShapeInfo : clear implicits.

Record AppearanceInfo {scalar : Type} := {
  normalPerVertex : bool;
  normals : list scalar;
  normalIndices : list Z;
  materialIndex : Z;
}.
Arguments AppearanceInfo : clear implicits.

Record MaterialInfo {scalar : Type} := {
  ambientIntensity : scalar;
  diffuseColor : list scalar;
  specularColor : list scalar;
  emissiveColor : list scalar;
  mi_shininess : scalar;
  mi_transparency : scalar;
}.
Arguments MaterialInfo : clear implicits.

Record ExtraJointInfo {scalar : Type} := {
  ej_name : string;
  ej_link : list string;
  ej_axis : list scalar;
}.
Arguments ExtraJointInfo : clear implicits.

Record BodyInfo {scalar : Type} := {
  _get_links : list (LinkInfo scalar);
  _get_shapes : list (ShapeInfo scalar);
  _get_appearances : list (AppearanceInfo scalar);
  _get_materials : list (MaterialInfo scalar);
  _get_extraJoints : list (ExtraJointInfo scalar);
}.
Arguments BodyInfo : clear implicits.

Record VRMLReader {scalar : Type} := {
  _joints : list (JointModel scalar);
  _links : list (LinkModel scalar);
  _materials : list (MaterialModel scalar);
  _hrplinks : list (LinkInfo scalar);
  _hrpshapes : list (ShapeInfo scalar);
  _hrpapperances : list (AppearanceInfo scalar);
  _hrpmaterials : list (MaterialInfo scalar);
  _hrpextrajoints : list (ExtraJointInfo scalar);
}.
Arguments VRMLReader : clear implicits.

(** [for x in l: body], where the body updates a state or raises. *)
Fixpoint for_each {A S : Type} (body : S → A → result S) (st : S)
    (l : list A) : result S :=
  match l with
  | [] => Ok st
  | x :: l' => do st' <- body st x; for_each body st' l'
  end.

Section VRMLReader.
Context {scalar : Type}.
(** The numbers [0] and [1] as array elements, a fresh
    [model.JointModel()], and [tf.quaternion_about_axis]. *)
Context (f0 f1 : scalar) (JointModel_new : JointModel scalar).
Context (quaternion_about_axis : scalar → list scalar → list scalar).

(** The materials loop of [read]. *)
Definition read_material (mid : nat) (a : MaterialInfo scalar)
  : MaterialModel scalar :=
  {| material_name := "material-" +:+ pretty mid;
     ambient := ambientIntensity a;
     diffuse := diffuseColor a ++ [f1];
     specular := specularColor a ++ [f1];
     emission := emissiveColor a ++ [f1];
     shininess := mi_shininess a;
     transparency := mi_transparency a |}.

(** The index list built when the appearance carries none: each position
    of the normal array three times. *)
Definition position_indices (n : list scalar) : list Z :=
  i ← Z.of_nat <$> seq 0 (length n `div` 3); [i; i; i].

(** The index list built from per-face normal indices: each index three
    times. *)
Definition face_indices (normalIndices : list Z) : list Z :=
  i ← normalIndices; [i; i; i].

(** The mesh branch of [readLink]. *)
Definition read_mesh (self : VRMLReader scalar) (sdata : ShapeInfo scalar)
  : result (MeshData scalar) :=
  do vertex_ <- reshape3 (vertices sdata);
  do vertex_index_ <- reshape3 (triangles sdata);
  do adata <- getitem (_hrpapperances self) (appearanceIndex sdata);
  do normal_ <- reshape3 (normals adata);
  do normal_index_ <-
    (if normalPerVertex adata then
       if decide (0 < length (normalIndices adata))
       then reshape3 (normalIndices adata)
       else reshape3 (position_indices (normals adata))
     else
       if decide (0 < length (normalIndices adata))
       then reshape3 (face_indices (normalIndices adata))
       else reshape3 (position_indices (normals adata)));
  do material_ <- getitem (_materials self) (materialIndex adata);
  Ok {| vertex := vertex_; vertex_index := vertex_index_;
        normal := Some normal_; normal_index := Some normal_index_;
        uvmap := None; uvmap_index := None; image := None;
        material := Some material_ |}.

(** The body of the loop of [readLink] over the shapes of a link. *)
Definition read_shape (self : VRMLReader scalar)
    (s : TransformedShapeIndex scalar) : result (ShapeModel scalar) :=
  let name := "shape-" +:+ pretty (shapeIndex s) in
  do matrix_ <- reshape 4 4 (transformMatrix s ++ [f0; f0; f0; f1]);
  do sdata <- getitem (_hrpshapes self) (shapeIndex s);
  match primitiveType sdata with
  | OpenHRP_SP_MESH =>
    do m <- read_mesh self sdata;
    Ok {| shape_name := name; matrix := matrix_; shapeType := SP_MESH;
          data := Mesh m |}
  | OpenHRP_SP_SPHERE =>
    do radius <- getitem (primitiveParameters sdata) 0;
    do mat <- getitem (_materials self) (appearanceIndex sdata);
    Ok {| shape_name := name; matrix := matrix_; shapeType := SP_SPHERE;
          data := SphereData radius mat |}
  | OpenHRP_SP_CYLINDER =>
    do radius <- getitem (primitiveParameters sdata) 0;
    do height <- getitem (primitiveParameters sdata) 1;
    do mat <- getitem (_materials self) (appearanceIndex sdata);
    Ok {| shape_name := name; matrix := matrix_; shapeType := SP_CYLINDER;
          data := CylinderData radius height mat |}
  | OpenHRP_SP_BOX =>
    do x <- getitem (primitiveParameters sdata) 0;
    do y <- getitem (primitiveParameters sdata) 1;
    do z <- getitem (primitiveParameters sdata) 2;
    do mat <- getitem (_materials self) (appearanceIndex sdata);
    Ok {| shape_name := name; matrix := matrix_; shapeType := SP_BOX;
          data := BoxData x y z mat |}
  | _ => Raise "Exception"
  end.

(** [VRMLReader.readLink] *)
Definition readLink (self : VRMLReader scalar) (m : LinkInfo scalar)
  : result (LinkModel scalar) :=
  do visuals_ <- for_each (λ vs s, do sm <- read_shape self s;
                                    Ok (vs ++ [sm]))
                   [] (shapeIndices m);
  Ok {| link_name := li_name m; mass := li_mass m;
        centerofmass := centerOfMass m; visuals := visuals_ |}.

Definition append_link (self : VRMLReader scalar) (lm : LinkModel scalar)
  : VRMLReader scalar :=
  {| _joints := _joints self; _links := _links self ++ [lm];
     _materials := _materials self; _hrplinks := _hrplinks self;
     _hrpshapes := _hrpshapes self; _hrpapperances := _hrpapperances self;
     _hrpmaterials := _hrpmaterials self;
     _hrpextrajoints := _hrpextrajoints self |}.

Definition append_joint (self : VRMLReader scalar) (jm : JointModel scalar)
  : VRMLReader scalar :=
  {| _joints := _joints self ++ [jm]; _links := _links self;
     _materials := _materials self; _hrplinks := _hrplinks self;
     _hrpshapes := _hrpshapes self; _hrpapperances := _hrpapperances self;
     _hrpmaterials := _hrpmaterials self;
     _hrpextrajoints := _hrpextrajoints self |}.

(** The joint of [readChild], before the recursion into the children. *)
Definition read_joint (parent_ child_ : LinkInfo scalar)
  : result (JointModel scalar) :=
  do jointType_ <-
    (if decide (li_jointType child_ = "fixed") then Ok J_FIXED
     else if decide (li_jointType child_ = "rotate") then Ok J_REVOLUTE
     else if decide (li_jointType child_ = "slide") then Ok J_PRISMATIC
     else Raise "Exception");
  let limit_ :=
    match getitem (ulimit child_) 0, getitem (llimit child_) 0 with
    | Ok u, Ok l => [u; l]
    | _, _ => limit JointModel_new
    end in
  do angle <- getitem (rotation child_) 3;
  Ok {| joint_name := li_name parent_ +:+ li_name child_;
        parent := li_name parent_; child := li_name child_;
        jointType := jointType_; limit := limit_;
        axis := jointAxis child_; trans := translation child_;
        rot := quaternion_about_axis angle (take 3 (rotation child_)) |}.

(** [VRMLReader.readChild]; [depth] bounds the nesting of the calls as in
    [convertchildren]. *)
Fixpoint readChild (depth : nat) (self : VRMLReader scalar)
    (parent_ child_ : LinkInfo scalar) : result (VRMLReader scalar) :=
  match depth with
  | O => Raise "RuntimeError"
  | S depth' =>
    do lm <- readLink self child_;
    let self := append_link self lm in
    do jm <- read_joint parent_ child_;
    let self := append_joint self jm in
    for_each (λ self c, do grandchild <- getitem (_hrplinks self) c;
                         readChild depth' self child_ grandchild)
      self (childIndices child_)
  end.

(** The joint [read] adds for an extra joint of a closed-link model. *)
Definition read_extrajoint (j : ExtraJointInfo scalar)
  : result (JointModel scalar) :=
  do parent_ <- getitem (ej_link j) 0;
  do child_ <- getitem (ej_link j) 1;
  Ok {| joint_name := ej_name j; parent := parent_; child := child_;
        jointType := jointType JointModel_new;
        limit := limit JointModel_new; axis := ej_axis j;
        trans := trans JointModel_new; rot := rot JointModel_new |}.

(** [VRMLReader.read], from the [BodyInfo] the model loader returned. *)
Definition read (depth : nat) (b : BodyInfo scalar)
  : result (BodyModel scalar) :=
  let self :=
    {| _joints := []; _links := [];
       _materials := imap read_material (_get_materials b);
       _hrplinks := _get_links b; _hrpshapes := _get_shapes b;
       _hrpapperances := _get_appearances b;
       _hrpmaterials := _get_materials b;
       _hrpextrajoints := _get_extraJoints b |} in
  do root <- getitem (_hrplinks self) 0;
  do lm <- readLink self root;
  let self := append_link self lm in
  do self <- for_each (λ self c, do child_ <- getitem (_hrplinks self) c;
                                  readChild depth self root child_)
               self (childIndices root);
  do self <- for_each (λ self j, do m <- read_extrajoint j;
                                  Ok (append_joint self m))
               self (_hrpextrajoints self);
  Ok {| body_name := None; links := _links self; joints := _joints self |}.

End VRMLReader.

(** ** ColladaReader *)

(** The objects of the pycollada library, as [collada.py] reads them: scene
    nodes, the primitives of a geometry, and materials with the parameters
    of their effect.  A primitive without normals has [None] for its normal
    array and its normal index. *)
Record Primitive {scalar : Type} := {
  p_vertex : ndarray scalar;
  p_vertex_index : ndarray Z;
  p_normal : option (ndarray scalar);
  p_normal_index : option (ndarray Z);
  texcoordset : list (ndarray scalar);
  texcoord_indexset : list (ndarray Z);
  p_material : string;
}.
Arguments Primitive : clear implicits.

#[warnings="-register-all"]
Inductive SceneNode {scalar : Type} :=
  | Node (node_matrix : ndarray scalar) (node_children : list SceneNode)
  | GeometryNode (primitives : list (Primitive scalar))
  | OtherNode.
Arguments SceneNode : clear implicits.

Inductive EffectParam :=
  | Surface (image_path : string)
  | OtherParam.

Record Material := {
  material_id : string;
  effect_params : list EffectParam;
}.

Record Collada {scalar : Type} := {
  materials : list Material;
  scene_nodes : list (SceneNode scalar);
}.
Arguments Collada : clear implicits.

(** Modelled from the spec: [model.MeshTransformData], a transform node with
    an optional matrix and an ordered sequence of children, each a transform
    node, a mesh or [None]; a fresh one has no matrix and no children. *)
#[warnings="-register-all"]
Inductive Data {scalar : Type} :=
  | MeshTransformData (mt_matrix : option (ndarray scalar))
                      (mt_children : list Data)
  | OfMeshData (m : MeshData scalar)
  | PyNone.
Arguments Data : clear implicits.

(** Modelled from the spec: a fresh [model.MeshData()] has no optional
    attribute assigned. *)
Definition MeshData_new {scalar : Type} : MeshData scalar :=
  {| vertex := []; vertex_index := []; normal := None; normal_index := None;
     uvmap := None; uvmap_index := None; image := None; material := None |}.

Record ColladaReader := {
  _basepath : option string;
  _assethandler : option (string → string);
  cr_materials : gmap string Material;
}.

(** [ColladaReader.__init__] *)
Definition ColladaReader_init : ColladaReader :=
  {| _basepath := None; _assethandler := None; cr_materials := ∅ |}.

Section ColladaReader.
Context {scalar : Type}.
(** [os.path.abspath(os.path.join(base, path))] *)
Context (abspath_join : option string → string → string).

(** The loop over the parameters of the effect: every surface assigns the
    image, so the last one stays. *)
Definition resolve_image (self : ColladaReader) (params : list EffectParam)
    (image0 : option string) : option string :=
  foldl (λ img pr,
           match pr with
           | Surface path =>
             let fname := abspath_join (_basepath self) path in
             match _assethandler self with
             | Some handler => Some (handler fname)
             | None => Some fname
             end
           | OtherParam => img
           end) image0 params.

(** The body of the loop of [convertchild] over the primitives of a
    geometry.  [p.normal.size] raises [AttributeError] when the primitive
    has no normals. *)
Definition convert_primitive (self : ColladaReader) (p : Primitive scalar)
  : result (MeshData scalar) :=
  let sm := MeshData_new in
  do normals <-
    match p_normal p with
    | None => Raise "AttributeError"
    | Some a => if decide (0 < size_of a)
                then Ok (Some a, p_normal_index p)
                else Ok (normal sm, normal_index sm)
    end;
  let '(normal_, normal_index_) := normals in
  do uv <-
    (if decide (0 < length (texcoordset p)) then
       do uvmap_ <- getitem (texcoordset p) 0;
       do uvmap_index_ <- getitem (texcoord_indexset p) 0;
       Ok (Some uvmap_, Some uvmap_index_)
     else Ok (uvmap sm, uvmap_index sm));
  let image_ :=
    match cr_materials self !! p_material p with
    | Some mat => resolve_image self (effect_params mat) (image sm)
    | None => image sm
    end in
  Ok {| vertex := p_vertex p; vertex_index := p_vertex_index p;
        normal := normal_; normal_index := normal_index_;
        uvmap := uv.1; uvmap_index := uv.2; image := image_;
        material := material sm |}.

(** [ColladaReader.convertchild] *)
Fixpoint ColladaReader_convertchild (self : ColladaReader)
    (d : SceneNode scalar) : result (Data scalar) :=
  match d with
  | Node matrix_ children_ =>
    do cs <- (fix loop (l : list (SceneNode scalar))
                : result (list (Data scalar)) :=
                match l with
                | [] => Ok []
                | c :: l' =>
                  do cm <- ColladaReader_convertchild self c;
                  do rest <- loop l';
                  Ok (cm :: rest)
                end) children_;
    Ok (MeshTransformData (Some matrix_) cs)
  | GeometryNode prims =>
    do cs <- for_each (λ cs p, do sm <- convert_primitive self p;
                                Ok (cs ++ [OfMeshData sm]))
               [] prims;
    Ok (MeshTransformData None cs)
  | OtherNode => Ok PyNone
  end.

(** [ColladaReader.read], from the document pycollada parsed; the file
    name gives the base path. *)
Definition ColladaReader_read (self : ColladaReader)
    (basepath : string) (assethandler : option (string → string))
    (d : Collada scalar) : result (Data scalar * ColladaReader) :=
  let self :=
    {| _basepath := Some basepath; _assethandler := assethandler;
       cr_materials := foldl (λ ms m, <[material_id m := m]> ms)
                         (cr_materials self) (materials d) |} in
  do children_ <-
    for_each (λ cs n, do cm <- ColladaReader_convertchild self n;
                       Ok (match cm with
                           | PyNone => cs
                           | _ => cs ++ [cm]
                           end))
      [] (scene_nodes d);
  Ok (MeshTransformData None children_, self).

End ColladaReader.

(** ** ColladaWriter *)

(** What the writer builds with pycollada. *)
Record FloatSource {scalar : Type} := {
  source_id : string;
  source_data : ndarray scalar;
  components : list string;
}.
Arguments FloatSource : clear implicits.

Record TriangleSet := {
  ts_indices : ndarray Z;
  input_list : list (nat * string * string);
  ts_material : string;
}.

Record Geometry {scalar : Type} := {
  geometry_id : string;
  geometry_name : string;
  sources : list (FloatSource scalar);
  geometry_primitives : list TriangleSet;
}.
Arguments Geometry : clear implicits.

#[warnings="-register-all"]
Inductive OutNode {scalar : Type} :=
  | OutNode_Node (name : string) (children : list OutNode)
  | OutNode_Geometry (geom : Geometry scalar) (matnodes : list string).
Arguments OutNode : clear implicits.

(** The state of the writer: the geometries appended to [self._mesh], and
    how many identifiers [uuid.uuid1()] has handed out. *)
Record ColladaWriter {scalar : Type} := {
  geometries : list (Geometry scalar);
  uuids_drawn : nat;
}.
Arguments ColladaWriter : clear implicits.

Section ColladaWriter.
Context {scalar : Type}.
(** The truth value of an array element, and
    [str(uuid.uuid1()).replace('-', '')] for the successive calls. *)
Context (nonzero : scalar → bool) (uuid1 : nat → string).

Definition draw_uuid (self : ColladaWriter scalar)
  : string * ColladaWriter scalar :=
  (uuid1 (uuids_drawn self),
   {| geometries := geometries self; uuids_drawn := S (uuids_drawn self) |}).

(** [if m.normal:] *)
Definition normal_truth (m : MeshData scalar) : result bool :=
  match normal m with
  | None => Ok false
  | Some a => array_bool nonzero a
  end.

(** The index stream handed to [createTriangleSet]:
    [indices.T.reshape(1, indices.size)]. *)
Definition index_stream (indices : ndarray Z) : ndarray Z :=
  reshape_row (transpose indices).

(** pycollada's [FloatSource(id, data, components)]: the data is reshaped
    to rows of one value per component, which raises [ValueError] unless
    its size is a multiple of their number. *)
Definition FloatSource_new (id : string) (data_ : ndarray scalar)
    (comps : list string) : result (FloatSource scalar) :=
  let flat := concat data_ in
  let c := length comps in
  if decide (0 < c ∧ length flat `mod` c = 0)
  then Ok {| source_id := id; source_data := rows (length flat `div` c) c flat;
             components := comps |}
  else Raise "ValueError".

(** The source an input names by ['#'] and its id, in the sources of the
    geometry, which pycollada keeps in a dictionary by id. *)
Definition resolve_input (srcs : list (FloatSource scalar)) (ref : string)
  : result (FloatSource scalar) :=
  match ref with
  | String "#"%char (String c id) =>
    match foldl (λ found src,
                   if decide (source_id src = String c id) then Some src
                   else found) None srcs with
    | Some src => Ok src
    | None => Raise "DaeBrokenRefError"
    end
  | _ => Raise "DaeMalformedError"
  end.

(** [index[:,:,offset]] of the index array reshaped to triangles of three
    corners with [nindices] indices each, as a flat list. *)
Definition index_column (nindices offset : nat) (flat : list Z) : list Z :=
  omap (λ corner, flat !! (corner * nindices + offset))
    (seq 0 (length flat `div` nindices)).

(** [numpy.max] of an array that is not empty. *)
Definition max_index (l : list Z) : Z := foldr Z.max (default 0%Z (head l)) l.

(** pycollada's [checkSource] for the components X, Y, Z: the largest index
    must be below the number of rows of the source. *)
Definition checkSource (src : FloatSource scalar) (maxindex : Z)
  : result unit :=
  if decide (Z.of_nat (length (source_data src)) ≤ maxindex)%Z
  then Raise "DaeMalformedError"
  else if decide (length (components src) = 3) then Ok tt
       else Raise "DaeMalformedError".

(** The check of the first input of a semantic, when there is one. *)
Definition check_input (semantic : string)
    (inputs : list (nat * string * FloatSource scalar)) (nindices : nat)
    (flat : list Z) : result unit :=
  match filter (λ i, i.1.2 = semantic) inputs with
  | [] => Ok tt
  | i :: _ => checkSource i.2 (max_index (index_column nindices i.1.1 flat))
  end.

(** pycollada's [Geometry.createTriangleSet(indices, inputlist, material)]
    for a geometry with the sources [srcs].  The inputs are resolved; the
    index array is reshaped to triangles of three corners with one index
    per input, which raises [ValueError] unless its size is a multiple of
    three times their number; if there is a triangle, the position indices
    and the normal indices are checked against their sources. *)
Definition createTriangleSet (srcs : list (FloatSource scalar))
    (indices : ndarray Z) (inputs : list (nat * string * string))
    (materialid : string) : result TriangleSet :=
  do resolved <-
    for_each (λ acc i, do src <- resolve_input srcs i.2;
                        Ok (acc ++ [(i.1.1, i.1.2, src)])) [] inputs;
  if decide ("VERTEX" ∈ (λ i, i.1.2) <$> resolved) then
    let nindices := S (foldr Nat.max 0 ((λ i, i.1.1) <$> resolved)) in
    let flat := concat indices in
    if decide (length flat `mod` (3 * nindices) = 0) then
      do _ <- (if decide (0 < length flat)
               then do _ <- check_input "VERTEX" resolved nindices flat;
                    check_input "NORMAL" resolved nindices flat
               else Ok tt);
      Ok {| ts_indices := indices; input_list := inputs;
            ts_material := materialid |}
    else Raise "ValueError"
  else Raise "DaeIncompleteError".

(** The mesh branch of [ColladaWriter.convertchild]. *)
Definition convert_mesh (self : ColladaWriter scalar) (m : MeshData scalar)
  : result (OutNode scalar * ColladaWriter scalar) :=
  let '(u, self) := draw_uuid self in
  let name := "shape-" +:+ u in
  let vertexname := name +:+ "-vertex" in
  let normalname := name +:+ "-normal" in
  do vsource <- FloatSource_new vertexname (reshape_row (vertex m))
                  ["X"; "Y"; "Z"];
  let sources0 := [vsource] in
  let indices0 := reshape_row (vertex_index m) in
  let inputs0 := [(0, "VERTEX", "#" +:+ vertexname)] in
  do has_normal <- normal_truth m;
  do merged <-
    (if has_normal : bool then
       match normal m with
       | Some normal_ =>
         do nsource <- FloatSource_new normalname (reshape_row normal_)
                         ["X"; "Y"; "Z"];
         match normal_index m with
         | Some normal_index_ =>
           do indices <- vstack indices0 (reshape_row normal_index_);
           Ok (sources0 ++ [nsource], indices,
               inputs0 ++ [(1, "NORMAL", "#" +:+ normalname)])
         | None => Raise "AttributeError"
         end
       | None => Raise "AttributeError"
       end
     else Ok (sources0, indices0, inputs0));
  let '(sources_, indices, inputs) := merged in
  do triset <- createTriangleSet sources_ (index_stream indices) inputs
                 "materialref";
  let geom := {| geometry_id := "geometry0"; geometry_name := name;
                 sources := sources_; geometry_primitives := [triset] |} in
  Ok (OutNode_Geometry geom ["materialref"],
      {| geometries := geometries self ++ [geom];
         uuids_drawn := uuids_drawn self |}).

(** [ColladaWriter.convertchild]; [None] is returned for anything that is
    neither a transform node nor a mesh. *)
Fixpoint ColladaWriter_convertchild (self : ColladaWriter scalar)
    (m : Data scalar)
  : result (option (OutNode scalar) * ColladaWriter scalar) :=
  match m with
  | MeshTransformData _ children_ =>
    let '(u, self) := draw_uuid self in
    let name := "node-" +:+ u in
    do r <- (fix loop (self : ColladaWriter scalar) (l : list (Data scalar))
               : result (list (OutNode scalar) * ColladaWriter scalar) :=
               match l with
               | [] => Ok ([], self)
               | c :: l' =>
                 do r <- ColladaWriter_convertchild self c;
                 do rest <- loop r.2 l';
                 Ok (match r.1 with
                     | Some cn => cn :: rest.1
                     | None => rest.1
                     end, rest.2)
               end) self children_;
    Ok (Some (OutNode_Node name r.1), r.2)
  | OfMeshData md =>
    do r <- convert_mesh self md;
    Ok (Some r.1, r.2)
  | PyNone => Ok (None, self)
  end.

End ColladaWriter.

Arguments FloatSource_new : simpl never.
Arguments createTriangleSet : simpl never.

(** ** The joint list as a graph *)

Section Graph.
Context {scalar : Type}.
Implicit Types (mdata : BodyModel scalar) (a b c r v : string).

(** A joint is a directed edge from its parent to its child. *)
Definition edge mdata a b : Prop :=
  ∃ j, j ∈ joints mdata ∧ parent j = a ∧ child j = b.

Definition is_parent mdata v : Prop := v ∈ parent <$> joints mdata.
Definition is_child mdata v : Prop := v ∈ child <$> joints mdata.

(** The nodes of the graph: the link names some joint mentions. *)
Definition mentioned mdata v : Prop := is_parent mdata v ∨ is_child mdata v.

Definition acyclic mdata : Prop := ∀ a, ¬ tc (edge mdata) a a.

(** A forest: no link has two parents and no link is its own ancestor. *)
Definition forest mdata : Prop :=
  (∀ a b c, edge mdata a c → edge mdata b c → a = b) ∧ acyclic mdata.

(** Two links are in one connected component when a chain of joints,
    followed in either direction, joins them. *)
Definition connected mdata : relation string := rtsc (edge mdata).

(** The root of a component: a parent that is no joint's child. *)
Definition component_root mdata r : Prop :=
  is_parent mdata r ∧ ¬ is_child mdata r.

(** Some link reachable from [root] is its own descendant. *)
Definition cycle_reachable mdata root : Prop :=
  ∃ c, rtc (edge mdata) root c ∧ tc (edge mdata) c c.

(** Every joint has one of the four joint types [convertjointtype]
    knows. *)
Definition supported mdata : Prop :=
  ∀ j, j ∈ joints mdata → ∃ t, convertjointtype (jointType j) = Ok t.

(** The claim of root uniqueness: every node of the graph is connected to
    exactly one of the candidates. *)
Definition one_root_per_component mdata : Prop :=
  ∀ v, mentioned mdata v →
    ∃ r, r ∈ findroot mdata ∧ connected mdata r v ∧
         ∀ r', r' ∈ findroot mdata → connected mdata r' v → r' = r.

(** All nodes of a list of trees, parents before children. *)
Fixpoint flatten (n : nmodel scalar) : list (nmodel scalar) :=
  match n with
  | NModel _ _ _ cs => n :: mjoin (flatten <$> cs)
  end.
Definition flatten_all (ns : list (nmodel scalar)) : list (nmodel scalar) :=
  mjoin (flatten <$> ns).

End Graph.

(** A walk along a relation: the list of the nodes visited after [a]. *)
Fixpoint walk {A : Type} (R : relation A) (a : A) (l : list A) : Prop :=
  match l with
  | [] => True
  | b :: l' => R a b ∧ walk R b l'
  end.

(** ** Concrete inputs

    Array elements are integers here; the functions above do not inspect them
    except for the truth value of a single element. *)

Definition JointModel0 : JointModel Z :=
  {| joint_name := ""; parent := ""; child := ""; jointType := "";
     limit := []; axis := []; trans := []; rot := [] |}.

Definition mkjoint (p c : string) : JointModel Z :=
  {| joint_name := p +:+ c; parent := p; child := c;
     jointType := J_REVOLUTE; limit := []; axis := [0; 0; 1]%Z;
     trans := [0; 0; 0]%Z; rot := [1; 0; 0; 0]%Z |}.

Definition mklink (n : string) : LinkModel Z :=
  {| link_name := n; mass := 1%Z; centerofmass := [0; 0; 0]%Z;
     visuals := [] |}.

(** A root [R] above the cycle [A], [B], [C]. *)
Definition body_cycle : BodyModel Z :=
  {| body_name := Some "cycle";
     links := [mklink "R"; mklink "A"; mklink "B"; mklink "C"];
     joints := [mkjoint "R" "A"; mkjoint "A" "B"; mkjoint "B" "C";
                mkjoint "C" "A"] |}.

(** A chain attached to the world. *)
Definition body_world : BodyModel Z :=
  {| body_name := Some "anchored";
     links := [mklink "A"; mklink "B"];
     joints := [mkjoint "world" "A"; mkjoint "A" "B"] |}.

(** Two trees: [R] above [A], [B], [C], and [X] above [Y]. *)
Definition body_trees : BodyModel Z :=
  {| body_name := Some "trees";
     links := [mklink "R"; mklink "A"; mklink "B"; mklink "C"; mklink "X";
               mklink "Y"];
     joints := [mkjoint "R" "A"; mkjoint "R" "B"; mkjoint "A" "C";
                mkjoint "X" "Y"] |}.

(** Two links, each the parent of the other. *)
Definition body_ab : BodyModel Z :=
  {| body_name := Some "ab";
     links := [mklink "A"; mklink "B"];
     joints := [mkjoint "A" "B"; mkjoint "B" "A"] |}.

(** The link [B] of the joints is missing from the link list. *)
Definition body_missing : BodyModel Z :=
  {| body_name := Some "missing";
     links := [mklink "A"; mklink "C"];
     joints := [mkjoint "A" "B"; mkjoint "B" "C"] |}.

Definition rank_of (names : list string) (s : string) : nat :=
  from_option fst 0 (list_find (λ x, x = s) names).

(** Inputs of the VRML reader: a square of two triangles with one normal
    per vertex and no normal indices. *)
Definition square_shape : ShapeInfo Z :=
  {| primitiveType := OpenHRP_SP_MESH;
     vertices := [0; 0; 0; 1; 0; 0; 1; 1; 0; 0; 1; 0]%Z;
     triangles := [0; 1; 2; 0; 2; 3]%Z;
     appearanceIndex := 0; primitiveParameters := [] |}.

Definition square_appearance : AppearanceInfo Z :=
  {| normalPerVertex := true;
     normals := [0; 0; 1; 0; 0; 1; 0; 0; 1; 0; 0; 1]%Z;
     normalIndices := []; materialIndex := 0 |}.

Definition grey : MaterialInfo Z :=
  {| ambientIntensity := 1%Z; diffuseColor := [1; 1; 1]%Z;
     specularColor := [0; 0; 0]%Z; emissiveColor := [0; 0; 0]%Z;
     mi_shininess := 0%Z; mi_transparency := 0%Z |}.

Definition reader_square : VRMLReader Z :=
  {| _joints := []; _links := [];
     _materials := [read_material 1%Z 0 grey];
     _hrplinks := []; _hrpshapes := [square_shape];
     _hrpapperances := [square_appearance]; _hrpmaterials := [grey];
     _hrpextrajoints := [] |}.

(** A shape with other triangle indices. *)
Definition with_triangles {scalar : Type} (sdata : ShapeInfo scalar)
    (t : list Z) : ShapeInfo scalar :=
  {| primitiveType := primitiveType sdata; vertices := vertices sdata;
     triangles := t; appearanceIndex := appearanceIndex sdata;
     primitiveParameters := primitiveParameters sdata |}.

(** A primitive with other triangle indices. *)
Definition with_vertex_index {scalar : Type} (p : Primitive scalar)
    (idx : ndarray Z) : Primitive scalar :=
  {| p_vertex := p_vertex p; p_vertex_index := idx; p_normal := p_normal p;
     p_normal_index := p_normal_index p; texcoordset := texcoordset p;
     texcoord_indexset := texcoord_indexset p; p_material := p_material p |}.

(** A closed-link model: the chain [L0], [L1], [L2] and an extra joint from
    [L2] back to [L0]. *)
Definition hrplink (n : string) (cs : list Z) : LinkInfo Z :=
  {| li_name := n; li_mass := 1%Z; centerOfMass := [0; 0; 0]%Z;
     shapeIndices := []; childIndices := cs; li_jointType := "rotate";
     ulimit := [1%Z]; llimit := [(-1)%Z]; jointAxis := [0; 0; 1]%Z;
     translation := [0; 0; 0]%Z; rotation := [0; 0; 1; 0]%Z |}.

Definition closed_link_sample : BodyInfo Z :=
  {| _get_links := [hrplink "L0" [1%Z]; hrplink "L1" [2%Z]; hrplink "L2" []];
     _get_shapes := []; _get_appearances := []; _get_materials := [];
     _get_extraJoints := [{| ej_name := "loop"; ej_link := ["L2"; "L0"];
                             ej_axis := [0; 0; 1]%Z |}] |}.

Definition quaternion0 (angle : Z) (axis_ : list Z) : list Z := angle :: axis_.

Definition loop_joint : JointModel Z :=
  {| joint_name := "loop"; parent := "L2"; child := "L0"; jointType := "";
     limit := []; axis := [0; 0; 1]%Z; trans := []; rot := [] |}.

(** Inputs of the COLLADA reader and writer. *)
Definition abspath_join0 (base : option string) (path : string) : string :=
  default "" base +:+ "/" +:+ path.

Definition wood : Material :=
  {| material_id := "wood"; effect_params := [OtherParam; Surface "wood.png"] |}.

Definition reader_wood : ColladaReader :=
  {| _basepath := Some "/models"; _assethandler := None;
     cr_materials := {["wood" := wood]} |}.

(** A triangle with one normal whose last index is out of range. *)
Definition triangle_primitive : Primitive Z :=
  {| p_vertex := [[0; 0; 0]; [1; 0; 0]; [0; 1; 0]]%Z;
     p_vertex_index := [[0; 1; 7]]%Z;
     p_normal := Some [[0; 0; 1]]%Z; p_normal_index := Some [[0; 0; 0]]%Z;
     texcoordset := []; texcoord_indexset := [];
     p_material := "steel" |}.

Definition nonzeroZ (x : Z) : bool := negb (x =? 0)%Z.
Definition uuid0 (n : nat) : string := pretty n.

Definition writer0 : ColladaWriter Z := {| geometries := []; uuids_drawn := 0 |}.

(** A triangle with one normal vector. *)
Definition mesh_triangle : MeshData Z :=
  {| vertex := [[0; 0; 0]; [1; 0; 0]; [0; 1; 0]]%Z;
     vertex_index := [[0; 1; 2]]%Z;
     normal := Some [[0; 0; 1]]%Z; normal_index := Some [[0; 0; 0]]%Z;
     uvmap := None; uvmap_index := None; image := None; material := None |}.

(** The same triangle with a normal array of a single element. *)
Definition mesh_single : MeshData Z :=
  {| vertex := [[0; 0; 0]; [1; 0; 0]; [0; 1; 0]]%Z;
     vertex_index := [[0; 1; 2]]%Z;
     normal := Some [[1]]%Z; normal_index := Some [[0; 0; 0]]%Z;
     uvmap := None; uvmap_index := None; image := None; material := None |}.


(** ** Further notions about the tree build *)

(** Every joint below [root] has a joint type [convertjointtype] knows. *)
Definition supported_from {scalar : Type} (mdata : BodyModel scalar)
    (root : string) : Prop :=
  ∀ j, j ∈ joints mdata → rtc (edge mdata) root (parent j) →
       ∃ t, convertjointtype (jointType j) = Ok t.

(** The number of joints that name a link as their parent. *)
Definition fanout {scalar : Type} (mdata : BodyModel scalar) (r : string)
  : nat :=
  length (findchildren mdata r).

(** A joint of unknown type below the root: R→A is revolute, A→B is not
    supported. *)
Definition body_unsupported : BodyModel Z :=
  {| body_name := Some "unsupported";
     links := [mklink "R"; mklink "A"; mklink "B"];
     joints := [mkjoint "R" "A";
                {| joint_name := "AB"; parent := "A"; child := "B";
                   jointType := "ball"; limit := []; axis := [];
                   trans := []; rot := [] |}] |}.

(** The parent [base] of the only joint is not in the link list. *)
Definition body_orphan_root : BodyModel Z :=
  {| body_name := Some "orphan"; links := [mklink "A"];
     joints := [mkjoint "base" "A"] |}.

(** No links and no joints. *)
Definition body_empty : BodyModel Z :=
  {| body_name := Some "empty"; links := []; joints := [] |}.

(** A link with one box, and a body of two such links. *)
Definition box_shape : ShapeModel Z :=
  {| shape_name := "shape-0"; matrix := []; shapeType := SP_BOX;
     data := BoxData 1%Z 1%Z 1%Z
               {| material_name := "material-0"; ambient := 1%Z;
                  diffuse := []; specular := []; emission := [];
                  shininess := 0%Z; transparency := 0%Z |} |}.

Definition mkvisible (n : string) : LinkModel Z :=
  {| link_name := n; mass := 1%Z; centerofmass := [0; 0; 0]%Z;
     visuals := [box_shape] |}.

Definition body_arm : BodyModel Z :=
  {| body_name := Some "arm";
     links := [mkvisible "base"; mkvisible "upper"; mkvisible "lower"];
     joints := [mkjoint "base" "upper"; mkjoint "upper" "lower"] |}.

(** ** Further notions about the VRML reader *)

(** The reader state [self'] extends [self] by links and joints appended in
    step: the child of each new joint is the new link at the same position,
    and its parent is one of [names] or a new link. *)
Definition lockstep {scalar : Type} (names : list string)
    (self self' : VRMLReader scalar) : Prop :=
  ∃ ls js, _links self' = _links self ++ ls ∧
           _joints self' = _joints self ++ js ∧
           Forall2 (λ l j, child j = link_name l) ls js ∧
           Forall (λ j, parent j ∈ names ++ (link_name <$> ls)) js.

(** A link that shows the square, placed by the identity transform. *)
Definition square_link : LinkInfo Z :=
  {| li_name := "plate"; li_mass := 1%Z; centerOfMass := [0; 0; 0]%Z;
     shapeIndices := [{| transformMatrix :=
                           [1; 0; 0; 0; 0; 1; 0; 0; 0; 0; 1; 0]%Z;
                         shapeIndex := 0 |}];
     childIndices := []; li_jointType := "fixed"; ulimit := []; llimit := [];
     jointAxis := [0; 0; 1]%Z; translation := [0; 0; 0]%Z;
     rotation := [0; 0; 1; 0]%Z |}.

(** One normal per face for the two triangles of the square, and no
    material ([materialIndex] -1). *)
Definition face_appearance : AppearanceInfo Z :=
  {| normalPerVertex := false; normals := [0; 0; 1]%Z;
     normalIndices := [0; 0]%Z; materialIndex := (-1)%Z |}.

Definition reader_faces : VRMLReader Z :=
  {| _joints := []; _links := [];
     _materials := [read_material 1%Z 0 grey; read_material 1%Z 1 grey];
     _hrplinks := []; _hrpshapes := [square_shape];
     _hrpapperances := [face_appearance]; _hrpmaterials := [grey; grey];
     _hrpextrajoints := [] |}.

(** The square without normals. *)
Definition bare_appearance : AppearanceInfo Z :=
  {| normalPerVertex := true; normals := []; normalIndices := [];
     materialIndex := 0 |}.

Definition reader_bare : VRMLReader Z :=
  {| _joints := []; _links := [];
     _materials := [read_material 1%Z 0 grey];
     _hrplinks := []; _hrpshapes := [square_shape];
     _hrpapperances := [bare_appearance]; _hrpmaterials := [grey];
     _hrpextrajoints := [] |}.

(** ** [ColladaWriter.write] and further notions about COLLADA data *)

(** The meshes of a data tree, and the nodes that get a name: the
    transform nodes and the meshes. *)
Fixpoint count_meshes {scalar : Type} (d : Data scalar) : nat :=
  match d with
  | MeshTransformData _ cs => sum_list (count_meshes <$> cs)
  | OfMeshData _ => 1
  | PyNone => 0
  end.

Fixpoint count_named {scalar : Type} (d : Data scalar) : nat :=
  match d with
  | MeshTransformData _ cs => S (sum_list (count_named <$> cs))
  | OfMeshData _ => 1
  | PyNone => 0
  end.

(** The document [write] hands to pycollada for saving: the effect, the
    material, the geometries, and the scene with its root node, whose one
    child is the node [convertchild] returned. *)
Record Document {scalar : Type} := {
  doc_effects : list string;
  doc_materials : list (string * string * string);
  doc_geometries : list (Geometry scalar);
  doc_scene : string;
  doc_root : string;
  doc_root_children : list (OutNode scalar);
}.
Arguments Document : clear implicits.

(** [ColladaWriter.write], up to the saving of the document; [data_] is
    [m.data].  A fresh document replaces [self._mesh].  The root node
    collects the XML nodes of its children, which raises [AttributeError]
    when [convertchild] returned [None]. *)
Definition ColladaWriter_write {scalar : Type} (nonzero : scalar → bool)
    (uuid1 : nat → string) (self : ColladaWriter scalar)
    (data_ : Data scalar)
  : result (Document scalar * ColladaWriter scalar) :=
  let self := {| geometries := []; uuids_drawn := uuids_drawn self |} in
  do r <- ColladaWriter_convertchild nonzero uuid1 self data_;
  match r.1 with
  | Some node =>
    Ok ({| doc_effects := ["effect0"];
           doc_materials := [("material0", "mymaterial", "effect0")];
           doc_geometries := geometries r.2;
           doc_scene := "myscene"; doc_root := "root";
           doc_root_children := [node] |}, r.2)
  | None => Raise "AttributeError"
  end.

(** A triangle with one normal, of the material [wood] and of a material
    that is not in the table, the same triangle without normals, and a
    scene of two triangles under a node next to a node of unknown type. *)
Definition plain_primitive : Primitive Z :=
  {| p_vertex := [[0; 0; 0]; [1; 0; 0]; [0; 1; 0]]%Z;
     p_vertex_index := [[0; 1; 2]]%Z;
     p_normal := Some [[0; 0; 1]]%Z; p_normal_index := Some [[0; 0; 0]]%Z;
     texcoordset := []; texcoord_indexset := [];
     p_material := "wood" |}.

Definition steel_primitive : Primitive Z :=
  {| p_vertex := [[0; 0; 0]; [1; 0; 0]; [0; 1; 0]]%Z;
     p_vertex_index := [[0; 1; 2]]%Z;
     p_normal := Some [[0; 0; 1]]%Z; p_normal_index := Some [[0; 0; 0]]%Z;
     texcoordset := []; texcoord_indexset := [];
     p_material := "steel" |}.

Definition bare_primitive : Primitive Z :=
  {| p_vertex := [[0; 0; 0]; [1; 0; 0]; [0; 1; 0]]%Z;
     p_vertex_index := [[0; 1; 2]]%Z;
     p_normal := None; p_normal_index := None;
     texcoordset := []; texcoord_indexset := [];
     p_material := "steel" |}.

Definition scene_sample : Collada Z :=
  {| materials := [wood];
     scene_nodes :=
       [OtherNode;
        Node [[1; 0]; [0; 1]]%Z
          [GeometryNode [plain_primitive; plain_primitive]; OtherNode]] |}.

Definition mesh_plain : MeshData Z :=
  {| vertex := [[0; 0; 0]; [1; 0; 0]; [0; 1; 0]]%Z;
     vertex_index := [[0; 1; 2]]%Z;
     normal := None; normal_index := None;
     uvmap := None; uvmap_index := None; image := None; material := None |}.

(** The square of two triangles, without normals. *)
Definition mesh_square : MeshData Z :=
  {| vertex := [[0; 0; 0]; [1; 0; 0]; [1; 1; 0]; [0; 1; 0]]%Z;
     vertex_index := [[0; 1; 2]; [0; 2; 3]]%Z;
     normal := None; normal_index := None;
     uvmap := None; uvmap_index := None; image := None; material := None |}.

Definition data_sample : Data Z :=
  MeshTransformData None
    [MeshTransformData None [OfMeshData mesh_plain; OfMeshData mesh_square];
     PyNone].

(** A writer that has already written a geometry. *)
Definition writer_used : ColladaWriter Z :=
  {| geometries := [{| geometry_id := "geometry0"; geometry_name := "old";
                       sources := []; geometry_primitives := [] |}];
     uuids_drawn := 7 |}.

(** What a conversion by the COLLADA writer does to the writer: it appends
    one geometry per mesh, every one with the id ['geometry0'], draws one
    identifier per transform node and mesh, and returns [None] only for
    data that is neither. *)
Definition writer_effect {scalar : Type} (d : Data scalar)
    (self : ColladaWriter scalar)
    (r : option (OutNode scalar) * ColladaWriter scalar) : Prop :=
  ∃ new, geometries r.2 = geometries self ++ new ∧
         length new = count_meshes d ∧
         Forall (λ g, geometry_id g = "geometry0") new ∧
         uuids_drawn r.2 = uuids_drawn self + count_named d ∧
         (r.1 = None ↔ d = PyNone).

(** [cm is None] *)
Definition is_PyNone {scalar : Type} (d : Data scalar) : bool :=
  match d with
  | PyNone => true
  | _ => false
  end.

(** ** Further notions about bodies read and written *)

(** The position of the first occurrence of a name. *)
Fixpoint index_of (names : list string) (s : string) : nat :=
  match names with
  | [] => 0
  | a :: names' => if decide (a = s) then 0 else S (index_of names' s)
  end.

(** Links and joints in step and in the order of a tree walk: the child of
    each joint is the link at the same position, its parent is one of
    [names] or an earlier link, and its type is one the reader assigns. *)
Fixpoint ordered {scalar : Type} (names : list string)
    (ls : list (LinkModel scalar)) (js : list (JointModel scalar)) : Prop :=
  match ls, js with
  | [], [] => True
  | l :: ls', j :: js' =>
    child j = link_name l ∧ parent j ∈ names ∧
    jointType j ∈ [J_FIXED; J_REVOLUTE; J_PRISMATIC] ∧
    ordered (names ++ [link_name l]) ls' js'
  | _, _ => False
  end.

(** The reader state [self'] extends [self] by such links and joints. *)
Definition grows {scalar : Type} (names : list string)
    (self self' : VRMLReader scalar) : Prop :=
  ∃ ls js, _links self' = _links self ++ ls ∧
           _joints self' = _joints self ++ js ∧ ordered names ls js.

(** The chain [L0], [L1], [L2] without the extra joint. *)
Definition open_chain_sample : BodyInfo Z :=
  {| _get_links := [hrplink "L0" [1%Z]; hrplink "L1" [2%Z]; hrplink "L2" []];
     _get_shapes := []; _get_appearances := []; _get_materials := [];
     _get_extraJoints := [] |}.

(** The body the reader returns from that model. *)
Definition open_chain_body : BodyModel Z :=
  Eval vm_compute in
    match read 0%Z 1%Z JointModel0 quaternion0 5 open_chain_sample with
    | Ok bm => bm
    | Raise _ => {| body_name := None; links := []; joints := [] |}
    end.

(** * Properties *)

(** ** Walks in a finite graph *)

Section Walk.
Context {A : Type} (R : relation A).

Lemma walk_tc a l x : walk R a l → x ∈ l → tc R a x.
Proof.
  revert a. induction l as [|b l IH]; intros a Hw Hx.
  - by apply elem_of_nil in Hx.
  - destruct Hw as [Hab Hw]. apply elem_of_cons in Hx as [->|Hx].
    + by apply tc_once.
    + eapply tc_l; [exact Hab|]. by apply IH.
Qed.

Lemma walk_NoDup a l :
  walk R a l → (∀ x, x ∈ l → ¬ tc R x x) → NoDup l.
Proof.
  revert a. induction l as [|b l IH]; intros a Hw Hcyc.
  - constructor.
  - destruct Hw as [Hab Hw]. constructor.
    + intros Hb. apply (Hcyc b); [by left|]. by eapply walk_tc.
    + eapply IH; [exact Hw|]. intros x Hx. apply Hcyc. by right.
Qed.

Lemma walk_targets (supp : list A) a l :
  (∀ x y, R x y → y ∈ supp) → walk R a l → l ⊆ supp.
Proof.
  intros Hsupp. revert a. induction l as [|b l IH]; intros a Hw x Hx.
  - by apply elem_of_nil in Hx.
  - destruct Hw as [Hab Hw]. apply elem_of_cons in Hx as [->|Hx].
    + by eapply Hsupp.
    + by eapply (IH b).
Qed.

(** A walk that meets no cycle is no longer than the list of possible
    targets. *)
Lemma walk_bounded (supp : list A) a l :
  (∀ x y, R x y → y ∈ supp) →
  walk R a l → (∀ x, x ∈ l → ¬ tc R x x) → (length l ≤ length supp)%nat.
Proof.
  intros Hsupp Hw Hcyc. apply submseteq_length, NoDup_submseteq.
  - by eapply walk_NoDup.
  - intros x Hx. eapply walk_targets; eauto.
Qed.

End Walk.

(** ** Root detection *)

Section Dict.
Context {V : Type}.
Implicit Types (d : list (string * V)) (k : string) (v : V).

Lemma dict_get_set_eq d k v : dict_get (dict_set d k v) k = Some v.
Proof.
  induction d as [|[k' v'] d IH]; simpl.
  - by rewrite decide_True.
  - case_decide as Hk; simpl.
    + by rewrite decide_True.
    + by rewrite decide_False.
Qed.

Lemma dict_get_set_ne d k k' v :
  k ≠ k' → dict_get (dict_set d k v) k' = dict_get d k'.
Proof.
  intros Hne. induction d as [|[k0 v0] d IH]; simpl.
  - by rewrite decide_False.
  - case_decide as Hk; simpl.
    + subst k0. by rewrite !decide_False.
    + by rewrite IH.
Qed.

Lemma dict_get_del d k k' :
  dict_get (dict_del d k) k' = if decide (k = k') then None else dict_get d k'.
Proof.
  unfold dict_del. induction d as [|[k0 v0] d IH]; simpl.
  - by case_decide.
  - destruct (decide (k0 = k)) as [->|Hk0].
    + rewrite filter_cons_False by (simpl; tauto). rewrite IH.
      by destruct (decide (k = k')).
    + rewrite filter_cons_True by done. simpl. rewrite IH.
      destruct (decide (k = k')) as [<-|Hk]; [|done].
      by rewrite decide_False.
Qed.

Lemma dict_set_keys d k v :
  (dict_set d k v).*1 = if decide (k ∈ d.*1) then d.*1 else d.*1 ++ [k].
Proof.
  induction d as [|[k0 v0] d IH].
  - by destruct (decide (k ∈ ([] : list (string * V)).*1))
      as [?%elem_of_nil|].
  - cbn [dict_set fst]. rewrite (fmap_cons fst (k0, v0) d). cbn [fst].
    destruct (decide (k0 = k)) as [->|Hk].
    + rewrite fmap_cons. cbn [fst]. rewrite decide_True; [done|]. by left.
    + rewrite fmap_cons, IH. cbn [fst].
      destruct (decide (k ∈ d.*1)) as [Hin|Hout].
      * rewrite decide_True; [done|]. by right.
      * rewrite decide_False; [done|]. by intros [?|?]%elem_of_cons.
Qed.

Lemma dict_set_NoDup d k v : NoDup d.*1 → NoDup (dict_set d k v).*1.
Proof.
  intros Hnd. rewrite dict_set_keys. case_decide as Hk; [done|].
  apply NoDup_app. split_and!; [done| |apply NoDup_singleton].
  by intros x Hx ->%list_elem_of_singleton.
Qed.

Lemma dict_del_NoDup d k : NoDup d.*1 → NoDup (dict_del d k).*1.
Proof.
  unfold dict_del. induction d as [|[k0 v0] d IH]; [done|].
  rewrite fmap_cons. intros [Hk0 Hnd]%NoDup_cons.
  destruct (decide (k0 = k)) as [->|Hne].
  - rewrite filter_cons_False by (simpl; tauto). by apply IH.
  - rewrite filter_cons_True by done. rewrite fmap_cons.
    apply NoDup_cons. split; [|by apply IH].
    intros ([k1 v1] & Hk1 & [_ Hin]%list_elem_of_filter)%list_elem_of_fmap.
    apply Hk0. apply list_elem_of_fmap. by exists (k1, v1).
Qed.

Lemma dict_elem_of d k v :
  NoDup d.*1 → (k, v) ∈ d ↔ dict_get d k = Some v.
Proof.
  induction d as [|[k0 v0] d IH]; simpl.
  - intros _. split; [by intros ?%elem_of_nil|done].
  - intros [Hk0 Hnd]%NoDup_cons. destruct (decide (k0 = k)) as [->|Hne].
    + split.
      * intros [[= ->]|Hin]%elem_of_cons; [done|].
        exfalso. apply Hk0. apply list_elem_of_fmap. by exists (k, v).
      * intros [= ->]. by left.
    + rewrite <- (IH Hnd). split.
      * intros [[= ??]|Hin]%elem_of_cons; [congruence|done].
      * by right.
Qed.

End Dict.

Section Findroot.
Context {scalar : Type}.
Implicit Types (mdata : BodyModel scalar) (j : JointModel scalar).
Implicit Types (counts : list (string * nat)) (r : string).

Lemma count_parent_lookup counts j r :
  is_Some (dict_get (count_parent counts j) r) ↔
  is_Some (dict_get counts r) ∨ (parent j = r ∧ r ≠ "world").
Proof.
  unfold count_parent. case_decide as Hw.
  - split; [by left|]. intros [H|[<- H]]; [done|by destruct H].
  - destruct (decide (parent j = r)) as [<-|Hne].
    + destruct (dict_get counts (parent j)) as [n|] eqn:E;
        rewrite dict_get_set_eq; split; eauto.
    + destruct (dict_get counts (parent j)) as [n|] eqn:E;
        rewrite dict_get_set_ne by done; split; eauto;
        intros [H|[H _]]; done.
Qed.

Lemma count_parents_lookup (js : list (JointModel scalar)) counts r :
  is_Some (dict_get (foldl count_parent counts js) r) ↔
  is_Some (dict_get counts r) ∨ ∃ j, j ∈ js ∧ parent j = r ∧ r ≠ "world".
Proof.
  revert counts. induction js as [|j js IH]; intros counts; simpl.
  - split; [by left|]. intros [H|(j & Hj & _)]; [done|].
    by apply elem_of_nil in Hj.
  - rewrite IH, count_parent_lookup. split.
    + intros [[H|[H1 H2]]|(j' & Hj' & H)]; [by left|right..].
      * exists j. split; [by left|done].
      * exists j'. split; [by right|done].
    + intros [H|(j' & Hj' & H1 & H2)]; [by left; left|].
      apply elem_of_cons in Hj' as [->|Hj']; [by left; right|].
      right. by exists j'.
Qed.

Lemma drop_children_lookup (js : list (JointModel scalar)) counts r :
  dict_get (foldl drop_child counts js) r =
  if decide (r ∈ child <$> js) then None else dict_get counts r.
Proof.
  revert counts. induction js as [|j js IH]; intros counts.
  - rewrite decide_False; [done|]. apply not_elem_of_nil.
  - cbn [foldl]. rewrite IH, fmap_cons. unfold drop_child.
    destruct (decide (r ∈ child <$> js)) as [Hin|Hout].
    + rewrite decide_True; [done|]. by right.
    + rewrite dict_get_del. destruct (decide (child j = r)) as [<-|Hne].
      * rewrite decide_True; [done|]. by left.
      * rewrite decide_False; [done|].
        intros [?|?]%elem_of_cons; congruence.
Qed.

Lemma count_parents_NoDup (js : list (JointModel scalar)) counts :
  NoDup counts.*1 → NoDup (foldl count_parent counts js).*1.
Proof.
  revert counts. induction js as [|j js IH]; intros counts Hnd; [done|].
  cbn [foldl]. apply IH. unfold count_parent. case_decide; [done|].
  destruct (dict_get counts (parent j)); by apply dict_set_NoDup.
Qed.

Lemma drop_children_NoDup (js : list (JointModel scalar)) counts :
  NoDup counts.*1 → NoDup (foldl drop_child counts js).*1.
Proof.
  revert counts. induction js as [|j js IH]; intros counts Hnd; [done|].
  cbn [foldl]. apply IH. by apply dict_del_NoDup.
Qed.

(** The keys of the dictionary of [findroot] are distinct. *)
Lemma findroot_counts_NoDup mdata :
  NoDup (foldl drop_child (foldl count_parent [] (joints mdata))
           (joints mdata)).*1.
Proof. apply drop_children_NoDup, count_parents_NoDup, NoDup_nil_2. Qed.

Lemma insert_desc_Permutation (x : string * nat) l :
  insert_desc x l ≡ₚ x :: l.
Proof.
  induction l as [|y l IH]; simpl; [done|].
  case_decide; [|done]. rewrite IH. apply Permutation_swap.
Qed.

Lemma sorted_desc_Permutation (l : list (string * nat)) :
  sorted_desc l ≡ₚ l.
Proof.
  induction l as [|x l IH]; simpl; [done|].
  by rewrite insert_desc_Permutation, IH.
Qed.

(** The candidates are the parents of joints not attached to ['world']
    that are no joint's child. *)
Lemma findroot_spec mdata r :
  r ∈ findroot mdata ↔
  (∃ j, j ∈ joints mdata ∧ parent j = r ∧ r ≠ "world") ∧
  ¬ is_child mdata r.
Proof.
  unfold findroot, is_child.
  rewrite sorted_desc_Permutation, list_elem_of_fmap.
  split.
  - intros ([r' n] & -> & H).
    apply (dict_elem_of _ _ _ (findroot_counts_NoDup mdata)) in H. simpl.
    rewrite drop_children_lookup in H. case_decide as Hc; [done|].
    split; [|done].
    assert (is_Some (dict_get (foldl count_parent [] (joints mdata)) r'))
      as Hs by eauto.
    apply count_parents_lookup in Hs as [Hs|Hs]; [|done].
    by destruct Hs.
  - intros [Hp Hc].
    assert (is_Some (dict_get (foldl count_parent [] (joints mdata)) r))
      as [n Hn].
    { apply count_parents_lookup. by right. }
    exists (r, n). split; [done|].
    apply (dict_elem_of _ _ _ (findroot_counts_NoDup mdata)).
    rewrite drop_children_lookup. by rewrite decide_False.
Qed.

Lemma findroot_NoDup mdata : NoDup (findroot mdata).
Proof.
  unfold findroot. rewrite sorted_desc_Permutation.
  apply findroot_counts_NoDup.
Qed.

End Findroot.

(** ** Forests *)

Section Forest.
Context {scalar : Type}.
Implicit Types (mdata : BodyModel scalar) (a b c r v : string).

Lemma edge_is_child mdata a b : edge mdata a b → is_child mdata b.
Proof.
  intros (j & Hj & _ & <-). unfold is_child.
  apply list_elem_of_fmap. by exists j.
Qed.

Lemma edge_is_parent mdata a b : edge mdata a b → is_parent mdata a.
Proof.
  intros (j & Hj & <- & _). unfold is_parent.
  apply list_elem_of_fmap. by exists j.
Qed.

Lemma is_child_edge mdata v : is_child mdata v → ∃ a, edge mdata a v.
Proof.
  intros (j & -> & Hj)%list_elem_of_fmap. exists (parent j). by exists j.
Qed.

Lemma is_parent_edge mdata v : is_parent mdata v → ∃ b, edge mdata v b.
Proof.
  intros (j & -> & Hj)%list_elem_of_fmap. exists (child j). by exists j.
Qed.

Lemma tc_flip_edge mdata a b :
  tc (flip (edge mdata)) a b → tc (edge mdata) b a.
Proof.
  induction 1 as [x y H|x y z H _ IH].
  - by apply tc_once.
  - eapply tc_r; [exact IH|exact H].
Qed.

(** A link that is nobody's child is an ancestor of [v] only if it is
    [v] itself or an ancestor of a parent of [v]. *)
Lemma ancestor_step mdata r u v :
  (∀ a b c, edge mdata a c → edge mdata b c → a = b) →
  ¬ is_child mdata r → edge mdata u v →
  rtc (edge mdata) r u ↔ rtc (edge mdata) r v.
Proof.
  intros Huniq Hr Huv. split.
  - intros H. by eapply rtc_r.
  - intros H. apply rtc_inv_r in H as [->|(w & Hrw & Hwv)].
    + exfalso. apply Hr. by eapply edge_is_child.
    + by rewrite (Huniq u w v).
Qed.

Lemma connected_ancestor mdata r u v :
  (∀ a b c, edge mdata a c → edge mdata b c → a = b) →
  ¬ is_child mdata r → connected mdata u v →
  rtc (edge mdata) r u ↔ rtc (edge mdata) r v.
Proof.
  intros Huniq Hr. unfold connected, rtsc.
  induction 1 as [x|x y z [Hxy|Hyx] _ IH]; [done|..].
  - by rewrite <- IH, (ancestor_step mdata r x y).
  - by rewrite <- IH, (ancestor_step mdata r y x).
Qed.

(** Climbing from child to parent either reaches a link without a parent
    or goes on for any number of steps. *)
Lemma climb mdata (n : nat) v :
  (∃ r, rtc (edge mdata) r v ∧ ¬ is_child mdata r) ∨
  (∃ l, walk (flip (edge mdata)) v l ∧ length l = n).
Proof.
  revert v. induction n as [|n IH]; intros v.
  - right. by exists [].
  - destruct (decide (v ∈ child <$> joints mdata)) as [Hc|Hc].
    + apply is_child_edge in Hc as [u Huv].
      destruct (IH u) as [(r & Hr & Hnc)|(l & Hl & Hlen)].
      * left. exists r. split; [by eapply rtc_r|done].
      * right. exists (u :: l). simpl. by rewrite Hlen.
    + left. by exists v.
Qed.

Lemma root_exists mdata v :
  acyclic mdata → ∃ r, rtc (edge mdata) r v ∧ ¬ is_child mdata r.
Proof.
  intros Hacyc.
  destruct (climb mdata (S (length (joints mdata))) v)
    as [H|(l & Hl & Hlen)]; [done|].
  exfalso.
  assert (length l ≤ length (parent <$> joints mdata))%nat as Hle.
  { eapply (walk_bounded (flip (edge mdata))); [|exact Hl|].
    - intros x y Hxy. by eapply edge_is_parent.
    - intros x _ Hx. by apply tc_flip_edge, Hacyc in Hx. }
  rewrite length_fmap in Hle. lia.
Qed.

(** A ranking that grows along every joint excludes cycles. *)
Lemma ranked_acyclic mdata (rank : string → nat) :
  Forall (λ j, rank (parent j) < rank (child j)) (joints mdata) →
  acyclic mdata.
Proof.
  intros Hrank a Ha.
  assert (∀ x y, tc (edge mdata) x y → rank x < rank y) as Hlt.
  { induction 1 as [x y (j & Hj & <- & <-)|x y z (j & Hj & <- & <-) _ IH].
    - by eapply Forall_forall in Hrank.
    - eapply Forall_forall in Hrank; [|exact Hj]. simpl in Hrank. lia. }
  apply Hlt in Ha. lia.
Qed.

Lemma NoDup_child_unique mdata :
  NoDup (child <$> joints mdata) →
  ∀ a b c, edge mdata a c → edge mdata b c → a = b.
Proof.
  intros Hnd a b c (j1 & H1 & <- & <-) (j2 & H2 & <- & Hc).
  apply list_elem_of_lookup in H1 as [i1 H1].
  apply list_elem_of_lookup in H2 as [i2 H2].
  assert (i1 = i2) as ->.
  { eapply NoDup_lookup; [exact Hnd| |].
    - by rewrite list_lookup_fmap, H1.
    - by rewrite list_lookup_fmap, H2, <- Hc. }
  congruence.
Qed.

End Forest.

Section FindrootForest.
Context {scalar : Type}.
Implicit Types (mdata : BodyModel scalar) (r v : string).

(** Every node of a forest has one component root; the root is a
    candidate unless it is ['world'], and no other candidate is connected
    to the node. *)
Lemma component_root_candidate mdata v :
  forest mdata → mentioned mdata v →
  ∃ r, component_root mdata r ∧ connected mdata r v ∧
       (r ∈ findroot mdata ↔ r ≠ "world") ∧
       ∀ r', r' ∈ findroot mdata → connected mdata r' v → r' = r.
Proof.
  intros [Huniq Hacyc] Hv.
  destruct (root_exists mdata v Hacyc) as (r & Hrv & Hnc).
  assert (is_parent mdata r) as Hp.
  { apply rtc_inv in Hrv as [->|(w & Hrw & _)].
    - by destruct Hv.
    - by eapply edge_is_parent. }
  exists r. split_and!; [by split|by apply rtc_rtsc_rl|..].
  - rewrite findroot_spec. split; [by intros [(_ & _ & _ & ?) _]|].
    intros Hw. split; [|done].
    apply list_elem_of_fmap in Hp as (j & -> & Hj). by exists j.
  - intros r' [_ Hnc']%findroot_spec Hconn.
    apply (connected_ancestor mdata r r' v Huniq Hnc) in Hconn.
    apply Hconn, rtc_inv_r in Hrv as [->|(w & _ & Hw)]; [done|].
    exfalso. apply Hnc'. by eapply edge_is_child.
Qed.

End FindrootForest.

(** ** The recursive tree build *)

Section TreeBuild.
Context {scalar : Type}.
Implicit Types (mdata : BodyModel scalar) (self : VRMLWriter scalar).
Implicit Types (j : JointModel scalar) (n : nmodel scalar).
Implicit Types (a b c : string) (depth : nat).

Lemma convertjointtype_Raise (t e : string) :
  convertjointtype t = Raise e → e = "Exception".
Proof.
  unfold convertjointtype. repeat case_decide; congruence.
Qed.

Lemma bind_Ok {A B : Type} (r : result A) (k : A → result B) (b : B) :
  bind r k = Ok b ↔ ∃ x, r = Ok x ∧ k x = Ok b.
Proof.
  destruct r as [x|e]; simpl; split.
  - intros H. by exists x.
  - by intros (? & [= <-] & ?).
  - done.
  - by intros (? & ? & _).
Qed.

Lemma bind_Raise {A B : Type} (r : result A) (k : A → result B) e :
  bind r k = Raise e ↔ r = Raise e ∨ ∃ x, r = Ok x ∧ k x = Raise e.
Proof.
  destruct r as [x|e']; simpl; split.
  - intros H. right. by exists x.
  - intros [?|(? & [= <-] & ?)]; done.
  - intros [= ->]. by left.
  - intros [[= ->]|(? & ? & _)]; done.
Qed.

(** The loop returns exactly when every child joint converts: one node
    per joint, in order. *)
Lemma convertchildren_loop_Ok self recurse cjoints ns :
  convertchildren_loop self recurse cjoints = Ok ns ↔
  Forall2 (λ j n, ∃ jt sub,
             convertjointtype (jointType j) = Ok jt ∧
             recurse (child j) = Ok sub ∧
             n = NModel j jt (_linkmap self !! child j) sub) cjoints ns.
Proof.
  revert ns. induction cjoints as [|j js IH]; intros ns; simpl.
  - split.
    + intros [= <-]. constructor.
    + by intros ->%Forall2_nil_inv_l.
  - split.
    + intros (jt & Hjt & (sub & Hsub & (ch & Hch & [= <-])%bind_Ok)%bind_Ok)
        %bind_Ok.
      constructor; [by exists jt, sub|by apply IH].
    + intros (n & ns' & (jt & sub & Hjt & Hsub & ->) & Hns & ->)
        %Forall2_cons_inv_l.
      apply IH in Hns. rewrite Hjt; simpl. rewrite Hsub; simpl.
      by rewrite Hns.
Qed.

(** The loop raises what the conversion of some child joint raises. *)
Lemma convertchildren_loop_Raise self recurse cjoints e :
  convertchildren_loop self recurse cjoints = Raise e →
  ∃ j, j ∈ cjoints ∧
       (convertjointtype (jointType j) = Raise e ∨
        recurse (child j) = Raise e).
Proof.
  induction cjoints as [|j js IH]; simpl; [done|].
  intros [H|(jt & _ & [H|(sub & _ & [H|(? & _ & ?)]%bind_Raise)]
    %bind_Raise)]%bind_Raise; try done.
  - exists j. split; [by left|by left].
  - exists j. split; [by left|by right].
  - destruct (IH H) as (j' & Hj' & H'). exists j'. split; [by right|done].
Qed.

Lemma findchildren_edge mdata a b :
  edge mdata a b ↔ ∃ j, j ∈ findchildren mdata a ∧ child j = b.
Proof.
  unfold edge, findchildren. split.
  - intros (j & Hj & Hp & Hc). exists j. split; [|done].
    by apply list_elem_of_filter.
  - intros (j & [Hp Hj]%list_elem_of_filter & Hc). by exists j.
Qed.

(** A tree for a link contains a tree, built with a smaller stack, for
    each of its children. *)
Lemma convertchildren_Ok_edge self depth mdata a b ns :
  convertchildren self depth mdata a = Ok ns → edge mdata a b →
  ∃ depth' ns', depth = S depth' ∧
                convertchildren self depth' mdata b = Ok ns'.
Proof.
  destruct depth as [|d]; simpl; [done|].
  intros Hok (j & Hj & <-)%findchildren_edge.
  apply convertchildren_loop_Ok in Hok.
  apply list_elem_of_lookup in Hj as [i Hi].
  destruct (Forall2_lookup_l _ _ _ _ _ Hok Hi)
    as (n & _ & jt & sub & _ & Hsub & _).
  by exists d, sub.
Qed.

Lemma convertchildren_Ok_tc self mdata a b :
  tc (edge mdata) a b → ∀ depth ns,
  convertchildren self depth mdata a = Ok ns →
  ∃ depth' ns', depth' < depth ∧
                convertchildren self depth' mdata b = Ok ns'.
Proof.
  induction 1 as [x y Hxy|x y z Hxy _ IH]; intros depth ns Hok.
  - destruct (convertchildren_Ok_edge _ _ _ _ _ _ Hok Hxy)
      as (d & ns' & -> & H).
    exists d, ns'. split; [lia|done].
  - destruct (convertchildren_Ok_edge _ _ _ _ _ _ Hok Hxy)
      as (d & ns' & -> & H).
    destruct (IH _ _ H) as (d' & ns'' & Hlt & H').
    exists d', ns''. split; [lia|done].
Qed.

(** No stack is deep enough for a link that is its own descendant. *)
Lemma convertchildren_cycle_not_Ok self mdata c :
  tc (edge mdata) c c → ∀ depth ns,
  convertchildren self depth mdata c ≠ Ok ns.
Proof.
  intros Hc depth. induction depth as [depth IH] using lt_wf_ind.
  intros ns Hok.
  destruct (convertchildren_Ok_tc _ _ _ _ Hc _ _ Hok)
    as (d & ns' & Hlt & H).
  by apply (IH d Hlt ns').
Qed.

Lemma convertchildren_cycle_reachable_not_Ok self mdata root :
  cycle_reachable mdata root → ∀ depth ns,
  convertchildren self depth mdata root ≠ Ok ns.
Proof.
  intros (c & Hrc & Hcc) depth ns Hok.
  apply rtc_tc in Hrc as [->|Hrc].
  - by eapply convertchildren_cycle_not_Ok.
  - destruct (convertchildren_Ok_tc _ _ _ _ Hrc _ _ Hok)
      as (d & ns' & _ & H).
    by eapply convertchildren_cycle_not_Ok.
Qed.

(** The only exceptions of the tree build: the stack is used up, or a
    joint type is not supported. *)
Lemma convertchildren_Raise self depth mdata a e :
  convertchildren self depth mdata a = Raise e →
  e = "RuntimeError" ∨ e = "Exception".
Proof.
  revert a. induction depth as [|d IH]; intros a; simpl.
  - intros [= <-]. by left.
  - intros (j & _ & [H|H])%convertchildren_loop_Raise.
    + right. by eapply convertjointtype_Raise.
    + by eapply IH.
Qed.

Lemma convertchildren_Raise_supported self depth mdata a e :
  supported mdata →
  convertchildren self depth mdata a = Raise e → e = "RuntimeError".
Proof.
  intros Hsup. revert a. induction depth as [|d IH]; intros a; simpl.
  - by intros [= <-].
  - intros (j & [_ Hj]%list_elem_of_filter & [H|H])
      %convertchildren_loop_Raise.
    + destruct (Hsup j Hj) as [t Ht]. congruence.
    + by eapply IH.
Qed.

(** A stack used up at depth [depth] means a walk of [depth] joints. *)
Lemma convertchildren_RuntimeError_walk self depth mdata a :
  convertchildren self depth mdata a = Raise "RuntimeError" →
  ∃ l, walk (edge mdata) a l ∧ length l = depth.
Proof.
  revert a. induction depth as [|d IH]; intros a; simpl.
  - intros _. by exists [].
  - intros (j & Hj & [H|H])%convertchildren_loop_Raise.
    + by apply convertjointtype_Raise in H.
    + destruct (IH _ H) as (l & Hl & Hlen).
      exists (child j :: l). simpl. rewrite Hlen. split; [|done].
      split; [|done]. apply findchildren_edge. by exists j.
Qed.

(** Without a reachable cycle and with supported joint types, a stack as
    deep as the joint list is long, plus one, is enough. *)
Lemma convertchildren_terminates self mdata root :
  ¬ cycle_reachable mdata root → supported mdata →
  ∃ ns, convertchildren self (S (length (joints mdata))) mdata root = Ok ns.
Proof.
  intros Hnc Hsup.
  destruct (convertchildren self (S (length (joints mdata))) mdata root)
    as [ns|e] eqn:E; [by exists ns|exfalso].
  pose proof (convertchildren_Raise_supported _ _ _ _ _ Hsup E) as ->.
  apply convertchildren_RuntimeError_walk in E as (l & Hl & Hlen).
  assert (length l ≤ length (child <$> joints mdata))%nat as Hle.
  { eapply (walk_bounded (edge mdata)); [|exact Hl|].
    - intros x y Hxy. by eapply edge_is_child.
    - intros x Hx Hcyc. apply Hnc. exists x. split; [|done].
      by eapply tc_rtc, walk_tc. }
  rewrite length_fmap in Hle. lia.
Qed.

End TreeBuild.

Section TreeNodes.
Context {scalar : Type}.
Implicit Types (mdata : BodyModel scalar) (self : VRMLWriter scalar).
Implicit Types (j : JointModel scalar) (n : nmodel scalar).

Lemma flatten_self n : n ∈ flatten n.
Proof. destruct n. by left. Qed.

Lemma flatten_all_elem (ns : list (nmodel scalar)) n n' :
  n ∈ ns → n' ∈ flatten n → n' ∈ flatten_all ns.
Proof.
  intros Hn Hn'. unfold flatten_all. apply list_elem_of_join.
  exists (flatten n). split; [done|]. apply list_elem_of_fmap. by exists n.
Qed.

Lemma flatten_children n n' :
  n' ∈ flatten_all (nm_children n) → n' ∈ flatten n.
Proof. destruct n as [j t l cs]. simpl. by right. Qed.

(** Every joint below the link has its node in the tree, with the link
    record the link map has for the child, or none. *)
Lemma convertchildren_nodes self mdata a j :
  j ∈ joints mdata → rtc (edge mdata) a (parent j) →
  ∀ depth ns, convertchildren self depth mdata a = Ok ns →
  ∃ n, n ∈ flatten_all ns ∧ nm_joint n = j ∧
       nm_link n = _linkmap self !! child j.
Proof.
  intros Hj Hreach. revert a Hreach.
  apply (rtc_ind_l (λ a, ∀ depth ns,
           convertchildren self depth mdata a = Ok ns →
           ∃ n, n ∈ flatten_all ns ∧ nm_joint n = j ∧
                nm_link n = _linkmap self !! child j));
    [|intros x y Hxy _ IH]; intros [|d] ns Hok; simpl in Hok; try done;
    apply convertchildren_loop_Ok in Hok.
  - assert (j ∈ findchildren mdata (parent j)) as [i Hi]%list_elem_of_lookup
      by by apply list_elem_of_filter.
    destruct (Forall2_lookup_l _ _ _ _ _ Hok Hi)
      as (n & Hn & jt & sub & _ & _ & ->).
    exists (NModel j jt (_linkmap self !! child j) sub). split; [|done].
    eapply flatten_all_elem; [|apply flatten_self].
    by eapply list_elem_of_lookup_2.
  - apply findchildren_edge in Hxy as (j0 & [i Hi]%list_elem_of_lookup & <-).
    destruct (Forall2_lookup_l _ _ _ _ _ Hok Hi)
      as (n0 & Hn0 & jt & sub & _ & Hsub & ->).
    destruct (IH _ _ Hsub) as (n & Hn & Hnj & Hnl).
    exists n. split; [|done].
    eapply flatten_all_elem; [by eapply list_elem_of_lookup_2|].
    by apply flatten_children.
Qed.

Lemma register_links_lookup self mdata (k : string) :
  k ∉ link_name <$> links mdata →
  _linkmap (register_links self mdata) !! k = _linkmap self !! k.
Proof.
  unfold register_links. simpl. generalize (_linkmap self).
  induction (links mdata) as [|l ls IH]; intros lm Hk; simpl; [done|].
  rewrite IH.
  - apply lookup_insert_ne. intros Heq. apply Hk. rewrite <- Heq. by left.
  - intros H. apply Hk. by right.
Qed.

Lemma edge_lookup mdata (i : nat) j :
  joints mdata !! i = Some j → edge mdata (parent j) (child j).
Proof. intros H. exists j. split; [|done]. by eapply list_elem_of_lookup_2. Qed.

End TreeNodes.

(** ** Facts about the concrete bodies *)

Lemma body_cycle_reachable : cycle_reachable body_cycle "R".
Proof.
  exists "A". split.
  - apply rtc_once. by apply (edge_lookup body_cycle 0 (mkjoint "R" "A")).
  - eapply tc_l; [by apply (edge_lookup body_cycle 1 (mkjoint "A" "B"))|].
    eapply tc_l; [by apply (edge_lookup body_cycle 2 (mkjoint "B" "C"))|].
    apply tc_once. by apply (edge_lookup body_cycle 3 (mkjoint "C" "A")).
Qed.

Lemma mkjoint_supported (body : BodyModel Z) :
  Forall (λ j, jointType j = J_REVOLUTE) (joints body) → supported body.
Proof.
  intros Hall j Hj. eapply Forall_forall in Hall; [|exact Hj].
  exists "rotate". by rewrite Hall.
Qed.

Lemma body_cycle_supported : supported body_cycle.
Proof. apply mkjoint_supported. by repeat constructor. Qed.

Lemma ranked_forest (body : BodyModel Z) (names : list string) :
  NoDup (child <$> joints body) →
  Forall (λ j, rank_of names (parent j) < rank_of names (child j))
    (joints body) →
  forest body.
Proof.
  intros Hnd Hrank. split.
  - by apply NoDup_child_unique.
  - by eapply ranked_acyclic.
Qed.

Lemma body_world_forest : forest body_world.
Proof.
  apply (ranked_forest _ ["world"; "A"; "B"]);
    apply (bool_decide_unpack _); by vm_compute.
Qed.

Lemma body_trees_forest : forest body_trees.
Proof.
  apply (ranked_forest _ ["R"; "A"; "B"; "C"; "X"; "Y"]);
    apply (bool_decide_unpack _); by vm_compute.
Qed.

Lemma body_missing_acyclic : ¬ cycle_reachable body_missing "A".
Proof.
  intros (c & _ & Hc).
  eapply (ranked_acyclic body_missing (rank_of ["A"; "B"; "C"])); [|exact Hc].
  apply (bool_decide_unpack _). by vm_compute.
Qed.

Lemma body_missing_supported : supported body_missing.
Proof. apply mkjoint_supported. by repeat constructor. Qed.

(** ** The claims about the kinematic tree *)

(** C1, as amended: when a joint cycle is reachable from the root link, the
    recursive tree build has no visited set and never returns a tree.  For
    every bound on the depth of the stack it fails, either because the stack
    is used up ([RuntimeError]) or because it met a joint type it does not
    support ([Exception]); with supported joint types only it always uses up
    the stack.  It does not raise a cycle error. *)
Theorem convertchildren_cycle_exhausts_stack {scalar : Type}
    (self : VRMLWriter scalar) (mdata : BodyModel scalar) (root : string)
    (depth : nat) :
  cycle_reachable mdata root →
  (convertchildren self depth mdata root = Raise "RuntimeError" ∨
   convertchildren self depth mdata root = Raise "Exception") ∧
  (supported mdata →
   convertchildren self depth mdata root = Raise "RuntimeError").
Proof.
  intros Hcyc.
  destruct (convertchildren self depth mdata root) as [ns|e] eqn:E.
  - by apply convertchildren_cycle_reachable_not_Ok in E.
  - split.
    + destruct (convertchildren_Raise _ _ _ _ _ E) as [->| ->]; auto.
    + intros Hsup. by rewrite (convertchildren_Raise_supported _ _ _ _ _ Hsup E).
Qed.

(** The cycle below [R] in [body_cycle] uses up a stack of depth 40. *)
Lemma convertchildren_cycle_exhausts_stack_witness :
  cycle_reachable body_cycle "R" ∧ supported body_cycle ∧
  convertchildren (register_links VRMLWriter_init body_cycle) 40 body_cycle
    "R" = Raise "RuntimeError".
Proof.
  split; [exact body_cycle_reachable|]. split; [exact body_cycle_supported|].
  apply (convertchildren_cycle_exhausts_stack _ body_cycle "R" 40
           body_cycle_reachable).
  exact body_cycle_supported.
Defined.

(** C1, as stated, fails: [R] is the root that root detection chooses for
    [body_cycle], the cycle [A], [B], [C] is reachable from it, and whatever
    the depth of the stack the tree build uses it up; it never raises
    [CycleDetectedError]. *)
Lemma convertchildren_cycle_not_detected :
  findroot body_cycle = ["R"] ∧ cycle_reachable body_cycle "R" ∧
  (∀ depth, convertchildren (register_links VRMLWriter_init body_cycle) depth
              body_cycle "R" = Raise "RuntimeError") ∧
  ¬ ∃ depth, convertchildren (register_links VRMLWriter_init body_cycle) depth
               body_cycle "R" = Raise "CycleDetectedError".
Proof.
  assert (∀ depth, convertchildren (register_links VRMLWriter_init body_cycle)
                     depth body_cycle "R" = Raise "RuntimeError") as Hall.
  { intros depth.
    destruct (convertchildren _ depth body_cycle "R") as [ns|e] eqn:E.
    - by apply (convertchildren_cycle_reachable_not_Ok _ _ _
                  body_cycle_reachable) in E.
    - by rewrite (convertchildren_Raise_supported _ _ _ _ _
                    body_cycle_supported E). }
  split; [by vm_compute|]. split; [exact body_cycle_reachable|].
  split; [exact Hall|]. intros [depth H]. by rewrite Hall in H.
Qed.

(** X24: what root detection returns.  The candidates are distinct, and
    each is the parent of some joint, the child of none, and not named
    ['world'].  In a forest every link some joint mentions is connected to
    exactly one component root; that root is a candidate exactly when it is
    not named ['world'], and no other candidate is connected to the link.
    So a forest without joints attached to ['world'] has exactly one
    candidate per connected component. *)
Theorem findroot_forest_roots {scalar : Type} (mdata : BodyModel scalar) :
  NoDup (findroot mdata) ∧
  (∀ r, r ∈ findroot mdata → component_root mdata r ∧ r ≠ "world") ∧
  (forest mdata →
   (∀ v, mentioned mdata v →
      ∃ r, component_root mdata r ∧ connected mdata r v ∧
           (r ∈ findroot mdata ↔ r ≠ "world") ∧
           ∀ r', r' ∈ findroot mdata → connected mdata r' v → r' = r) ∧
   ((∀ j, j ∈ joints mdata → parent j ≠ "world") →
    one_root_per_component mdata)).
Proof.
  split_and!.
  - apply findroot_NoDup.
  - intros r [(j & Hj & Hp & Hw) Hnc]%findroot_spec. split; [|done].
    split; [|done]. apply list_elem_of_fmap. by exists j.
  - intros Hforest. split.
    + intros v Hv. by apply component_root_candidate.
    + intros Hworld v Hv.
      destruct (component_root_candidate mdata v Hforest Hv)
        as (r & [Hp _] & Hconn & Hin & Huniq).
      exists r. split_and!; [|done..]. apply Hin. intros ->.
      apply list_elem_of_fmap in Hp as (j & Hj & Hjin). by apply (Hworld j).
Qed.

(** The two trees of [body_trees] have the candidates [R] and [X]. *)
Lemma findroot_forest_roots_witness :
  forest body_trees ∧ findroot body_trees = ["R"; "X"] ∧
  (∀ j, j ∈ joints body_trees → parent j ≠ "world") ∧
  one_root_per_component body_trees.
Proof.
  assert (∀ j, j ∈ joints body_trees → parent j ≠ "world") as Hworld.
  { apply (Forall_forall (λ j : JointModel Z, parent j ≠ "world")).
    by repeat constructor. }
  split; [exact body_trees_forest|]. split; [by vm_compute|].
  split; [exact Hworld|].
  destruct (findroot_forest_roots body_trees) as (_ & _ & H).
  destruct (H body_trees_forest) as [_ H'].
  exact (H' Hworld).
Defined.

(** C2: the joints world→A, A→B form a forest with one component, whose
    root, the one link that is a parent and no joint's child, is ['world'].
    Root detection skips the joints attached to ['world'] when it counts
    the parents and still removes their children, so it returns no
    candidate for this component, where the claim, and the docstring of
    [findroot], expect one. *)
Theorem findroot_world_component_no_root :
  forest body_world ∧ mentioned body_world "A" ∧
  component_root body_world "world" ∧ connected body_world "world" "A" ∧
  findroot body_world = [] ∧
  ¬ one_root_per_component body_world.
Proof.
  assert (mentioned body_world "A") as HA.
  { left. unfold is_parent. apply (bool_decide_unpack _); by vm_compute. }
  assert (findroot body_world = []) as Hnil by by vm_compute.
  split; [exact body_world_forest|]. split; [exact HA|].
  split.
  { split.
    - unfold is_parent. apply (bool_decide_unpack _); by vm_compute.
    - unfold is_child. apply (bool_decide_unpack _); by vm_compute. }
  split.
  { apply rtc_once. left.
    by apply (edge_lookup body_world 0 (mkjoint "world" "A")). }
  split; [exact Hnil|].
  intros H. destruct (H "A" HA) as (r & Hr & _).
  rewrite Hnil in Hr. by apply elem_of_nil in Hr.
Qed.

(** C3, as amended: [write] takes no default root name.  When root detection
    yields no candidate the root is named ['waist'], the root node carries
    the first link of the link list and a synthesized joint named ['waist']
    of type ["fixed"], and its children are the tree built from ['waist'];
    an exception of that tree build is the exception of [write]. *)
Theorem write_root_fallback {scalar : Type} (JointModel_new : JointModel scalar)
    (self : VRMLWriter scalar) (depth : nat) (mdata : BodyModel scalar)
    (rootlink : LinkModel scalar) (rest : list (LinkModel scalar)) :
  findroot mdata = [] → links mdata = rootlink :: rest →
  let self' := set_roots (register_links self mdata) [] in
  let rootjoint := rootjoint_of JointModel_new "waist" in
  joint_name rootjoint = "waist" ∧ jointType rootjoint = "fixed" ∧
  convertjointtype J_FIXED = Ok (jointType rootjoint) ∧
  select_root JointModel_new self' mdata = Ok ("waist", rootlink, rootjoint) ∧
  (∀ children, convertchildren self' depth mdata "waist" = Ok children →
     ∃ r, write JointModel_new self depth mdata = Ok r ∧ r_root r = "waist" ∧
          r_model r = [NModel rootjoint "fixed" (Some rootlink) children]) ∧
  (∀ e, convertchildren self' depth mdata "waist" = Raise e →
        write JointModel_new self depth mdata = Raise e) ∧
  (¬ is_parent mdata "waist" → 0 < depth →
   ∃ r, write JointModel_new self depth mdata = Ok r ∧ r_root r = "waist" ∧
        r_model r = [NModel rootjoint "fixed" (Some rootlink) []]).
Proof.
  intros Hroots Hlinks self' rootjoint.
  assert (select_root JointModel_new self' mdata
          = Ok ("waist", rootlink, rootjoint)) as Hsel.
  { unfold select_root. simpl. by rewrite Hlinks. }
  assert (∀ children, convertchildren self' depth mdata "waist" = Ok children →
     ∃ r, write JointModel_new self depth mdata = Ok r ∧ r_root r = "waist" ∧
          r_model r = [NModel rootjoint "fixed" (Some rootlink) children])
    as Hok.
  { intros children Hch. unfold write. rewrite Hroots.
    fold self'. rewrite Hsel. simpl. fold self'. rewrite Hch. simpl.
    eexists. by split_and!. }
  split_and!; try done.
  - intros e He. unfold write. rewrite Hroots. fold self'. rewrite Hsel.
    simpl. fold self'. by rewrite He.
  - intros Hnp Hdepth. apply Hok. destruct depth as [|d]; [lia|]. simpl.
    destruct (findchildren mdata "waist") as [|j0 l] eqn:E; [done|].
    exfalso.
    assert (j0 ∈ findchildren mdata "waist") as [Hp Hj]%list_elem_of_filter
      by (rewrite E; by left).
    apply Hnp, list_elem_of_fmap. by exists j0.
Qed.

(** [body_ab] has no candidate root; its tree is the root node alone. *)
Lemma write_root_fallback_witness :
  findroot body_ab = [] ∧ links body_ab = [mklink "A"; mklink "B"] ∧
  ∃ r, write JointModel0 VRMLWriter_init 3 body_ab = Ok r ∧
       r_root r = "waist" ∧
       r_model r = [NModel (rootjoint_of JointModel0 "waist") "fixed"
                      (Some (mklink "A")) []].
Proof.
  split; [by vm_compute|]. split; [done|].
  apply (write_root_fallback JointModel0 VRMLWriter_init 3 body_ab
           (mklink "A") [mklink "B"]); [by vm_compute|done| |lia].
  unfold is_parent. apply (bool_decide_unpack _); by vm_compute.
Defined.

(** C3, as stated, fails: for the joints A→B, B→A root detection yields no
    candidate, and nothing the caller passes names the root: the root node
    carries the link ["A"] and a joint named ["waist"], not ["base"]. *)
Lemma write_root_name_not_supplied :
  findroot body_ab = [] ∧
  ∃ r n, write JointModel0 VRMLWriter_init 3 body_ab = Ok r ∧
         r_model r = [n] ∧ r_root r = "waist" ∧ r_root r ≠ "base" ∧
         joint_name (nm_joint n) = "waist" ∧
         (link_name <$> nm_link n) = Some "A" ∧
         (link_name <$> nm_link n) ≠ Some "base" ∧
         nm_jointtype n = "fixed".
Proof.
  split; [by vm_compute|].
  destruct (write JointModel0 VRMLWriter_init 3 body_ab) as [r|e] eqn:E;
    vm_compute in E; [|discriminate E].
  injection E as <-. eexists _, _. by split_and!.
Qed.

(** C5, as amended: a joint whose child is not in the link list raises
    nothing.  The [KeyError] of the link lookup is caught, and the writer
    never empties its link map: the node of such a joint carries the link
    record that an earlier [write] left under the name of the child, and no
    link record when the writer holds none under that name.  If no cycle is
    reachable from the root and the joint types are supported, the tree
    build returns, and every joint below the root has its node. *)
Theorem convertchildren_missing_link {scalar : Type}
    (self : VRMLWriter scalar) (mdata : BodyModel scalar) (root : string)
    (j : JointModel scalar) :
  j ∈ joints mdata → child j ∉ (link_name <$> links mdata) →
  rtc (edge mdata) root (parent j) →
  ¬ cycle_reachable mdata root → supported mdata →
  ∃ ns, convertchildren (register_links self mdata)
          (S (length (joints mdata))) mdata root = Ok ns ∧
        (∃ n, n ∈ flatten_all ns ∧ nm_joint n = j ∧
              nm_link n = _linkmap self !! child j) ∧
        ∀ j', j' ∈ joints mdata → rtc (edge mdata) root (parent j') →
              ∃ n', n' ∈ flatten_all ns ∧ nm_joint n' = j'.
Proof.
  intros Hj Hmissing Hreach Hnc Hsup.
  destruct (convertchildren_terminates (register_links self mdata)
              mdata root Hnc Hsup) as [ns Hns].
  exists ns. split_and!; [done|..].
  - destruct (convertchildren_nodes _ _ _ _ Hj Hreach _ _ Hns)
      as (n & Hn & Hnj & Hnl).
    exists n. split_and!; [done..|].
    by rewrite Hnl, register_links_lookup.
  - intros j' Hj' Hreach'.
    destruct (convertchildren_nodes _ _ _ _ Hj' Hreach' _ _ Hns)
      as (n & Hn & Hnj & _).
    by exists n.
Qed.

(** The node of the joint A→B of [body_missing] has no link record when the
    writer is new, and the link [B] of [body_cycle] when the writer has
    written that body before. *)
Lemma convertchildren_missing_link_witness :
  (∃ ns n, convertchildren (register_links VRMLWriter_init body_missing) 3
             body_missing "A" = Ok ns ∧
           n ∈ flatten_all ns ∧ nm_joint n = mkjoint "A" "B" ∧
           nm_link n = None) ∧
  (∃ ns n, convertchildren
             (register_links (register_links VRMLWriter_init body_cycle)
                body_missing) 3 body_missing "A" = Ok ns ∧
           n ∈ flatten_all ns ∧ nm_joint n = mkjoint "A" "B" ∧
           nm_link n = Some (mklink "B")).
Proof.
  assert (mkjoint "A" "B" ∈ joints body_missing) as Hj
    by apply list_elem_of_here.
  assert (child (mkjoint "A" "B") ∉ link_name <$> links body_missing) as Hm
    by (apply (bool_decide_unpack _); by vm_compute).
  split.
  - destruct (convertchildren_missing_link VRMLWriter_init body_missing "A"
                (mkjoint "A" "B") Hj Hm (rtc_refl _ _) body_missing_acyclic
                body_missing_supported)
      as (ns & Hns & (n & Hn & Hnj & Hnl) & _).
    by exists ns, n.
  - destruct (convertchildren_missing_link
                (register_links VRMLWriter_init body_cycle) body_missing "A"
                (mkjoint "A" "B") Hj Hm (rtc_refl _ _) body_missing_acyclic
                body_missing_supported)
      as (ns & Hns & (n & Hn & Hnj & Hnl) & _).
    exists ns, n. split_and!; [done..|]. rewrite Hnl. by vm_compute.
Defined.

(** C5, as stated, fails: the link ["B"] is missing from the link list of
    [body_missing], and the tree build returns a tree whose node for the
    joint A→B has no link record and whose subtree holds the joint B→C. *)
Lemma convertchildren_no_StructuralError :
  mkjoint "A" "B" ∈ joints body_missing ∧
  ("B" ∉ link_name <$> links body_missing) ∧
  convertchildren (register_links VRMLWriter_init body_missing) 3
    body_missing "A"
  = Ok [NModel (mkjoint "A" "B") "rotate" None
          [NModel (mkjoint "B" "C") "rotate" (Some (mklink "C")) []]].
Proof.
  split; [apply list_elem_of_here|]. split; [apply (bool_decide_unpack _); by vm_compute|]. by vm_compute.
Qed.

(** ** Arrays *)

Section Arrays.
Context {A : Type}.

Lemma concat_rows (r c : nat) (l : list A) :
  concat (rows r c l) = take (r * c) l.
Proof.
  revert l. induction r as [|r IH]; intros l; simpl; [done|].
  by rewrite IH, take_take_drop.
Qed.

Lemma reshape_Ok_concat (r c : nat) (l : list A) a :
  reshape r c l = Ok a → concat a = l.
Proof.
  unfold reshape. case_decide as Hlen; [|done]. intros [= <-].
  rewrite concat_rows. apply take_ge. lia.
Qed.

Lemma reshape3_Ok_iff (l : list A) :
  (∃ a, reshape3 l = Ok a) ↔ (length l `div` 3 * 3 = length l).
Proof.
  unfold reshape3, reshape. case_decide; split; try done; eauto.
  by intros [? ?].
Qed.

Lemma reshape3_same_length (l l' : list A) a :
  reshape3 l = Ok a → length l' = length l → ∃ a', reshape3 l' = Ok a'.
Proof.
  intros H Hlen. apply reshape3_Ok_iff. rewrite Hlen.
  apply reshape3_Ok_iff. by exists a.
Qed.

Lemma reshape3_triples (l : list A) :
  reshape3 (i ← l; [i; i; i]) = Ok ((λ i, [i; i; i]) <$> l).
Proof.
  assert (length (i ← l; [i; i; i]) = length l * 3) as Hlen.
  { induction l as [|x l IH]; [done|].
    change (S (S (S (length (i ← l; [i; i; i])))) = S (length l) * 3).
    rewrite IH. lia. }
  unfold reshape3, reshape. rewrite Hlen, Nat.div_mul by done.
  rewrite decide_True by done. f_equal.
  clear Hlen. induction l as [|x l IH]; [done|].
  change (rows (S (length l)) 3 ([x; x; x] ++ (i ← l; [i; i; i]))
          = [x; x; x] :: ((λ i, [i; i; i]) <$> l)).
  cbn [rows]. rewrite take_app_length', drop_app_length' by done.
  by rewrite IH.
Qed.

End Arrays.

(** ** The claims about the VRML reader *)

Section ReaderLoops.
Context {scalar : Type} (JointModel_new : JointModel scalar).

Lemma extrajoints_appended (ejs : list (ExtraJointInfo scalar))
    (self self' : VRMLReader scalar) :
  for_each (λ self j, do m <- read_extrajoint JointModel_new j;
                       Ok (append_joint self m)) self ejs = Ok self' →
  ∃ ms, Forall2 (λ ej j, read_extrajoint JointModel_new ej = Ok j) ejs ms ∧
        _joints self' = _joints self ++ ms ∧ _links self' = _links self.
Proof.
  revert self. induction ejs as [|ej ejs IH]; intros self; simpl.
  - intros [= <-]. exists []. split; [constructor|]. by rewrite app_nil_r.
  - intros (st & (m & Hm & [= <-])%bind_Ok & Hrest)%bind_Ok.
    destruct (IH _ Hrest) as (ms & Hms & Hj & Hl).
    exists (m :: ms). split; [by constructor|].
    rewrite Hj, Hl. simpl. by rewrite <- app_assoc.
Qed.

End ReaderLoops.




(** C6, as amended: neither reader compares a triangle index with the
    length of the vertex array.  Where a mesh is read successfully it is
    read successfully with any other index values in their place, in range
    or not, and the indices are stored as they are, neither clamped nor
    truncated. *)
Theorem mesh_indices_not_checked {scalar : Type} :
  (∀ (self : VRMLReader scalar) sdata m t,
     read_mesh self sdata = Ok m → length t = length (triangles sdata) →
     ∃ m', read_mesh self (with_triangles sdata t) = Ok m' ∧
           concat (vertex_index m') = t ∧ vertex m' = vertex m) ∧
  (∀ abspath_join (self : ColladaReader) (p : Primitive scalar) sm idx,
     convert_primitive abspath_join self p = Ok sm →
     ∃ sm', convert_primitive abspath_join self (with_vertex_index p idx)
            = Ok sm' ∧
            vertex_index sm' = idx ∧ vertex sm' = vertex sm).
Proof.
  split.
  - intros self sdata m t Hm Hlen. unfold read_mesh in *.
    apply bind_Ok in Hm as (v & Hv & Hm).
    apply bind_Ok in Hm as (vi & Hvi & Hm).
    apply bind_Ok in Hm as (adata & Hadata & Hm).
    apply bind_Ok in Hm as (n & Hn & Hm).
    apply bind_Ok in Hm as (ni & Hni & Hm).
    apply bind_Ok in Hm as (mat & Hmat & [= <-]).
    destruct (reshape3_same_length _ t _ Hvi Hlen) as [vi' Hvi'].
    simpl. rewrite Hv; simpl. rewrite Hvi'; simpl. rewrite Hadata; simpl.
    rewrite Hn; simpl. rewrite Hni; simpl. rewrite Hmat; simpl.
    eexists. split; [done|]. simpl. split; [|done].
    by eapply reshape_Ok_concat.
  - intros abspath_join self p sm idx Hsm. destruct p as [v vi n ni ts tis mat].
    unfold convert_primitive in *. simpl in *.
    apply bind_Ok in Hsm as ([nrm nidx] & Hn & Hsm). rewrite Hn. simpl.
    apply bind_Ok in Hsm as (uv & Huv & [= <-]). rewrite Huv. simpl.
    eexists. by split_and!.
Qed.

(** The square is read with the index 7 in its second triangle. *)
Lemma mesh_indices_not_checked_witness :
  ∃ m', read_mesh reader_square
          (with_triangles square_shape [0; 1; 2; 0; 2; 7]%Z) = Ok m' ∧
        concat (vertex_index m') = [0; 1; 2; 0; 2; 7]%Z.
Proof.
  destruct (read_mesh reader_square square_shape) as [m|e] eqn:E;
    [|by vm_compute in E].
  destruct (proj1 mesh_indices_not_checked reader_square square_shape m
              [0; 1; 2; 0; 2; 7]%Z E) as (m' & Hm' & Hidx & _).
  - reflexivity.
  - by exists m'.
Defined.

(** C6, as stated, fails: the index 7 is out of range for the four vertices
    of the square and for the three vertices of the triangle, and both
    readers return the mesh with the index in it. *)
Lemma mesh_index_out_of_bounds_accepted :
  (∃ m, read_mesh reader_square
          (with_triangles square_shape [0; 1; 2; 0; 2; 7]%Z) = Ok m ∧
        length (vertex m) = 4 ∧
        vertex_index m = [[0; 1; 2]; [0; 2; 7]]%Z) ∧
  (∃ sm, convert_primitive abspath_join0 reader_wood triangle_primitive
         = Ok sm ∧
         length (vertex sm) = 3 ∧ vertex_index sm = [[0; 1; 7]]%Z).
Proof.
  split.
  - destruct (read_mesh reader_square _) as [m|e] eqn:E;
      vm_compute in E; [|discriminate E].
    injection E as <-. eexists. by split_and!.
  - eexists. by split_and!.
Qed.

Section ReadInvariant.
Context {scalar : Type}.
Context (f0 f1 : scalar) (JointModel_new : JointModel scalar).
Context (quaternion_about_axis : scalar → list scalar → list scalar).

Lemma for_each_preserves {A S B : Type} (f : S → B)
    (body : S → A → result S) (l : list A) (st st' : S) :
  (∀ s x s', x ∈ l → body s x = Ok s' → f s' = f s) →
  for_each body st l = Ok st' → f st' = f st.
Proof.
  revert st. induction l as [|x l IH]; intros st Hbody; simpl.
  - by intros [= <-].
  - intros (s1 & H1 & Hrest)%bind_Ok.
    rewrite (IH s1); [|intros s y s' Hy; apply Hbody; by right|done].
    eapply Hbody; [by left|done].
Qed.

(** [readChild] leaves the list of extra joints alone. *)
Lemma readChild_extrajoints depth (self self' : VRMLReader scalar)
    parent_ child_ :
  readChild f0 f1 JointModel_new quaternion_about_axis depth self
    parent_ child_ = Ok self' →
  _hrpextrajoints self' = _hrpextrajoints self.
Proof.
  revert self self' parent_ child_.
  induction depth as [|d IH]; intros self self' parent_ child_; simpl;
    [done|].
  intros (lm & _ & (jm & _ & Hloop)%bind_Ok)%bind_Ok.
  apply (for_each_preserves _hrpextrajoints) in Hloop; [done|].
  intros s c s' _ (g & _ & Hg)%bind_Ok. by eapply IH.
Qed.

End ReadInvariant.

(** C7, as amended: the reader appends the extra joints of a closed-link
    model to the one joint list of the body, after the joints of the tree;
    [findchildren] returns an extra joint among the children of its first
    link, and a tree built from a link above it has a node for it. *)
Theorem read_extra_joints_are_tree_edges {scalar : Type} (f0 f1 : scalar)
    (JointModel_new : JointModel scalar)
    (quaternion_about_axis : scalar → list scalar → list scalar)
    (depth : nat) (b : BodyInfo scalar) (bm : BodyModel scalar) :
  read f0 f1 JointModel_new quaternion_about_axis depth b = Ok bm →
  ∃ tree_joints extra_joints,
    joints bm = tree_joints ++ extra_joints ∧
    Forall2 (λ ej j, read_extrajoint JointModel_new ej = Ok j)
      (_get_extraJoints b) extra_joints ∧
    ∀ j, j ∈ extra_joints →
      j ∈ findchildren bm (parent j) ∧
      ∀ (self : VRMLWriter scalar) depth' a ns,
        convertchildren self depth' bm a = Ok ns →
        rtc (edge bm) a (parent j) →
        ∃ n, n ∈ flatten_all ns ∧ nm_joint n = j.
Proof.
  unfold read. simpl.
  intros (root & _ & (lm & _ & (self1 & Hself1 & (self2 & Hself2 & [= <-])
    %bind_Ok)%bind_Ok)%bind_Ok)%bind_Ok.
  assert (_hrpextrajoints self1 = _get_extraJoints b) as Hextra.
  { apply (for_each_preserves _hrpextrajoints) in Hself1; [done|].
    intros s c s' _ (g & _ & Hg)%bind_Ok.
    by eapply readChild_extrajoints. }
  rewrite Hextra in Hself2.
  apply extrajoints_appended in Hself2 as (ms & Hms & Hjoints & _).
  exists (_joints self1), ms. simpl. split_and!; [done..|].
  intros j Hj.
  assert (j ∈ _joints self2) as Hin.
  { rewrite Hjoints. apply elem_of_app. by right. }
  split.
  - by apply list_elem_of_filter.
  - intros self depth' a ns Hns Hreach.
    destruct (convertchildren_nodes self
                {| body_name := None; links := _links self2;
                   joints := _joints self2 |} a j Hin Hreach _ _ Hns)
      as (n & Hn & Hnj & _).
    by exists n.
Qed.

(** The extra joint of the closed-link sample is a child joint of [L2]. *)
Lemma read_extra_joints_are_tree_edges_witness :
  ∃ bm, read 0%Z 1%Z JointModel0 quaternion0 5 closed_link_sample = Ok bm ∧
        ∃ tree_joints, joints bm = tree_joints ++ [loop_joint] ∧
                       loop_joint ∈ findchildren bm "L2".
Proof.
  destruct (read 0%Z 1%Z JointModel0 quaternion0 5 closed_link_sample)
    as [bm|e] eqn:E; [|by vm_compute in E].
  destruct (read_extra_joints_are_tree_edges _ _ _ _ _ _ _ E)
    as (tj & ej & Hj & Hej & Hfind).
  apply Forall2_cons_inv_l in Hej as (j & ms & Hjm & ->%Forall2_nil_inv_l & ->).
  vm_compute in Hjm. injection Hjm as <-.
  exists bm. split; [done|]. exists tj. split; [done|].
  apply (Hfind loop_joint). by left.
Defined.

(** C7, as stated, fails: the body read from the closed-link sample has
    the extra joint in its joint list, and [findchildren] returns it as the
    child joint of [L2]. *)
Lemma read_extra_joint_not_separate :
  ∃ bm, read 0%Z 1%Z JointModel0 quaternion0 5 closed_link_sample = Ok bm ∧
        joints bm !! 2 = Some loop_joint ∧
        findchildren bm "L2" = [loop_joint].
Proof.
  destruct (read 0%Z 1%Z JointModel0 quaternion0 5 closed_link_sample)
    as [bm|e] eqn:E; vm_compute in E; [|discriminate E].
  injection E as <-. eexists. split; [done|]. split; by vm_compute.
Qed.

(** ** The claims about the COLLADA reader and writer *)

Section ColladaProperties.
Context {scalar : Type}.
Context (abspath_join : option string → string → string).
Context (nonzero : scalar → bool) (uuid1 : nat → string).

Lemma for_each_collect {A B C : Type} (f : A → result B) (g : B → C)
    (l : list A) (bs : list B) (acc : list C) :
  Forall2 (λ x b, f x = Ok b) l bs →
  for_each (λ cs x, do b <- f x; Ok (cs ++ [g b])) acc l
  = Ok (acc ++ (g <$> bs)).
Proof.
  intros H. revert acc. induction H as [|x b l bs Hx _ IH]; intros acc; simpl.
  - by rewrite app_nil_r.
  - rewrite Hx. simpl. rewrite IH. by rewrite <- app_assoc.
Qed.

Lemma getitem_0 {A : Type} (l : list A) :
  l ≠ [] → ∃ x, getitem l 0 = Ok x.
Proof. destruct l as [|x l]; [done|]. intros _. by exists x. Qed.

(** A primitive whose texture coordinate sets come with their index sets
    converts, and a material id that is not in the table leaves the image
    unassigned. *)
Lemma convert_primitive_Ok (self : ColladaReader) (p : Primitive scalar) a :
  p_normal p = Some a →
  (texcoordset p ≠ [] → texcoord_indexset p ≠ []) →
  ∃ sm, convert_primitive abspath_join self p = Ok sm ∧
        vertex sm = p_vertex p ∧ vertex_index sm = p_vertex_index p ∧
        normal sm = (if decide (0 < size_of a) then Some a else None) ∧
        image sm = match cr_materials self !! p_material p with
                   | Some mat =>
                     resolve_image abspath_join self (effect_params mat) None
                   | None => None
                   end.
Proof.
  intros Ha Hwf. unfold convert_primitive. rewrite Ha.
  destruct (decide (0 < size_of a));
    (destruct (decide (0 < length (texcoordset p))) as [Hlen|Hlen];
     [assert (texcoordset p ≠ []) as Hne
        by (intros Heq; rewrite Heq in Hlen; simpl in Hlen; lia);
      destruct (getitem_0 _ Hne) as [uv ->];
      destruct (getitem_0 _ (Hwf Hne)) as [uvi ->]|]);
    simpl; eexists; (split; [reflexivity|]); simpl; by split_and!.
Qed.

Lemma convert_primitive_no_normal (self : ColladaReader)
    (p : Primitive scalar) :
  p_normal p = None →
  convert_primitive abspath_join self p = Raise "AttributeError".
Proof. intros Hn. unfold convert_primitive. by rewrite Hn. Qed.

Lemma normal_truth_true (m : MeshData scalar) :
  normal_truth nonzero m = Ok true →
  ∃ a x, normal m = Some a ∧ concat a = [x] ∧ nonzero x = true.
Proof.
  unfold normal_truth, array_bool. destruct (normal m) as [a|]; [|done].
  destruct (concat a) as [|x [|y l]] eqn:Ea; try done.
  intros [= Hx]. by exists a, x.
Qed.

Lemma normal_truth_large (m : MeshData scalar) a :
  normal m = Some a → 1 < size_of a →
  normal_truth nonzero m = Raise "ValueError".
Proof.
  unfold normal_truth, array_bool, size_of. intros -> Hsize.
  destruct (concat a) as [|x [|y l]]; simpl in Hsize; [lia..|done].
Qed.

(** A source raises nothing but [ValueError], and it does so for an array
    of a single element. *)
Lemma FloatSource_new_Raise id (data_ : list (list scalar)) comps e :
  FloatSource_new id data_ comps = Raise e → e = "ValueError".
Proof. unfold FloatSource_new. case_decide; [done|]. by intros [= <-]. Qed.

Lemma FloatSource_new_single id (a : list (list scalar)) x :
  concat a = [x] →
  FloatSource_new id (reshape_row a) ["X"; "Y"; "Z"] = Raise "ValueError".
Proof.
  intros Hx. unfold FloatSource_new, reshape_row. cbn [concat].
  rewrite app_nil_r, Hx. case_decide as H; [|done].
  destruct H as [_ H]. by vm_compute in H.
Qed.

Lemma convert_mesh_large_normal (self : ColladaWriter scalar)
    (m : MeshData scalar) (a : list (list scalar)) :
  normal m = Some a → 1 < size_of a →
  convert_mesh nonzero uuid1 self m = Raise "ValueError".
Proof.
  intros Ha Hsize. unfold convert_mesh. simpl.
  destruct (FloatSource_new _ _ _) as [v|e] eqn:Ev; simpl.
  - by rewrite (normal_truth_large m a Ha Hsize).
  - by rewrite (FloatSource_new_Raise _ _ _ _ Ev).
Qed.

End ColladaProperties.

(** What the merging branch computes once it runs: the position indices
    and the normal indices, one pair per triangle corner. *)
Lemma index_stream_pairs (vi ni : list Z) :
  length vi = length ni →
  vstack [vi] [ni] = Ok [vi; ni] ∧
  index_stream [vi; ni] = [concat (zip_with (λ v n, [v; n]) vi ni)].
Proof.
  intros Hlen. split.
  - unfold vstack. simpl. rewrite decide_True; [done|].
    constructor; [done|constructor].
  - unfold index_stream, reshape_row, transpose. do 2 f_equal.
    apply list_eq. intros i.
    rewrite list_lookup_fmap, lookup_zip_with.
    destruct (decide (i < length vi)) as [Hi|Hi].
    + rewrite lookup_seq_lt by done. simpl.
      destruct (lookup_lt_is_Some_2 vi i Hi) as [v Hv].
      destruct (lookup_lt_is_Some_2 ni i ltac:(lia)) as [n Hn].
      unfold column. simpl. by rewrite Hv, Hn.
    + rewrite lookup_seq_ge by lia. simpl.
      by rewrite (lookup_ge_None_2 vi i) by lia.
Qed.

(** C8: the writer does not get to the combined index stream for a mesh
    with a normal buffer.  For the triangle with one normal of three
    components the test [if m.normal:] raises [ValueError], and a normal
    array of a single element, which passes the test, is refused as a
    source of X, Y, Z rows; so the branch never gets to the index rows it
    would stack and transpose into one (position index, normal index) pair
    per corner. *)
Theorem convert_mesh_normal_buffer_raises :
  convert_mesh nonzeroZ uuid0 writer0 mesh_triangle = Raise "ValueError" ∧
  ColladaWriter_convertchild nonzeroZ uuid0 writer0 (OfMeshData mesh_triangle)
  = Raise "ValueError" ∧
  convert_mesh nonzeroZ uuid0 writer0 mesh_single = Raise "ValueError" ∧
  vstack (reshape_row [[0; 1; 2]]%Z) (reshape_row [[0; 0; 0]]%Z)
  = Ok [[0; 1; 2]; [0; 0; 0]]%Z ∧
  index_stream [[0; 1; 2]; [0; 0; 0]]%Z = [[0; 0; 1; 0; 2; 0]]%Z.
Proof.
  split; [by vm_compute|]. split; [by vm_compute|]. split; [by vm_compute|].
  by destruct (index_stream_pairs [0; 1; 2]%Z [0; 0; 0]%Z eq_refl).
Qed.

(** C9: a material id that is not in the materials table raises nothing:
    a geometry node whose primitives have normals, and an index set for
    their texture coordinates, converts to a transform node with one mesh
    per primitive, and the mesh of a primitive with an unknown material id
    has no image.  But the test [p.normal.size > 0] raises
    [AttributeError] for a primitive without normals, before the material
    is looked up: a geometry node that starts with such a primitive is not
    converted, whatever its material. *)
Theorem convertchild_material_miss {scalar : Type}
    (abspath_join : option string → string → string)
    (self : ColladaReader) (prims : list (Primitive scalar)) :
  ((∀ p, p ∈ prims → is_Some (p_normal p) ∧
                     (texcoordset p ≠ [] → texcoord_indexset p ≠ [])) →
   ∃ sms,
     ColladaReader_convertchild abspath_join self (GeometryNode prims)
     = Ok (MeshTransformData None (OfMeshData <$> sms)) ∧
     Forall2 (λ p sm,
                convert_primitive abspath_join self p = Ok sm ∧
                (cr_materials self !! p_material p = None →
                 image sm = None)) prims sms) ∧
  (∀ p rest, prims = p :: rest → p_normal p = None →
     ColladaReader_convertchild abspath_join self (GeometryNode prims)
     = Raise "AttributeError").
Proof.
  split.
  - intros Hwf.
    assert (∃ sms, Forall2 (λ p sm,
                 convert_primitive abspath_join self p = Ok sm ∧
                 (cr_materials self !! p_material p = None →
                  image sm = None)) prims sms) as [sms Hsms].
    { induction prims as [|p ps IH].
      - exists []. constructor.
      - destruct IH as [sms Hsms].
        { intros q Hq. apply Hwf. by right. }
        destruct (Hwf p) as [[a Ha] Htex]; [by left|].
        destruct (convert_primitive_Ok abspath_join self p a Ha Htex)
          as (sm & Hsm & _ & _ & _ & Himg).
        exists (sm :: sms). constructor; [|done]. split; [done|].
        intros Hmiss. by rewrite Himg, Hmiss. }
    exists sms. split; [|done]. simpl.
    rewrite (for_each_collect (convert_primitive abspath_join self) OfMeshData
               prims sms []); [done|].
    eapply Forall2_impl; [exact Hsms|]. by intros p sm [? _].
  - intros p rest -> Hn. simpl.
    by rewrite (convert_primitive_no_normal abspath_join self p Hn).
Qed.

(** The material [steel] is not in the table of [reader_wood]: the
    triangle with a normal converts to a mesh without an image, and the
    same triangle without normals is not converted. *)
Lemma convertchild_material_miss_witness :
  cr_materials reader_wood !! p_material steel_primitive = None ∧
  (∃ sm, ColladaReader_convertchild abspath_join0 reader_wood
           (GeometryNode [steel_primitive])
         = Ok (MeshTransformData None [OfMeshData sm]) ∧
         image sm = None) ∧
  cr_materials reader_wood !! p_material bare_primitive = None ∧
  ColladaReader_convertchild abspath_join0 reader_wood
    (GeometryNode [bare_primitive]) = Raise "AttributeError".
Proof.
  assert (cr_materials reader_wood !! p_material steel_primitive = None)
    as Hmiss by by vm_compute.
  split; [exact Hmiss|]. split; [|split; [by vm_compute|]].
  - destruct (proj1 (convertchild_material_miss abspath_join0 reader_wood
                       [steel_primitive])) as (sms & Hconv & Hsms).
    + intros p ->%list_elem_of_singleton. split; [by eexists|].
      intros Hne. by destruct Hne.
    + apply Forall2_cons_inv_l in Hsms
        as (sm & rest & [_ Himg] & ->%Forall2_nil_inv_l & ->).
      exists sm. split; [exact Hconv|]. by apply Himg.
  - by apply (proj2 (convertchild_material_miss abspath_join0 reader_wood
                       [bare_primitive]) bare_primitive []).
Defined.

(** C10: the writer tests the normal array itself.  A normal array of more
    than one element makes the conversion of the mesh raise [ValueError];
    the branch that merges the normals runs only for a normal array of
    exactly one element, and a mesh converts only if its normal array is
    absent or has at most one element. *)
Theorem convert_mesh_normal_truth {scalar : Type} (nonzero : scalar → bool)
    (uuid1 : nat → string) (self : ColladaWriter scalar)
    (m : MeshData scalar) :
  (∀ a, normal m = Some a → 1 < size_of a →
        convert_mesh nonzero uuid1 self m = Raise "ValueError" ∧
        ColladaWriter_convertchild nonzero uuid1 self (OfMeshData m)
        = Raise "ValueError") ∧
  (normal_truth nonzero m = Ok true →
   ∃ a, normal m = Some a ∧ size_of a = 1) ∧
  (∀ r, convert_mesh nonzero uuid1 self m = Ok r →
        normal m = None ∨ ∃ a, normal m = Some a ∧ (size_of a ≤ 1)%nat).
Proof.
  split_and!.
  - intros a Ha Hsize.
    assert (convert_mesh nonzero uuid1 self m = Raise "ValueError") as H
      by by apply (convert_mesh_large_normal nonzero uuid1 self m a).
    split; [done|]. simpl. by rewrite H.
  - intros (a & x & Ha & Hx & _)%normal_truth_true.
    exists a. split; [done|]. unfold size_of. by rewrite Hx.
  - intros r Hr. destruct (normal m) as [a|] eqn:Ha; [right|by left].
    exists a. split; [done|].
    destruct (decide (size_of a ≤ 1)%nat) as [|Hbig]; [done|].
    assert (convert_mesh nonzero uuid1 self m = Raise "ValueError") as H
      by (apply (convert_mesh_large_normal nonzero uuid1 self m a); [done|lia]).
    congruence.
Qed.

(** One normal vector has three elements, so the triangle is not written. *)
Lemma convert_mesh_normal_truth_witness :
  normal mesh_triangle = Some [[0; 0; 1]]%Z ∧
  1 < size_of [[0; 0; 1]]%Z ∧
  convert_mesh nonzeroZ uuid0 writer0 mesh_triangle = Raise "ValueError".
Proof.
  split; [done|]. split; [vm_compute; lia|].
  apply (proj1 (convert_mesh_normal_truth nonzeroZ uuid0 writer0
                  mesh_triangle) [[0; 0; 1]]%Z); [done|vm_compute; lia].
Defined.


(** * Further properties *)

(** ** The tree build and the depth of the stack *)

Section TreeBuildDepth.
Context {scalar : Type}.
Implicit Types (mdata : BodyModel scalar) (self : VRMLWriter scalar).
Implicit Types (j : JointModel scalar) (n : nmodel scalar).

Lemma convertchildren_loop_stable self
    (rec1 rec2 : string → result (list (nmodel scalar)))
    (cjoints : list (JointModel scalar)) :
  (∀ j, j ∈ cjoints → rec1 (child j) ≠ Raise "RuntimeError" →
        rec2 (child j) = rec1 (child j)) →
  convertchildren_loop self rec1 cjoints ≠ Raise "RuntimeError" →
  convertchildren_loop self rec2 cjoints
  = convertchildren_loop self rec1 cjoints.
Proof.
  induction cjoints as [|j js IH]; intros Hrec Hne; simpl in *; [done|].
  destruct (convertjointtype (jointType j)) as [jt|e]; simpl in *; [|done].
  assert (rec1 (child j) ≠ Raise "RuntimeError") as Hj.
  { intros Heq. rewrite Heq in Hne. by apply Hne. }
  rewrite (Hrec j) by (done || by left).
  destruct (rec1 (child j)) as [sub|e]; simpl in *; [|done].
  rewrite IH; [done|..].
  - intros j' Hj'. apply Hrec. by right.
  - intros Heq. rewrite Heq in Hne. by apply Hne.
Qed.

Lemma convertchildren_stable self mdata (d d' : nat) (a : string) :
  (d ≤ d')%nat → convertchildren self d mdata a ≠ Raise "RuntimeError" →
  convertchildren self d' mdata a = convertchildren self d mdata a.
Proof.
  revert d' a. induction d as [|d IH]; intros d' a Hle Hne; simpl in *.
  - done.
  - destruct d' as [|d']; [lia|]. simpl.
    apply convertchildren_loop_stable; [|done].
    intros j _ Hj. apply IH; [lia|done].
Qed.

Lemma convertchildren_Raise_supported_from self depth mdata a e :
  supported_from mdata a →
  convertchildren self depth mdata a = Raise e → e = "RuntimeError".
Proof.
  revert a. induction depth as [|d IH]; intros a Hsup; simpl.
  - by intros [= <-].
  - intros (j & [Hp Hj]%list_elem_of_filter & [H|H])
      %convertchildren_loop_Raise.
    + destruct (Hsup j Hj) as [t Ht]; [by rewrite Hp|congruence].
    + eapply (IH (child j)); [|exact H].
      intros j' Hj' Hreach. apply Hsup; [done|].
      eapply rtc_l; [|exact Hreach]. by exists j.
Qed.

(** Every joint below the link has its node, labelled with its converted
    joint type. *)
Lemma convertchildren_nodes_typed self mdata a j :
  j ∈ joints mdata → rtc (edge mdata) a (parent j) →
  ∀ depth ns, convertchildren self depth mdata a = Ok ns →
  ∃ n, n ∈ flatten_all ns ∧ nm_joint n = j ∧
       convertjointtype (jointType j) = Ok (nm_jointtype n).
Proof.
  intros Hj Hreach. revert a Hreach.
  apply (rtc_ind_l (λ a, ∀ depth ns,
           convertchildren self depth mdata a = Ok ns →
           ∃ n, n ∈ flatten_all ns ∧ nm_joint n = j ∧
                convertjointtype (jointType j) = Ok (nm_jointtype n)));
    [|intros x y Hxy _ IH]; intros [|d] ns Hok; simpl in Hok; try done;
    apply convertchildren_loop_Ok in Hok.
  - assert (j ∈ findchildren mdata (parent j)) as [i Hi]%list_elem_of_lookup
      by by apply list_elem_of_filter.
    destruct (Forall2_lookup_l _ _ _ _ _ Hok Hi)
      as (n & Hn & jt & sub & Hjt & _ & ->).
    exists (NModel j jt (_linkmap self !! child j) sub). split; [|done].
    eapply flatten_all_elem; [|apply flatten_self].
    by eapply list_elem_of_lookup_2.
  - apply findchildren_edge in Hxy as (j0 & [i Hi]%list_elem_of_lookup & <-).
    destruct (Forall2_lookup_l _ _ _ _ _ Hok Hi)
      as (n0 & Hn0 & jt & sub & _ & Hsub & ->).
    destruct (IH _ _ Hsub) as (n & Hn & Hnj & Hnl).
    exists n. split; [|done].
    eapply flatten_all_elem; [by eapply list_elem_of_lookup_2|].
    by apply flatten_children.
Qed.

End TreeBuildDepth.

(** X1: the stack bound does not change what the tree build computes.  A
    result other than the [RuntimeError] of a used-up stack, be it a tree or
    the [Exception] of an unsupported joint type, is the result for every
    deeper stack. *)
Theorem convertchildren_depth_irrelevant {scalar : Type}
    (self : VRMLWriter scalar) (mdata : BodyModel scalar) (a : string)
    (d d' : nat) :
  (d ≤ d')%nat → convertchildren self d mdata a ≠ Raise "RuntimeError" →
  convertchildren self d' mdata a = convertchildren self d mdata a.
Proof. apply convertchildren_stable. Qed.

(** The tree of [body_missing], built with a stack of depth 3, is the tree
    built with a stack of depth 50. *)
Lemma convertchildren_depth_irrelevant_witness :
  convertchildren (register_links VRMLWriter_init body_missing) 50
    body_missing "A"
  = convertchildren (register_links VRMLWriter_init body_missing) 3
      body_missing "A".
Proof.
  apply (convertchildren_depth_irrelevant _ body_missing "A" 3 50); [lia|].
  by vm_compute.
Defined.

(** X2: the tree build returns a tree for some depth of the stack exactly
    when no joint cycle is reachable from the root and every joint below the
    root has a supported joint type; a stack one deeper than the joint list
    is long is then enough. *)
Theorem convertchildren_returns_iff {scalar : Type}
    (self : VRMLWriter scalar) (mdata : BodyModel scalar) (root : string) :
  ((∃ depth ns, convertchildren self depth mdata root = Ok ns) ↔
   ¬ cycle_reachable mdata root ∧ supported_from mdata root) ∧
  (¬ cycle_reachable mdata root → supported_from mdata root →
   ∃ ns, convertchildren self (S (length (joints mdata))) mdata root = Ok ns).
Proof.
  assert (¬ cycle_reachable mdata root → supported_from mdata root →
    ∃ ns, convertchildren self (S (length (joints mdata))) mdata root = Ok ns)
    as Hterm.
  { intros Hnc Hsup.
    destruct (convertchildren self (S (length (joints mdata))) mdata root)
      as [ns|e] eqn:E; [by exists ns|exfalso].
    pose proof (convertchildren_Raise_supported_from _ _ _ _ _ Hsup E) as ->.
    apply convertchildren_RuntimeError_walk in E as (l & Hl & Hlen).
    assert (length l ≤ length (child <$> joints mdata))%nat as Hle.
    { eapply (walk_bounded (edge mdata)); [|exact Hl|].
      - intros x y Hxy. by eapply edge_is_child.
      - intros x Hx Hcyc. apply Hnc. exists x. split; [|done].
        by eapply tc_rtc, walk_tc. }
    rewrite length_fmap in Hle. lia. }
  split; [|done]. split.
  - intros (depth & ns & Hok). split.
    + intros Hcyc.
      by eapply convertchildren_cycle_reachable_not_Ok in Hcyc.
    + intros j Hj Hreach.
      destruct (convertchildren_nodes_typed self mdata root j Hj Hreach _ _ Hok)
        as (n & _ & _ & Ht).
      by exists (nm_jointtype n).
  - intros [Hnc Hsup]. destruct (Hterm Hnc Hsup) as [ns Hns].
    by exists (S (length (joints mdata))), ns.
Qed.

(** The joint A→B of [body_unsupported] has an unknown type, so no depth
    gives a tree from [R]; from [B] the tree build returns. *)
Lemma convertchildren_returns_iff_witness :
  ¬ supported_from body_unsupported "R" ∧
  (¬ ∃ depth ns, convertchildren VRMLWriter_init depth body_unsupported "R"
                 = Ok ns) ∧
  ∃ ns, convertchildren VRMLWriter_init 3 body_unsupported "B" = Ok ns.
Proof.
  assert (¬ supported_from body_unsupported "R") as Hns.
  { intros H.
    destruct (H {| joint_name := "AB"; parent := "A"; child := "B";
                   jointType := "ball"; limit := []; axis := [];
                   trans := []; rot := [] |}) as [t Ht].
    - right. left.
    - apply rtc_once. by apply (edge_lookup body_unsupported 0 (mkjoint "R" "A")).
    - by vm_compute in Ht. }
  split; [exact Hns|]. split.
  - intros H.
    apply (proj1 (convertchildren_returns_iff VRMLWriter_init
                    body_unsupported "R")) in H as [_ H].
    by apply Hns.
  - by eexists.
Defined.

(** ** The shape of the tree *)

Section TreeShape.
Context {scalar : Type}.
Implicit Types (mdata : BodyModel scalar) (self : VRMLWriter scalar).
Implicit Types (j : JointModel scalar) (n : nmodel scalar).

Lemma convertchildren_loop_joints self recurse
    (cjoints : list (JointModel scalar)) ns :
  convertchildren_loop self recurse cjoints = Ok ns →
  nm_joint <$> ns = cjoints.
Proof.
  intros H%convertchildren_loop_Ok.
  induction H as [|j n js ns (jt & sub & _ & _ & ->) _ IH]; [done|].
  rewrite fmap_cons, IH. done.
Qed.

Lemma flatten_all_inv (ns : list (nmodel scalar)) n :
  n ∈ flatten_all ns →
  ∃ n0, n0 ∈ ns ∧ (n = n0 ∨ n ∈ flatten_all (nm_children n0)).
Proof.
  unfold flatten_all at 1.
  intros (l & Hn & (n0 & -> & Hn0)%list_elem_of_fmap)%list_elem_of_join.
  exists n0. split; [done|]. destruct n0 as [j t l cs]. simpl in *.
  apply elem_of_cons in Hn as [->|Hn]; [by left|by right].
Qed.

(** Every node of the tree carries a joint below the link, its converted
    type, the link record of its child, and one child node per child
    joint. *)
Lemma convertchildren_node_inv self mdata depth (a : string) ns n :
  convertchildren self depth mdata a = Ok ns → n ∈ flatten_all ns →
  nm_joint n ∈ joints mdata ∧ rtc (edge mdata) a (parent (nm_joint n)) ∧
  convertjointtype (jointType (nm_joint n)) = Ok (nm_jointtype n) ∧
  nm_link n = _linkmap self !! child (nm_joint n) ∧
  nm_joint <$> nm_children n = findchildren mdata (child (nm_joint n)).
Proof.
  revert a ns n. induction depth as [|d IH]; intros a ns n Hok Hn;
    simpl in Hok; [done|].
  apply flatten_all_inv in Hn as (n0 & Hn0 & Hn).
  apply convertchildren_loop_Ok in Hok.
  apply list_elem_of_lookup in Hn0 as [i Hi].
  destruct (Forall2_lookup_r _ _ _ _ _ Hok Hi)
    as (j & Hj & jt & sub & Hjt & Hsub & ->).
  apply list_elem_of_lookup_2, list_elem_of_filter in Hj as [Hp Hj].
  destruct Hn as [->|Hn]; simpl in *.
  - split_and!; [done|by rewrite Hp|done|done|].
    destruct d as [|d]; [done|]. simpl in Hsub.
    by eapply convertchildren_loop_joints.
  - destruct (IH _ _ _ Hsub Hn) as (H1 & H2 & H3 & H4 & H5).
    split_and!; [done| |done..].
    eapply rtc_l; [|exact H2]. by exists j.
Qed.

End TreeShape.

(** X3: the nodes of a tree built from a link are the joints below it.  A
    joint has a node exactly when it is in the joint list and its parent is
    reachable from the link; every node is labelled with the converted type
    of its joint and the link record of the joint's child (none if the link
    map has none), and its child nodes are the child joints of that link in
    the order of the joint list. *)
Theorem convertchildren_tree_shape {scalar : Type}
    (self : VRMLWriter scalar) (mdata : BodyModel scalar) (root : string)
    (depth : nat) (ns : list (nmodel scalar)) :
  convertchildren self depth mdata root = Ok ns →
  nm_joint <$> ns = findchildren mdata root ∧
  (∀ j, (∃ n, n ∈ flatten_all ns ∧ nm_joint n = j) ↔
        j ∈ joints mdata ∧ rtc (edge mdata) root (parent j)) ∧
  (∀ n, n ∈ flatten_all ns →
        convertjointtype (jointType (nm_joint n)) = Ok (nm_jointtype n) ∧
        nm_link n = _linkmap self !! child (nm_joint n) ∧
        nm_joint <$> nm_children n
        = findchildren mdata (child (nm_joint n))).
Proof.
  intros Hok. split_and!.
  - destruct depth as [|d]; [done|]. simpl in Hok.
    by eapply convertchildren_loop_joints.
  - intros j. split.
    + intros (n & Hn & <-).
      destruct (convertchildren_node_inv _ _ _ _ _ _ Hok Hn) as (? & ? & _).
      done.
    + intros [Hj Hreach].
      destruct (convertchildren_nodes self mdata root j Hj Hreach _ _ Hok)
        as (n & Hn & Hnj & _).
      by exists n.
  - intros n Hn.
    destruct (convertchildren_node_inv _ _ _ _ _ _ Hok Hn)
      as (_ & _ & H1 & H2 & H3).
    done.
Qed.

(** The tree of [body_trees] from [R] has the nodes of R→A and R→B at the
    top. *)
Lemma convertchildren_tree_shape_witness :
  ∃ ns, convertchildren VRMLWriter_init 4 body_trees "R" = Ok ns ∧
        nm_joint <$> ns = [mkjoint "R" "A"; mkjoint "R" "B"].
Proof.
  destruct (convertchildren VRMLWriter_init 4 body_trees "R") as [ns|e] eqn:E;
    [|by vm_compute in E].
  exists ns. split; [done|].
  by destruct (convertchildren_tree_shape _ _ _ _ _ E) as [-> _].
Defined.

(** ** The order of the root candidates *)

Section FindrootOrder.
Context {scalar : Type}.
Implicit Types (mdata : BodyModel scalar) (j : JointModel scalar).
Implicit Types (counts : list (string * nat)) (r : string).

Lemma count_parent_other counts j r :
  parent j ≠ r → dict_get (count_parent counts j) r = dict_get counts r.
Proof.
  intros Hp. unfold count_parent. case_decide; [done|].
  destruct (dict_get counts (parent j)); by rewrite dict_get_set_ne.
Qed.

Lemma count_parents_value (js : list (JointModel scalar)) counts r :
  r ≠ "world" →
  dict_get (foldl count_parent counts js) r =
  match length (filter (λ j, parent j = r) js) with
  | O => dict_get counts r
  | S k => Some (default 0 (dict_get counts r) + S k)
  end.
Proof.
  intros Hw. revert counts. induction js as [|j js IH]; intros counts;
    [done|].
  cbn [foldl]. rewrite IH.
  destruct (decide (parent j = r)) as [Hp|Hp].
  - rewrite filter_cons_True by done. unfold count_parent.
    rewrite decide_False by congruence.
    rewrite Hp. cbn [length].
    destruct (dict_get counts r) as [n|] eqn:E; rewrite dict_get_set_eq;
      simpl; destruct (length (filter _ js)); f_equal; lia.
  - rewrite filter_cons_False by done. by rewrite count_parent_other.
Qed.

Lemma insert_desc_sorted (x : string * nat) l :
  StronglySorted (λ a b, b.2 ≤ a.2)%nat l →
  StronglySorted (λ a b, b.2 ≤ a.2)%nat (insert_desc x l).
Proof.
  induction 1 as [|y l Hl IH Hy]; simpl.
  - by repeat constructor.
  - case_decide as Hxy.
    + constructor; [done|].
      rewrite insert_desc_Permutation. constructor; [lia|done].
    + constructor; [by constructor|].
      constructor; [lia|].
      eapply Forall_impl; [exact Hy|]. simpl. intros z Hz. lia.
Qed.

Lemma sorted_desc_sorted (l : list (string * nat)) :
  StronglySorted (λ a b, b.2 ≤ a.2)%nat (sorted_desc l).
Proof.
  induction l as [|x l IH]; simpl; [constructor|].
  by apply insert_desc_sorted.
Qed.

Lemma StronglySorted_lookup {A : Type} (R : relation A) (l : list A)
    (i k : nat) (x y : A) :
  StronglySorted R l → i < k → l !! i = Some x → l !! k = Some y → R x y.
Proof.
  intros Hl. revert i k. induction Hl as [|z l Hl IH Hz]; intros i k Hik Hi Hk.
  - done.
  - destruct k as [|k]; [lia|]. destruct i as [|i]; simpl in *.
    + injection Hi as ->. eapply Forall_forall in Hz; [exact Hz|].
      by eapply list_elem_of_lookup_2.
    + eapply (IH i k); [lia|done..].
Qed.

(** The items of the dictionary [findroot] sorts: a candidate with the
    number of its child joints. *)
Lemma findroot_items mdata r (n : nat) :
  (r, n) ∈ foldl drop_child (foldl count_parent [] (joints mdata))
             (joints mdata) →
  n = fanout mdata r ∧ 0 < n.
Proof.
  intros Hn. apply (dict_elem_of _ _ _ (findroot_counts_NoDup mdata)) in Hn.
  revert Hn. rewrite drop_children_lookup. case_decide; [done|]. intros Hn.
  assert (r ≠ "world") as Hw.
  { assert (is_Some (dict_get (foldl count_parent [] (joints mdata)) r))
      as Hs by eauto.
    apply count_parents_lookup in Hs as [Hs|(_ & _ & _ & ?)]; [|done].
    by destruct Hs. }
  rewrite (count_parents_value _ _ _ Hw) in Hn. cbn [dict_get] in Hn.
  unfold fanout, findchildren.
  destruct (length (filter _ (joints mdata))); [done|].
  injection Hn as <-. simpl. lia.
Qed.

End FindrootOrder.

(** X4: root detection lists its candidates by descending number of child
    joints: a candidate never has fewer child joints than one listed after
    it, and every candidate has at least one; so the root [write] takes, the
    first of the list, has the most child joints of all candidates. *)
Theorem findroot_sorted_by_fanout {scalar : Type} (mdata : BodyModel scalar)
    (i k : nat) (r1 r2 : string) :
  (i ≤ k)%nat →
  findroot mdata !! i = Some r1 → findroot mdata !! k = Some r2 →
  (fanout mdata r2 ≤ fanout mdata r1)%nat ∧ 0 < fanout mdata r2.
Proof.
  unfold findroot. intros Hik H1 H2.
  rewrite list_lookup_fmap in H1, H2.
  destruct (sorted_desc _ !! i) as [[x1 n1]|] eqn:E1; [|done].
  destruct (sorted_desc _ !! k) as [[x2 n2]|] eqn:E2; [|done].
  simpl in *. injection H1 as ->. injection H2 as ->.
  assert (n2 ≤ n1)%nat as Hle.
  { destruct (decide (i = k)) as [->|Hne].
    - rewrite E1 in E2. injection E2 as _ ->. lia.
    - assert (i < k) as Hlt by lia.
      apply (StronglySorted_lookup _ _ _ _ _ _ (sorted_desc_sorted _)
               Hlt E1 E2). }
  apply list_elem_of_lookup_2 in E1, E2.
  rewrite sorted_desc_Permutation in E1, E2.
  apply findroot_items in E1 as [-> _].
  apply findroot_items in E2 as [-> ?].
  done.
Qed.

(** [R] with two child joints comes before [X] with one. *)
Lemma findroot_sorted_by_fanout_witness :
  findroot body_trees !! 0 = Some "R" ∧ findroot body_trees !! 1 = Some "X" ∧
  (fanout body_trees "X" ≤ fanout body_trees "R")%nat.
Proof.
  assert (findroot body_trees !! 0 = Some "R") as H0 by by vm_compute.
  assert (findroot body_trees !! 1 = Some "X") as H1 by by vm_compute.
  split; [exact H0|]. split; [exact H1|].
  apply (findroot_sorted_by_fanout body_trees 0 1 "R" "X"); [lia|done..].
Defined.

(** X5: root detection returns no candidate exactly when every joint is
    attached to the world or has a parent that is itself the child of a
    joint; in particular for a body without joints. *)
Theorem findroot_nil_iff {scalar : Type} (mdata : BodyModel scalar) :
  findroot mdata = [] ↔
  ∀ j, j ∈ joints mdata → parent j = "world" ∨ is_child mdata (parent j).
Proof.
  split.
  - intros Hnil j Hj.
    destruct (decide (parent j = "world")) as [|Hw]; [by left|right].
    destruct (decide (parent j ∈ child <$> joints mdata)) as [|Hc]; [done|].
    exfalso. assert (parent j ∈ findroot mdata) as Hin.
    { apply findroot_spec. split; [by exists j|done]. }
    rewrite Hnil in Hin. by apply elem_of_nil in Hin.
  - intros H. destruct (findroot mdata) as [|r rs] eqn:E; [done|exfalso].
    assert (r ∈ findroot mdata) as [(j & Hj & Hp & Hw) Hc]%findroot_spec
      by (rewrite E; by left).
    destruct (H j Hj) as [?|?]; congruence.
Qed.

(** ** The root link and the joint numbers of [write] *)

Section WriteContext.
Context {scalar : Type}.
Implicit Types (mdata : BodyModel scalar) (self : VRMLWriter scalar).

Lemma linkmap_fold_other (ls : list (LinkModel scalar))
    (lm : gmap string (LinkModel scalar)) (k : string) :
  k ∉ (link_name <$> ls) →
  foldl (λ lm m, <[link_name m := m]> lm) lm ls !! k = lm !! k.
Proof.
  revert lm. induction ls as [|l ls IH]; intros lm Hk; simpl; [done|].
  rewrite IH.
  - apply lookup_insert_ne. intros Heq. apply Hk. rewrite <- Heq. by left.
  - intros H. apply Hk. by right.
Qed.

Lemma linkmap_fold_unique (ls : list (LinkModel scalar))
    (lm : gmap string (LinkModel scalar)) (l : LinkModel scalar) :
  NoDup (link_name <$> ls) → l ∈ ls →
  foldl (λ lm m, <[link_name m := m]> lm) lm ls !! link_name l = Some l.
Proof.
  revert lm. induction ls as [|x ls IH]; intros lm Hnd Hl.
  - by apply elem_of_nil in Hl.
  - rewrite fmap_cons in Hnd. apply NoDup_cons in Hnd as [Hx Hnd].
    simpl. apply elem_of_cons in Hl as [->|Hl].
    + rewrite linkmap_fold_other by done. apply lookup_insert_eq.
    + by apply IH.
Qed.

Lemma jointmap_zero (js : list (JointModel scalar)) (jm : gmap string nat)
    (name : string) :
  name ∈ (joint_name <$> js) ∨ jm !! name = Some 0 →
  foldl (λ jm j, <[joint_name j := 0]> jm) jm js !! name = Some 0.
Proof.
  revert jm. induction js as [|x js IH]; intros jm Hj; simpl.
  - destruct Hj as [Hj|Hj]; [by apply elem_of_nil in Hj|done].
  - apply IH. destruct (decide (joint_name x = name)) as [<-|Hne].
    + right. apply lookup_insert_eq.
    + rewrite lookup_insert_ne by done.
      destruct Hj as [Hj|Hj]; [left|by right].
      rewrite fmap_cons in Hj. apply elem_of_cons in Hj as [?|?]; congruence.
Qed.

(** The numbering loop of [write]: the names get the successive numbers
    from [c] on, other keys keep their entry. *)
Lemma jointmap_numbers (l : list string) (jm : gmap string nat) (c : nat) :
  let numbered :=
    (foldl (λ '(jm, jointcount) j,
              (<[j := jointcount]> jm, jointcount + 1)) (jm, c) l).1 in
  (∀ k, k ∉ l → numbered !! k = jm !! k) ∧
  (NoDup l → ∀ i k, l !! i = Some k → numbered !! k = Some (c + i)).
Proof.
  revert jm c. induction l as [|x l IH]; intros jm c; simpl.
  - split; [done|]. by intros _ i k.
  - destruct (IH (<[x := c]> jm) (c + 1)) as [IH1 IH2]. split.
    + intros k Hk. rewrite IH1.
      * apply lookup_insert_ne. intros ->. apply Hk. by left.
      * intros H. apply Hk. by right.
    + intros [Hx Hnd]%NoDup_cons [|i] k Hi; simpl in Hi.
      * injection Hi as ->. rewrite IH1 by done.
        rewrite lookup_insert_eq. f_equal. lia.
      * rewrite (IH2 Hnd i k Hi). f_equal. lia.
Qed.

End WriteContext.

(** X6: [write] raises [KeyError] when the root that root detection puts
    first has no entry in the link map, as for a fresh writer and a root
    that is not in the link list of the body; it raises [IndexError] when
    there is no candidate and the link list is empty. *)
Theorem write_root_errors {scalar : Type} (JointModel_new : JointModel scalar)
    (self : VRMLWriter scalar) (depth : nat) (mdata : BodyModel scalar) :
  (∀ root rest, findroot mdata = root :: rest →
     _linkmap self !! root = None →
     root ∉ (link_name <$> links mdata) →
     write JointModel_new self depth mdata = Raise "KeyError") ∧
  (findroot mdata = [] → links mdata = [] →
   write JointModel_new self depth mdata = Raise "IndexError").
Proof.
  split.
  - intros root rest Hroots Hold Hnew. unfold write. rewrite Hroots.
    unfold select_root. cbn [set_roots _roots _linkmap].
    by rewrite register_links_lookup, Hold.
  - intros Hroots Hlinks. unfold write. rewrite Hroots.
    unfold select_root. cbn [set_roots _roots _linkmap].
    by rewrite Hlinks.
Qed.

(** The root [base] of [body_orphan_root] is no link; [body_empty] has no
    link at all. *)
Lemma write_root_errors_witness :
  write JointModel0 VRMLWriter_init 5 body_orphan_root = Raise "KeyError" ∧
  write JointModel0 VRMLWriter_init 5 body_empty = Raise "IndexError".
Proof.
  split.
  - apply (proj1 (write_root_errors JointModel0 VRMLWriter_init 5
                    body_orphan_root) "base" []); [by vm_compute|done|].
    apply (bool_decide_unpack _). by vm_compute.
  - apply (proj2 (write_root_errors JointModel0 VRMLWriter_init 5 body_empty));
      by vm_compute.
Defined.

(** X7: the link map after the first loop of [write].  When the link names
    of the body are distinct every link is found under its name, whatever
    the writer held under that name before; a name that is not in the link
    list keeps the entry of an earlier [write], so the links of earlier
    bodies stay in the map. *)
Theorem register_links_lookup_links {scalar : Type}
    (self : VRMLWriter scalar) (mdata : BodyModel scalar) :
  (NoDup (link_name <$> links mdata) →
   ∀ l, l ∈ links mdata →
        _linkmap (register_links self mdata) !! link_name l = Some l) ∧
  (∀ k, k ∉ (link_name <$> links mdata) →
        _linkmap (register_links self mdata) !! k = _linkmap self !! k).
Proof.
  split.
  - intros Hnd l Hl. by apply linkmap_fold_unique.
  - intros k Hk. by apply linkmap_fold_other.
Qed.

(** After [body_arm], the writer still holds the link [lower] when it has
    registered [body_missing] as well. *)
Lemma register_links_lookup_links_witness :
  _linkmap (register_links (register_links VRMLWriter_init body_arm)
              body_missing) !! "C" = Some (mklink "C") ∧
  _linkmap (register_links (register_links VRMLWriter_init body_arm)
              body_missing) !! "lower" = Some (mkvisible "lower").
Proof.
  split.
  - assert (NoDup (link_name <$> links body_missing)) as Hnd
      by (apply (bool_decide_unpack _); by vm_compute).
    assert (mklink "C" ∈ links body_missing) as Hin by (right; left).
    exact (proj1 (register_links_lookup_links
                    (register_links VRMLWriter_init body_arm) body_missing)
             Hnd (mklink "C") Hin).
  - rewrite (proj2 (register_links_lookup_links
                      (register_links VRMLWriter_init body_arm) body_missing)).
    + by vm_compute.
    + apply (bool_decide_unpack _). by vm_compute.
Defined.

(** X8: what [write] hands to the template.  The joint name list is never
    empty; when its names are distinct the joint map numbers them 1, 2, ...
    in their order; every other joint of the body has the number 0; and the
    link list names only links of the body that have a visual shape. *)
Theorem write_joint_numbers {scalar : Type} (JointModel_new : JointModel scalar)
    (self : VRMLWriter scalar) (depth : nat) (mdata : BodyModel scalar)
    (r : rendering) :
  write JointModel_new self depth mdata = Ok r →
  r_joints r ≠ [] ∧
  (NoDup (r_joints r) →
   ∀ i name, r_joints r !! i = Some name →
             r_jointmap r !! name = Some (S i)) ∧
  (∀ j, j ∈ joints mdata → joint_name j ∉ r_joints r →
        r_jointmap r !! joint_name j = Some 0) ∧
  (∀ name, name ∈ r_links r →
     ∃ l, l ∈ links mdata ∧ link_name l = name ∧ visuals l ≠ []).
Proof.
  unfold write. intros (sel & Hsel & H)%bind_Ok.
  destruct sel as [[root rootlink] rootjoint].
  apply bind_Ok in H as (children & _ & [= <-]). cbn [r_joints r_jointmap r_links].
  split_and!.
  - case_decide as Hlen; [done|]. intros Heq. by rewrite Heq in Hlen.
  - intros Hnd i name Hi.
    by rewrite (proj2 (jointmap_numbers _ _ 1) Hnd i name Hi).
  - intros j Hj Hout.
    rewrite (proj1 (jointmap_numbers _ _ 1)) by done.
    apply jointmap_zero. left. apply list_elem_of_fmap. by exists j.
  - intros name (l & -> & [[Hv _] Hl]%list_elem_of_filter)%list_elem_of_fmap.
    exists l. split_and!; [done..|]. intros Heq. rewrite Heq in Hv.
    simpl in Hv. lia.
Qed.

(** The joints of [body_arm] get the numbers 1 and 2. *)
Lemma write_joint_numbers_witness :
  ∃ r, write JointModel0 VRMLWriter_init 5 body_arm = Ok r ∧
       r_joints r = ["baseupper"; "upperlower"] ∧
       r_jointmap r !! "baseupper" = Some 1 ∧
       r_jointmap r !! "upperlower" = Some 2.
Proof.
  destruct (write JointModel0 VRMLWriter_init 5 body_arm) as [r|e] eqn:E;
    [|by vm_compute in E].
  destruct (write_joint_numbers _ _ _ _ _ E) as (_ & Hnum & _).
  assert (r_joints r = ["baseupper"; "upperlower"]) as Hj.
  { vm_compute in E. by injection E as <-. }
  exists r. split; [done|]. split; [exact Hj|].
  assert (NoDup (r_joints r)) as Hnd.
  { rewrite Hj. apply (bool_decide_unpack _). by vm_compute. }
  split; [apply (Hnum Hnd 0)|apply (Hnum Hnd 1)]; by rewrite Hj.
Defined.

(** ** The bodies the VRML reader builds *)

Section ReaderStructure.
Context {scalar : Type}.
Context (f0 f1 : scalar) (JointModel_new : JointModel scalar).
Context (quaternion_about_axis : scalar → list scalar → list scalar).
Implicit Types (self : VRMLReader scalar).

Lemma lockstep_refl (names : list string) self : lockstep names self self.
Proof.
  exists [], []. rewrite !app_nil_r. split_and!; [done|done|constructor..].
Qed.

Lemma lockstep_trans (names : list string) self1 self2 self3 :
  lockstep names self1 self2 → lockstep names self2 self3 →
  lockstep names self1 self3.
Proof.
  intros (ls & js & Hl & Hj & Hc & Hp) (ls' & js' & Hl' & Hj' & Hc' & Hp').
  exists (ls ++ ls'), (js ++ js').
  rewrite Hl', Hl, Hj', Hj, !app_assoc. split_and!; [done|done|..].
  - by apply Forall2_app.
  - rewrite fmap_app. apply Forall_app. split.
    + eapply Forall_impl; [exact Hp|]. simpl. intros j Hin.
      rewrite app_assoc. apply elem_of_app. by left.
    + eapply Forall_impl; [exact Hp'|]. simpl. intros j Hin.
      apply elem_of_app in Hin as [Hin|Hin]; rewrite !elem_of_app; auto.
Qed.

Lemma for_each_lockstep {A : Type} (names : list string)
    (body : VRMLReader scalar → A → result (VRMLReader scalar))
    (l : list A) self self' :
  (∀ s x s', body s x = Ok s' → lockstep names s s') →
  for_each body self l = Ok self' → lockstep names self self'.
Proof.
  intros Hbody. revert self. induction l as [|x l IH]; intros self; simpl.
  - intros [= <-]. apply lockstep_refl.
  - intros (s1 & H1 & Hrest)%bind_Ok.
    eapply lockstep_trans; [by eapply Hbody|by apply IH].
Qed.

Lemma readLink_name self (m : LinkInfo scalar) lm :
  readLink f0 f1 self m = Ok lm → link_name lm = li_name m.
Proof. unfold readLink. by intros (vs & _ & [= <-])%bind_Ok. Qed.

Lemma read_joint_names (parent_ child_ : LinkInfo scalar) jm :
  read_joint JointModel_new quaternion_about_axis parent_ child_ = Ok jm →
  parent jm = li_name parent_ ∧ child jm = li_name child_ ∧
  joint_name jm = li_name parent_ +:+ li_name child_.
Proof.
  unfold read_joint.
  by intros (jt & _ & (angle & _ & [= <-])%bind_Ok)%bind_Ok.
Qed.

(** [readChild] appends the links and the joints of a subtree in step. *)
Lemma readChild_lockstep depth self self' (parent_ child_ : LinkInfo scalar) :
  readChild f0 f1 JointModel_new quaternion_about_axis depth self
    parent_ child_ = Ok self' →
  lockstep [li_name parent_] self self'.
Proof.
  revert self self' parent_ child_.
  induction depth as [|d IH]; intros self self' parent_ child_; simpl;
    [done|].
  intros (lm & Hlm & (jm & Hjm & Hloop)%bind_Ok)%bind_Ok.
  apply readLink_name in Hlm.
  apply read_joint_names in Hjm as (Hp & Hc & _).
  apply (for_each_lockstep [li_name child_]) in Hloop.
  - destruct Hloop as (ls & js & Hl & Hj & Hch & Hpa). simpl in Hl, Hj.
    exists (lm :: ls), (jm :: js). split_and!.
    + by rewrite Hl, <- app_assoc.
    + by rewrite Hj, <- app_assoc.
    + constructor; [congruence|done].
    + constructor.
      * rewrite Hp. apply elem_of_app. left. by left.
      * eapply Forall_impl; [exact Hpa|]. cbv beta. intros j Hin.
        apply elem_of_app. right. rewrite fmap_cons, Hlm.
        apply elem_of_app in Hin as [->%list_elem_of_singleton|Hin];
          [by left|by right].
  - intros s c s' (g & _ & Hg)%bind_Ok. by eapply IH.
Qed.

End ReaderStructure.

(** X9: the body the VRML reader returns starts with the root link of the
    loader; after it come one link per tree joint, in the order of the tree
    joints, the child of each tree joint being the link at the same
    position; the parent of every tree joint names a link of the body; and
    the joint list ends with one joint per extra joint of the model. *)
Theorem read_links_and_joints {scalar : Type} (f0 f1 : scalar)
    (JointModel_new : JointModel scalar)
    (quaternion_about_axis : scalar → list scalar → list scalar)
    (depth : nat) (b : BodyInfo scalar) (bm : BodyModel scalar) :
  read f0 f1 JointModel_new quaternion_about_axis depth b = Ok bm →
  ∃ root rootlink ls js extras,
    _get_links b !! 0 = Some root ∧ link_name rootlink = li_name root ∧
    links bm = rootlink :: ls ∧ joints bm = js ++ extras ∧
    Forall2 (λ l j, child j = link_name l) ls js ∧
    Forall (λ j, parent j ∈ link_name <$> links bm) js ∧
    length extras = length (_get_extraJoints b) ∧
    length (links bm) = S (length js).
Proof.
  unfold read. cbn [_hrplinks _hrpextrajoints].
  intros (root & Hroot & (lm & Hlm & (self1 & Hself1 & (self2 & Hself2 &
    [= <-])%bind_Ok)%bind_Ok)%bind_Ok)%bind_Ok.
  assert (_hrpextrajoints self1 = _get_extraJoints b) as Hextra.
  { apply (for_each_preserves _hrpextrajoints) in Hself1; [done|].
    intros s c s' _ (g & _ & Hg)%bind_Ok.
    by eapply readChild_extrajoints. }
  rewrite Hextra in Hself2.
  apply extrajoints_appended in Hself2 as (ms & Hms & Hjoints & Hlinks).
  apply (for_each_lockstep [li_name root]) in Hself1.
  2:{ intros s c s' (g & _ & Hg)%bind_Ok. by eapply readChild_lockstep. }
  destruct Hself1 as (ls & js & Hl & Hj & Hch & Hpa). simpl in Hl, Hj.
  apply readLink_name in Hlm.
  exists root, lm, ls, js, ms. cbn [links joints].
  rewrite Hlinks, Hjoints, Hl, Hj. split_and!; try done.
  - unfold getitem in Hroot. simpl in Hroot.
    change (Z.to_nat 0) with 0 in Hroot.
    destruct (_get_links b !! 0) eqn:E; [|done]. by injection Hroot as ->.
  - eapply Forall_impl; [exact Hpa|]. cbv beta. intros j Hin.
    rewrite fmap_cons, Hlm.
    by apply elem_of_app in Hin as [->%list_elem_of_singleton|Hin];
      [left|right].
  - symmetry. by eapply Forall2_length.
  - simpl. f_equal. by eapply Forall2_length.
Qed.

(** The closed-link sample has three links, two tree joints and one extra
    joint. *)
Lemma read_links_and_joints_witness :
  ∃ bm, read 0%Z 1%Z JointModel0 quaternion0 5 closed_link_sample = Ok bm ∧
        ∃ js extras, joints bm = js ++ extras ∧ length extras = 1 ∧
                     length (links bm) = S (length js).
Proof.
  destruct (read 0%Z 1%Z JointModel0 quaternion0 5 closed_link_sample)
    as [bm|e] eqn:E; [|by vm_compute in E].
  destruct (read_links_and_joints _ _ _ _ _ _ _ E)
    as (root & rl & ls & js & ex & _ & _ & _ & Hj & _ & _ & Hex & Hlen).
  exists bm. split; [done|]. by exists js, ex.
Defined.

(** X10: the joint types of the reader are those the writer converts back.
    A joint read from a link whose joint type is ['fixed'], ['rotate'] or
    ['slide'] carries the names of its two links and a joint type that
    [convertjointtype] maps to that same word; any other joint type makes
    the reader raise [Exception]. *)
Theorem read_joint_type_round_trip {scalar : Type}
    (JointModel_new : JointModel scalar)
    (quaternion_about_axis : scalar → list scalar → list scalar)
    (parent_ child_ : LinkInfo scalar) :
  (∀ jm, read_joint JointModel_new quaternion_about_axis parent_ child_
         = Ok jm →
         convertjointtype (jointType jm) = Ok (li_jointType child_) ∧
         parent jm = li_name parent_ ∧ child jm = li_name child_) ∧
  (li_jointType child_ ∉ ["fixed"; "rotate"; "slide"] →
   read_joint JointModel_new quaternion_about_axis parent_ child_
   = Raise "Exception").
Proof.
  split.
  - intros jm Hjm.
    destruct (read_joint_names _ _ _ _ _ Hjm) as (Hp & Hc & _).
    split; [|done]. unfold read_joint in Hjm.
    apply bind_Ok in Hjm as (jt & Hjt & (angle & _ & [= <-])%bind_Ok).
    simpl. repeat case_decide; try done; injection Hjt as <-;
      by match goal with H : li_jointType _ = _ |- _ => rewrite H end.
  - intros Hnot. unfold read_joint.
    repeat case_decide; try done; exfalso; apply Hnot;
      match goal with H : li_jointType _ = _ |- _ => rewrite H end;
      apply (bool_decide_unpack _); by vm_compute.
Qed.

(** The joint from [L0] to [L1] of the sample is read as a joint the writer
    converts to ["rotate"]. *)
Lemma read_joint_type_round_trip_witness :
  ∃ jm, read_joint JointModel0 quaternion0 (hrplink "L0" [1%Z])
          (hrplink "L1" [2%Z]) = Ok jm ∧
        convertjointtype (jointType jm) = Ok "rotate".
Proof.
  destruct (read_joint JointModel0 quaternion0 (hrplink "L0" [1%Z])
              (hrplink "L1" [2%Z])) as [jm|e] eqn:E; [|by vm_compute in E].
  exists jm. split; [done|].
  by apply (proj1 (read_joint_type_round_trip _ _ _ _) jm E).
Defined.

(** ** The shapes the VRML reader builds *)

Ltac split_binds :=
  repeat match goal with
         | H : bind _ _ = Ok _ |- _ =>
           let x := fresh "x" in
           let Hx := fresh "Hx" in
           apply bind_Ok in H as (x & Hx & H)
         end.

Section ReaderShapes.
Context {scalar : Type} (f0 f1 : scalar).
Implicit Types (self : VRMLReader scalar).

Lemma read_shape_fields self (s : TransformedShapeIndex scalar) sm :
  read_shape f0 f1 self s = Ok sm →
  shape_name sm = "shape-" +:+ pretty (shapeIndex s) ∧
  reshape 4 4 (transformMatrix s ++ [f0; f0; f0; f1]) = Ok (matrix sm).
Proof.
  unfold read_shape. intros H. split_binds.
  destruct (primitiveType x0); try done; split_binds;
    injection H as <-; by split.
Qed.

Lemma visuals_loop self (ss : list (TransformedShapeIndex scalar))
    (acc vs : list (ShapeModel scalar)) :
  for_each (λ vs s, do sm <- read_shape f0 f1 self s; Ok (vs ++ [sm])) acc ss
  = Ok vs →
  ∃ sms, vs = acc ++ sms ∧
         Forall2 (λ s sm, read_shape f0 f1 self s = Ok sm) ss sms.
Proof.
  revert acc. induction ss as [|s ss IH]; intros acc; simpl.
  - intros [= <-]. exists []. split; [by rewrite app_nil_r|constructor].
  - intros (st & (sm & Hsm & [= <-])%bind_Ok & Hrest)%bind_Ok.
    destruct (IH _ Hrest) as (sms & -> & Hsms).
    exists (sm :: sms). split; [by rewrite <- app_assoc|by constructor].
Qed.

Lemma length_rows {A : Type} (r c : nat) (l : list A) :
  length (rows r c l) = r.
Proof.
  revert l. induction r as [|r IH]; intros l; simpl; [done|]. by rewrite IH.
Qed.

Lemma getitem_last {A : Type} (l : list A) (x : A) :
  getitem l (-1) = Ok x → last l = Some x.
Proof.
  unfold getitem. rewrite last_lookup.
  change (-1 <? 0)%Z with true. cbv iota.
  destruct l as [|y l]; [done|]. cbn [length Nat.pred].
  assert ((-1 + Z.of_nat (S (length l)) <? 0)%Z = false) as ->
    by (apply Z.ltb_ge; lia).
  assert (Z.to_nat (-1 + Z.of_nat (S (length l))) = length l) as -> by lia.
  destruct ((y :: l) !! length l); [by intros [= ->]|done].
Qed.

End ReaderShapes.

(** X11: a link read by [readLink] keeps the name and the mass of the
    loader's link and has one visual per shape index, in order, each the
    shape [read_shape] builds and named [shape-] followed by its shape
    index. *)
Theorem readLink_visuals {scalar : Type} (f0 f1 : scalar)
    (self : VRMLReader scalar) (m : LinkInfo scalar) (lm : LinkModel scalar) :
  readLink f0 f1 self m = Ok lm →
  link_name lm = li_name m ∧ mass lm = li_mass m ∧
  centerofmass lm = centerOfMass m ∧
  Forall2 (λ s sm, read_shape f0 f1 self s = Ok sm ∧
                   shape_name sm = "shape-" +:+ pretty (shapeIndex s))
    (shapeIndices m) (visuals lm).
Proof.
  unfold readLink. intros (vs & Hvs & [= <-])%bind_Ok. simpl.
  split_and!; [done..|].
  apply visuals_loop in Hvs as (sms & -> & Hsms). simpl.
  eapply Forall2_impl; [exact Hsms|]. intros s sm Hsm. split; [done|].
  by apply read_shape_fields in Hsm as [? _].
Qed.

(** The link with the square has the one visual [shape-0]. *)
Lemma readLink_visuals_witness :
  ∃ lm, readLink 0%Z 1%Z reader_square square_link = Ok lm ∧
        link_name lm = "plate" ∧ shape_name <$> visuals lm = ["shape-0"].
Proof.
  destruct (readLink 0%Z 1%Z reader_square square_link) as [lm|e] eqn:E;
    [|by vm_compute in E].
  destruct (readLink_visuals _ _ _ _ _ E) as (Hn & _ & _ & Hv).
  exists lm. split; [done|]. split; [done|].
  apply Forall2_cons_inv_l in Hv
    as (sm & rest & [_ Hname] & ->%Forall2_nil_inv_l & ->).
  by rewrite fmap_cons, Hname.
Defined.

(** X12: the placement of a shape.  [read_shape] raises [ValueError] unless
    the transform of the shape index has twelve entries; the matrix of a
    shape it returns has four rows of four entries, the transform followed
    by the row 0 0 0 1. *)
Theorem read_shape_matrix {scalar : Type} (f0 f1 : scalar)
    (self : VRMLReader scalar) (s : TransformedShapeIndex scalar) :
  (length (transformMatrix s) ≠ 12 →
   read_shape f0 f1 self s = Raise "ValueError") ∧
  (∀ sm, read_shape f0 f1 self s = Ok sm →
     length (transformMatrix s) = 12 ∧
     concat (matrix sm) = transformMatrix s ++ [f0; f0; f0; f1] ∧
     Forall (λ row, length row = 4) (matrix sm) ∧
     matrix sm !! 3 = Some [f0; f0; f0; f1]).
Proof.
  split.
  - intros Hlen. unfold read_shape, reshape.
    rewrite decide_False; [done|]. rewrite length_app. simpl. lia.
  - intros sm [_ Hm]%read_shape_fields.
    pose proof (reshape_Ok_concat _ _ _ _ Hm) as Hconcat.
    unfold reshape in Hm. case_decide as Hlen; [|done].
    injection Hm as Hm. rewrite length_app in Hlen. simpl in Hlen.
    assert (length (transformMatrix s) = 12) as H12 by lia.
    split_and!; [done|done|..]; rewrite <- Hm;
      destruct (transformMatrix s) as [|a1 [|a2 [|a3 [|a4 [|a5 [|a6 [|a7
        [|a8 [|a9 [|a10 [|a11 [|a12 [|a13 t]]]]]]]]]]]]];
      simpl in H12; try lia; [by repeat constructor|done].
Qed.

(** The identity transform of the square has twelve entries. *)
Lemma read_shape_matrix_witness :
  ∃ sm, read_shape 0%Z 1%Z reader_square
          {| transformMatrix := [1; 0; 0; 0; 0; 1; 0; 0; 0; 0; 1; 0]%Z;
             shapeIndex := 0 |} = Ok sm ∧
        matrix sm !! 3 = Some [0; 0; 0; 1]%Z.
Proof.
  destruct (read_shape 0%Z 1%Z reader_square _) as [sm|e] eqn:E;
    [|by vm_compute in E].
  exists sm. split; [done|].
  by apply (proj2 (read_shape_matrix _ _ _ _) sm E).
Defined.

(** X13: explicit normal indices.  With normals per vertex the indices are
    taken as they are, three to a row, and a mesh is read only if their
    number is a multiple of three; with normals per face every index is
    repeated three times, one row per face, whatever their number. *)
Theorem read_mesh_explicit_normal_index {scalar : Type}
    (self : VRMLReader scalar) (sdata : ShapeInfo scalar)
    (adata : AppearanceInfo scalar) (m : MeshData scalar) :
  getitem (_hrpapperances self) (appearanceIndex sdata) = Ok adata →
  normalIndices adata ≠ [] →
  read_mesh self sdata = Ok m →
  if normalPerVertex adata
  then ∃ idx, normal_index m = Some idx ∧
              concat idx = normalIndices adata ∧
              length (normalIndices adata) = length idx * 3
  else normal_index m = Some ((λ i, [i; i; i]) <$> normalIndices adata).
Proof.
  intros Hadata Hne Hm. unfold read_mesh in Hm.
  apply bind_Ok in Hm as (v & _ & Hm).
  apply bind_Ok in Hm as (vi & _ & Hm).
  rewrite Hadata in Hm. simpl in Hm.
  apply bind_Ok in Hm as (n & _ & Hm).
  apply bind_Ok in Hm as (ni & Hni & Hm).
  apply bind_Ok in Hm as (mat & _ & [= <-]). simpl.
  assert (0 < length (normalIndices adata)) as Hlen.
  { destruct (normalIndices adata); [done|simpl; lia]. }
  destruct (normalPerVertex adata); rewrite decide_True in Hni by done.
  - exists ni. split; [done|].
    split; [by eapply reshape_Ok_concat|].
    unfold reshape3, reshape in Hni. case_decide as Hl; [|done].
    injection Hni as <-. by rewrite length_rows.
  - unfold face_indices in Hni. rewrite reshape3_triples in Hni.
    by injection Hni as <-.
Qed.

(** The two faces of the square with the normal 0 for both. *)
Lemma read_mesh_explicit_normal_index_witness :
  ∃ m, read_mesh reader_faces square_shape = Ok m ∧
       normal_index m = Some [[0; 0; 0]; [0; 0; 0]]%Z.
Proof.
  destruct (read_mesh reader_faces square_shape) as [m|e] eqn:E;
    [|by vm_compute in E].
  exists m. split; [done|].
  by apply (read_mesh_explicit_normal_index reader_faces square_shape
              face_appearance m).
Defined.

(** X14: the material of a mesh is the entry of the reader's material list
    at the material index of the appearance, counted from the end when the
    index is negative: for the index -1, which stands for no material, the
    mesh gets the last material of the model; with an empty material list no
    mesh is read. *)
Theorem read_mesh_material_index {scalar : Type}
    (self : VRMLReader scalar) (sdata : ShapeInfo scalar)
    (adata : AppearanceInfo scalar) :
  getitem (_hrpapperances self) (appearanceIndex sdata) = Ok adata →
  (∀ m, read_mesh self sdata = Ok m →
        ∃ mat, getitem (_materials self) (materialIndex adata) = Ok mat ∧
               material m = Some mat) ∧
  (materialIndex adata = (-1)%Z →
   ∀ m, read_mesh self sdata = Ok m →
        material m = last (_materials self) ∧ _materials self ≠ []) ∧
  (_materials self = [] → ∀ m, read_mesh self sdata ≠ Ok m).
Proof.
  intros Hadata.
  assert (∀ m, read_mesh self sdata = Ok m →
        ∃ mat, getitem (_materials self) (materialIndex adata) = Ok mat ∧
               material m = Some mat) as Hmat.
  { intros m Hm. unfold read_mesh in Hm.
    apply bind_Ok in Hm as (v & _ & Hm).
    apply bind_Ok in Hm as (vi & _ & Hm).
    rewrite Hadata in Hm. simpl in Hm.
    apply bind_Ok in Hm as (n & _ & Hm).
    apply bind_Ok in Hm as (ni & _ & Hm).
    apply bind_Ok in Hm as (mat & Hmat & [= <-]). by exists mat. }
  split_and!; [done|..].
  - intros Hidx m Hm. destruct (Hmat m Hm) as (mat & Hget & ->).
    rewrite Hidx in Hget. apply getitem_last in Hget. split; [done|].
    intros Heq. by rewrite Heq in Hget.
  - intros Hnil m Hm. destruct (Hmat m Hm) as (mat & Hget & _).
    rewrite Hnil in Hget. unfold getitem in Hget. simpl in Hget.
    repeat case_match; done.
Qed.

(** The faces of the square have the material index -1 and get the second
    of the two materials. *)
Lemma read_mesh_material_index_witness :
  ∃ m, read_mesh reader_faces square_shape = Ok m ∧
       material_name <$> material m = Some "material-1".
Proof.
  destruct (read_mesh reader_faces square_shape) as [m|e] eqn:E;
    [|by vm_compute in E].
  exists m. split; [done|].
  destruct (read_mesh_material_index reader_faces square_shape
              face_appearance eq_refl) as (_ & Hlast & _).
  destruct (Hlast eq_refl m E) as [-> _]. by vm_compute.
Defined.

(** ** The COLLADA writer and its document *)

Section WriterState.
Context {scalar : Type}.
Context (nonzero : scalar → bool) (uuid1 : nat → string).
Implicit Types (self : ColladaWriter scalar) (d : Data scalar).

Lemma Data_nested_ind (P : Data scalar → Prop) :
  (∀ m cs, Forall P cs → P (MeshTransformData m cs)) →
  (∀ md, P (OfMeshData md)) → P PyNone → ∀ d, P d.
Proof.
  intros Hmt Hmesh Hnone. fix IH 1. intros [m cs|md|].
  - apply Hmt. induction cs as [|c cs IHcs]; constructor; [apply IH|apply IHcs].
  - apply Hmesh.
  - apply Hnone.
Qed.

(** A triangle set that is created holds what it was given. *)
Lemma createTriangleSet_Ok (srcs : list (FloatSource scalar))
    (indices : list (list Z)) inputs (mat : string) ts :
  createTriangleSet srcs indices inputs mat = Ok ts →
  ts = {| ts_indices := indices; input_list := inputs; ts_material := mat |}.
Proof.
  unfold createTriangleSet. intros (res & _ & H)%bind_Ok.
  case_decide; [|done]. case_decide; [|done].
  by apply bind_Ok in H as (u & _ & [= <-]).
Qed.

(** A mesh is converted only past the test of its normal array with the
    answer false: the geometry has the vertex source alone, and its
    triangle set has the flattened vertex index and the one input. *)
Lemma convert_mesh_Ok_inv self (md : MeshData scalar) o self' :
  convert_mesh nonzero uuid1 self md = Ok (o, self') →
  let name := "shape-" +:+ uuid1 (uuids_drawn self) in
  let inputs := [(0, "VERTEX", "#" +:+ (name +:+ "-vertex"))] in
  let indices := index_stream (reshape_row (vertex_index md)) in
  ∃ vsource g,
    FloatSource_new (name +:+ "-vertex") (reshape_row (vertex md))
      ["X"; "Y"; "Z"] = Ok vsource ∧
    normal_truth nonzero md = Ok false ∧
    createTriangleSet [vsource] indices inputs "materialref"
    = Ok {| ts_indices := indices; input_list := inputs;
            ts_material := "materialref" |} ∧
    g = {| geometry_id := "geometry0"; geometry_name := name;
           sources := [vsource];
           geometry_primitives :=
             [{| ts_indices := indices; input_list := inputs;
                 ts_material := "materialref" |}] |} ∧
    o = OutNode_Geometry g ["materialref"] ∧
    self' = {| geometries := geometries self ++ [g];
               uuids_drawn := S (uuids_drawn self) |}.
Proof.
  unfold convert_mesh. cbn [draw_uuid fst snd geometries uuids_drawn].
  intros (v & Hv & (b & Hb & H)%bind_Ok)%bind_Ok.
  destruct b.
  - apply normal_truth_true in Hb as (a & x & Ha & Hx & _).
    rewrite Ha in H. rewrite (FloatSource_new_single _ a x Hx) in H.
    by apply bind_Ok in H as (? & ? & _).
  - cbn [bind] in H. apply bind_Ok in H as (ts & Hts & [= <- <-]).
    pose proof (createTriangleSet_Ok _ _ _ _ _ Hts) as ->.
    eexists v, _. by split_and!.
Qed.

(** A mesh that converts adds one geometry, named after the identifier it
    drew, to the document. *)
Lemma convert_mesh_state self (md : MeshData scalar) o self' :
  convert_mesh nonzero uuid1 self md = Ok (o, self') →
  ∃ g, o = OutNode_Geometry g ["materialref"] ∧
       geometries self' = geometries self ++ [g] ∧
       geometry_id g = "geometry0" ∧
       geometry_name g = "shape-" +:+ uuid1 (uuids_drawn self) ∧
       uuids_drawn self' = S (uuids_drawn self).
Proof.
  intros (v & g & _ & _ & _ & -> & -> & ->)%convert_mesh_Ok_inv.
  eexists. by split_and!.
Qed.

(** The loop over the children of a transform node, as the induction
    needs it. *)
Lemma convertchild_effect_children (cs : list (Data scalar))
    (loop : ColladaWriter scalar → list (Data scalar) →
            result (list (OutNode scalar) * ColladaWriter scalar)) :
  (∀ s, loop s [] = Ok ([], s)) →
  (∀ s c l, loop s (c :: l)
            = (do r <- ColladaWriter_convertchild nonzero uuid1 s c;
               do rest <- loop r.2 l;
               Ok (match r.1 with
                   | Some cn => cn :: rest.1
                   | None => rest.1
                   end, rest.2))) →
  Forall (λ d, ∀ self r,
            ColladaWriter_convertchild nonzero uuid1 self d = Ok r →
            writer_effect d self r) cs →
  ∀ s r, loop s cs = Ok r →
    ∃ new, geometries r.2 = geometries s ++ new ∧
           length new = sum_list (count_meshes <$> cs) ∧
           Forall (λ g, geometry_id g = "geometry0") new ∧
           uuids_drawn r.2 = uuids_drawn s + sum_list (count_named <$> cs).
Proof.
  intros Hnil Hcons Hcs. induction Hcs as [|c cs Hc _ IH]; intros s r.
  - rewrite Hnil. intros [= <-]. exists []. simpl.
    rewrite app_nil_r. split_and!; [done|done|constructor|lia].
  - rewrite Hcons.
    intros (rc & Hrc & (rest & Hrest & [= <-])%bind_Ok)%bind_Ok.
    destruct (Hc _ _ Hrc) as (new1 & Hg1 & Hl1 & Hid1 & Hu1 & _).
    destruct (IH _ _ Hrest) as (new2 & Hg2 & Hl2 & Hid2 & Hu2).
    exists (new1 ++ new2). rewrite !fmap_cons. cbn [snd sum_list sum_list_with].
    rewrite Hg2, Hg1, Hu2, Hu1, length_app, Hl1, Hl2, app_assoc.
    split_and!; [done|done|by apply Forall_app|unfold id; lia].
Qed.

(** What a conversion does to the writer. *)
Lemma convertchild_effect d self r :
  ColladaWriter_convertchild nonzero uuid1 self d = Ok r →
  writer_effect d self r.
Proof.
  revert self r. induction d as [m cs IH|md|] using Data_nested_ind;
    intros self r.
  - cbn [ColladaWriter_convertchild]. unfold draw_uuid.
    intros (rl & Hloop & [= <-])%bind_Ok.
    eapply convertchild_effect_children in Hloop; [|done|done|exact IH].
    destruct Hloop as (new & Hg & Hl & Hid & Hu).
    exists new. cbn [fst snd count_meshes count_named] in *.
    rewrite Hg, Hu. simpl. split_and!; [done|done|done|lia|done].
  - simpl. intros ([o self'] & Hm & [= <-])%bind_Ok.
    apply convert_mesh_state in Hm as (g & -> & Hg & Hid & _ & Hu).
    exists [g]. simpl. rewrite Hg, Hu.
    split_and!; [done|done|by repeat constructor|lia|done].
  - simpl. intros [= <-]. exists []. simpl. rewrite app_nil_r.
    split_and!; [done|done|constructor|lia|done].
Qed.

End WriterState.

(** X15: what converting data does to the COLLADA writer.  A conversion
    that returns appends one geometry per mesh of the data to the document,
    every one of them with the same id ['geometry0'], and draws one
    identifier for each transform node and each mesh; it returns [None]
    exactly for data that is neither a transform node nor a mesh. *)
Theorem ColladaWriter_convertchild_effect {scalar : Type}
    (nonzero : scalar → bool) (uuid1 : nat → string)
    (self self' : ColladaWriter scalar) (d : Data scalar)
    (o : option (OutNode scalar)) :
  ColladaWriter_convertchild nonzero uuid1 self d = Ok (o, self') →
  ∃ new, geometries self' = geometries self ++ new ∧
         length new = count_meshes d ∧
         Forall (λ g, geometry_id g = "geometry0") new ∧
         uuids_drawn self' = uuids_drawn self + count_named d ∧
         (o = None ↔ d = PyNone).
Proof. intros H. by apply convertchild_effect in H. Qed.

(** The two meshes of [data_sample] give two geometries with one id. *)
Lemma ColladaWriter_convertchild_effect_witness :
  ∃ o self', ColladaWriter_convertchild nonzeroZ uuid0 writer0 data_sample
             = Ok (o, self') ∧
             geometry_id <$> geometries self' = ["geometry0"; "geometry0"] ∧
             uuids_drawn self' = 4.
Proof.
  destruct (ColladaWriter_convertchild nonzeroZ uuid0 writer0 data_sample)
    as [[o self']|e] eqn:E; [|by vm_compute in E].
  destruct (ColladaWriter_convertchild_effect _ _ _ _ _ _ E)
    as (new & Hg & Hl & Hid & Hu & _).
  exists o, self'. split; [done|]. split; [|done].
  rewrite Hg. simpl in *.
  destruct new as [|g1 [|g2 [|g3 new]]]; try done.
  apply Forall_cons in Hid as [H1 Hid]. apply Forall_cons in Hid as [H2 _].
  simpl. by rewrite H1, H2.
Defined.

(** X16: [write] starts a fresh document.  The geometries of the document
    are those of the data written, one per mesh, whatever the writer wrote
    before, and the root node of the scene has one child, the node of the
    data; data that is neither a transform node nor a mesh is not written:
    building the root node raises [AttributeError]. *)
Theorem ColladaWriter_write_document {scalar : Type}
    (nonzero : scalar → bool) (uuid1 : nat → string)
    (self : ColladaWriter scalar) :
  (∀ data_ doc self',
     ColladaWriter_write nonzero uuid1 self data_ = Ok (doc, self') →
     length (doc_geometries doc) = count_meshes data_ ∧
     geometries self' = doc_geometries doc ∧
     Forall (λ g, geometry_id g = "geometry0") (doc_geometries doc) ∧
     uuids_drawn self' = uuids_drawn self + count_named data_ ∧
     data_ ≠ PyNone ∧
     ∃ node, doc_root_children doc = [node] ∧
             ColladaWriter_convertchild nonzero uuid1
               {| geometries := []; uuids_drawn := uuids_drawn self |} data_
             = Ok (Some node, self')) ∧
  ColladaWriter_write nonzero uuid1 self PyNone = Raise "AttributeError".
Proof.
  split; [|done]. intros data_ doc self'. unfold ColladaWriter_write.
  intros ([o w] & Hconv & H)%bind_Ok. cbn [fst snd] in H.
  destruct o as [node|]; [|done]. injection H as <- <-.
  pose proof Hconv as Heff.
  apply convertchild_effect in Heff as (new & Hg & Hl & Hid & Hu & Ho).
  simpl in *. rewrite Hg. split_and!; [done..| |by exists node].
  intros Hnone. by apply Ho in Hnone.
Qed.

(** A writer that has written before writes [data_sample] with its two
    geometries only. *)
Lemma ColladaWriter_write_document_witness :
  ∃ doc self', ColladaWriter_write nonzeroZ uuid0 writer_used data_sample
               = Ok (doc, self') ∧
               length (doc_geometries doc) = 2 ∧ uuids_drawn self' = 11.
Proof.
  destruct (ColladaWriter_write nonzeroZ uuid0 writer_used data_sample)
    as [[doc self']|e] eqn:E; [|by vm_compute in E].
  destruct (proj1 (ColladaWriter_write_document _ _ _) _ _ _ E)
    as (Hl & _ & _ & Hu & _).
  by exists doc, self'.
Defined.

(** ** Index streams *)

Lemma index_stream_row (row : list Z) : index_stream [row] = [row].
Proof.
  unfold index_stream, reshape_row, transpose. f_equal.
  assert (column [row] <$> seq 0 (length row) = (λ x, [x]) <$> row) as ->.
  { apply list_eq. intros i. rewrite !list_lookup_fmap.
    destruct (decide (i < length row)) as [Hi|Hi].
    - rewrite lookup_seq_lt by done.
      destruct (lookup_lt_is_Some_2 row i Hi) as [v Hv].
      unfold column. simpl. by rewrite Hv.
    - rewrite lookup_seq_ge by lia. by rewrite (lookup_ge_None_2 row i) by lia. }
  induction row as [|x row IH]; [done|].
  rewrite fmap_cons. cbn [concat]. by rewrite IH.
Qed.

Section TriangleSets.
Context {scalar : Type}.
Context (nonzero : scalar → bool) (uuid1 : nat → string).

Lemma concat_reshape_row {A : Type} (a : list (list A)) :
  concat (reshape_row a) = concat a.
Proof. unfold reshape_row. cbn [concat]. apply app_nil_r. Qed.

Lemma index_column_single_aux (p l : list Z) :
  omap (λ corner, (p ++ l) !! (corner * 1 + 0)) (seq (length p) (length l))
  = l.
Proof.
  revert p. induction l as [|x l IH]; intros p; [done|].
  cbn [length seq omap list_omap].
  replace (length p * 1 + 0) with (length p) by lia.
  rewrite list_lookup_middle by done. f_equal.
  specialize (IH (p ++ [x])). rewrite <- app_assoc, length_app in IH.
  cbn [length app] in IH.
  by replace (length p + 1) with (S (length p)) in IH by lia.
Qed.

(** With one index per corner the indices of the first input are the
    whole index array. *)
Lemma index_column_single (flat : list Z) : index_column 1 0 flat = flat.
Proof.
  unfold index_column. rewrite Nat.div_1_r.
  apply (index_column_single_aux []).
Qed.

Lemma foldr_max_le (k d : Z) (l : list Z) :
  (k ≤ foldr Z.max d l)%Z ↔ (k ≤ d)%Z ∨ Exists (λ i, (k ≤ i)%Z) l.
Proof.
  induction l as [|x l IH]; cbn [foldr].
  - rewrite Exists_nil. tauto.
  - rewrite Exists_cons, Z.max_le_iff, IH. tauto.
Qed.

(** The largest index is out of range exactly when some index is. *)
Lemma max_index_le (k : Z) (l : list Z) :
  l ≠ [] → (k ≤ max_index l)%Z ↔ Exists (λ i, (k ≤ i)%Z) l.
Proof.
  destruct l as [|x l]; [done|]. intros _. unfold max_index.
  cbn [head default]. rewrite foldr_max_le, Exists_cons. tauto.
Qed.

Lemma FloatSource_new_Ok id (data_ : list (list scalar)) comps src :
  FloatSource_new id data_ comps = Ok src →
  source_id src = id ∧ components src = comps ∧
  concat (source_data src) = concat data_ ∧
  length (source_data src) = length (concat data_) `div` length comps ∧
  length (concat data_) `mod` length comps = 0.
Proof.
  unfold FloatSource_new. case_decide as H; [|done]. intros [= <-].
  destruct H as [Hc Hmod]. cbn [source_id components source_data].
  split_and!; [done|done| |by rewrite length_rows|done].
  rewrite concat_rows. apply take_ge.
  pose proof (Nat.div_mod_eq (length (concat data_)) (length comps)). lia.
Qed.

(** The triangle set of a geometry whose one source is the vertex source:
    the number of indices must be a multiple of three, and no index may
    reach the number of rows of the source. *)
Lemma createTriangleSet_vertex (vsource : FloatSource scalar) (c : ascii)
    (id : string) (flat : list Z) (mat : string) :
  source_id vsource = String c id → length (components vsource) = 3 →
  let inputs := [(0, "VERTEX", String "#"%char (String c id))] in
  createTriangleSet [vsource] [flat] inputs mat =
  if decide (length flat `mod` 3 = 0) then
    if decide (Exists (λ i, (Z.of_nat (length (source_data vsource)) ≤ i)%Z)
                 flat)
    then Raise "DaeMalformedError"
    else Ok {| ts_indices := [flat]; input_list := inputs;
               ts_material := mat |}
  else Raise "ValueError".
Proof.
  intros Hid Hcomp inputs. unfold createTriangleSet, inputs.
  cbn [for_each fst snd resolve_input foldl].
  rewrite decide_True by done. cbn [bind app fmap list_fmap fst snd].
  rewrite decide_True by (apply list_elem_of_here).
  cbn [foldr Nat.max concat]. rewrite app_nil_r.
  replace (3 * 1) with 3 by done.
  destruct (decide (length flat `mod` 3 = 0)) as [Hmod|Hmod]; [|done].
  destruct (decide (0 < length flat)) as [Hpos|Hpos].
  - unfold check_input.
    change (filter (λ i : nat * string * FloatSource scalar, i.1.2 = "VERTEX")
              [(0, "VERTEX", vsource)]) with [(0, "VERTEX", vsource)].
    change (filter (λ i : nat * string * FloatSource scalar, i.1.2 = "NORMAL")
              [(0, "VERTEX", vsource)])
      with (@nil (nat * string * FloatSource scalar)).
    cbn [fst snd]. rewrite index_column_single. unfold checkSource.
    assert (flat ≠ []) as Hne by (intros ->; simpl in Hpos; lia).
    destruct (decide (Exists _ flat)) as [Hex|Hex].
    + rewrite decide_True by (by apply max_index_le). done.
    + rewrite decide_False by (by rewrite max_index_le).
      by rewrite decide_True by done.
  - assert (flat = []) as -> by (destruct flat; [done|simpl in Hpos; lia]).
    cbn [bind]. rewrite decide_False; [done|]. by intros ?%Exists_nil.
Qed.

(** The conversion of a mesh whose normal array tests false. *)
Lemma convert_mesh_no_normal (self : ColladaWriter scalar)
    (m : MeshData scalar) :
  normal_truth nonzero m = Ok false →
  let name := "shape-" +:+ uuid1 (uuids_drawn self) in
  let flat := concat (vertex_index m) in
  let n := size_of (vertex m) in
  let g := {| geometry_id := "geometry0"; geometry_name := name;
              sources :=
                [{| source_id := name +:+ "-vertex";
                    source_data := rows (n `div` 3) 3 (concat (vertex m));
                    components := ["X"; "Y"; "Z"] |}];
              geometry_primitives :=
                [{| ts_indices := [flat];
                    input_list :=
                      [(0, "VERTEX", "#" +:+ (name +:+ "-vertex"))];
                    ts_material := "materialref" |}] |} in
  convert_mesh nonzero uuid1 self m =
  if decide (n `mod` 3 = 0) then
    if decide (length flat `mod` 3 = 0) then
      if decide (Exists (λ i, (Z.of_nat (n `div` 3) ≤ i)%Z) flat)
      then Raise "DaeMalformedError"
      else Ok (OutNode_Geometry g ["materialref"],
               {| geometries := geometries self ++ [g];
                  uuids_drawn := S (uuids_drawn self) |})
    else Raise "ValueError"
  else Raise "ValueError".
Proof.
  intros Htruth name flat n g. unfold convert_mesh.
  cbn [draw_uuid fst snd geometries uuids_drawn]. fold name.
  unfold FloatSource_new at 1. rewrite !concat_reshape_row. cbn [length].
  fold (size_of (vertex m)). fold n.
  destruct (decide (n `mod` 3 = 0)) as [Hn|Hn].
  - rewrite decide_True by (split; [lia|done]). cbn [bind].
    rewrite Htruth. cbn [bind]. unfold reshape_row at 1.
    rewrite index_stream_row. fold flat.
    rewrite (createTriangleSet_vertex _ "s"%char
               ("hape-" +:+ uuid1 (uuids_drawn self) +:+ "-vertex")
               flat "materialref") by done.
    cbn [source_data]. rewrite length_rows.
    destruct (decide (length flat `mod` 3 = 0)); [|done].
    by destruct (decide (Exists _ flat)).
  - rewrite decide_False; [done|]. by intros [_ ?].
Qed.

(** A mesh without normals whose arrays hold whole vertices and whole
    triangles is written when its indices are below the number of
    vertices, and refused when one is not. *)
Lemma convert_mesh_bounds (self : ColladaWriter scalar) (m : MeshData scalar)
    (vs : list scalar) (ts : list Z) :
  normal_truth nonzero m = Ok false →
  concat (vertex m) = vs → concat (vertex_index m) = ts →
  length vs `mod` 3 = 0 → length ts `mod` 3 = 0 →
  (Forall (λ i, (i < Z.of_nat (length vs `div` 3))%Z) ts →
   ∃ g self', convert_mesh nonzero uuid1 self m
              = Ok (OutNode_Geometry g ["materialref"], self') ∧
              length (sources g) = 1 ∧
              ts_indices <$> geometry_primitives g = [[ts]]) ∧
  (Exists (λ i, (Z.of_nat (length vs `div` 3) ≤ i)%Z) ts →
   convert_mesh nonzero uuid1 self m = Raise "DaeMalformedError").
Proof.
  intros Htruth Hvs Hts Hlv Hlt.
  rewrite (convert_mesh_no_normal self m Htruth). unfold size_of.
  rewrite Hvs, Hts. rewrite !decide_True by done. split.
  - intros Hall. rewrite decide_False.
    + eexists _, _. by split_and!.
    + intros Hex. apply Exists_exists in Hex as (i & Hi & Hle).
      rewrite Forall_forall in Hall. specialize (Hall i Hi).
      cbv beta in Hall, Hle. apply (Z.lt_irrefl i). by eapply Z.lt_le_trans.
  - intros Hex. by rewrite decide_True.
Qed.

End TriangleSets.

(** X17: normals never reach the document.  A mesh is converted only when
    the test of its normal array answers false: the geometry then has the
    vertex source alone and a triangle set with the flattened vertex index
    and the one input of the positions.  A normal array of a single
    non-zero element passes the test and is refused as a source of X, Y, Z
    rows with [ValueError]. *)
Theorem convert_mesh_never_merges {scalar : Type} (nonzero : scalar → bool)
    (uuid1 : nat → string) (self : ColladaWriter scalar)
    (m : MeshData scalar) :
  (∀ a x, normal m = Some a → concat a = [x] → nonzero x = true →
          convert_mesh nonzero uuid1 self m = Raise "ValueError") ∧
  (∀ o self', convert_mesh nonzero uuid1 self m = Ok (o, self') →
     normal_truth nonzero m = Ok false ∧
     ∃ g, o = OutNode_Geometry g ["materialref"] ∧
          source_id <$> sources g
          = ["shape-" +:+ uuid1 (uuids_drawn self) +:+ "-vertex"] ∧
          (λ src, concat (source_data src)) <$> sources g
          = [concat (vertex m)] ∧
          ts_indices <$> geometry_primitives g
          = [[concat (vertex_index m)]] ∧
          input_list <$> geometry_primitives g
          = [[(0, "VERTEX",
               "#" +:+ ("shape-" +:+ uuid1 (uuids_drawn self) +:+ "-vertex"))]]).
Proof.
  split.
  - intros a x Ha Hx Hnz. unfold convert_mesh.
    cbn [draw_uuid fst snd geometries uuids_drawn].
    destruct (FloatSource_new _ (reshape_row (vertex m)) _) as [v|e] eqn:Ev.
    + cbn [bind].
      assert (normal_truth nonzero m = Ok true) as ->.
      { unfold normal_truth, array_bool. by rewrite Ha, Hx, Hnz. }
      cbn [bind]. rewrite Ha.
      by rewrite (FloatSource_new_single _ a x Hx).
    + by rewrite (FloatSource_new_Raise _ _ _ _ Ev).
  - intros o self' H.
    apply convert_mesh_Ok_inv in H
      as (v & g & Hv & Htruth & _ & -> & -> & _).
    split; [done|]. eexists. split; [done|].
    apply FloatSource_new_Ok in Hv as (Hid & _ & Hdata & _).
    cbn [sources geometry_primitives fmap list_fmap ts_indices input_list].
    rewrite Hid, Hdata, concat_reshape_row.
    unfold reshape_row. by rewrite index_stream_row.
Qed.

(** [mesh_single], whose normal array is the one element 1, is refused;
    [mesh_plain], which has no normal array, is written with its three
    vertices and its one triangle. *)
Lemma convert_mesh_never_merges_witness :
  convert_mesh nonzeroZ uuid0 writer0 mesh_single = Raise "ValueError" ∧
  ∃ g self', convert_mesh nonzeroZ uuid0 writer0 mesh_plain
             = Ok (OutNode_Geometry g ["materialref"], self') ∧
             ts_indices <$> geometry_primitives g = [[[0; 1; 2]]]%Z ∧
             length (sources g) = 1.
Proof.
  split.
  - by apply (proj1 (convert_mesh_never_merges nonzeroZ uuid0 writer0
                       mesh_single) [[1]]%Z 1%Z).
  - destruct (convert_mesh nonzeroZ uuid0 writer0 mesh_plain)
      as [[o self']|e] eqn:E; [|by vm_compute in E].
    destruct (proj2 (convert_mesh_never_merges nonzeroZ uuid0 writer0
                       mesh_plain) o self' E)
      as (_ & g & -> & Hsrc & _ & Hidx & _).
    exists g, self'. split_and!; [done|done|].
    by rewrite <- (length_fmap source_id), Hsrc.
Defined.

(** ** From a reader to the COLLADA writer *)

(** X18: a mesh read from VRML and the COLLADA writer.  The VRML reader
    always gives a mesh a normal array.  If the appearance has any normals
    the array has at least three elements and the writer raises
    [ValueError] on the mesh.  A mesh read without normals has an empty
    normal array, which tests false; it is written, as a geometry with the
    vertex source alone, when every triangle index is below the number of
    vertices, and the writer raises [DaeMalformedError] when some index is
    not: the bound that the reader does not check is checked here, from
    above only. *)
Theorem vrml_mesh_to_collada {scalar : Type} (nonzero : scalar → bool)
    (uuid1 : nat → string) (self : VRMLReader scalar)
    (w : ColladaWriter scalar) (sdata : ShapeInfo scalar)
    (adata : AppearanceInfo scalar) (m : MeshData scalar) :
  getitem (_hrpapperances self) (appearanceIndex sdata) = Ok adata →
  read_mesh self sdata = Ok m →
  let nvertices := Z.of_nat (length (vertices sdata) `div` 3) in
  (normals adata ≠ [] →
   convert_mesh nonzero uuid1 w m = Raise "ValueError") ∧
  (normals adata = [] →
   Forall (λ i, (i < nvertices)%Z) (triangles sdata) →
   ∃ g w', convert_mesh nonzero uuid1 w m
           = Ok (OutNode_Geometry g ["materialref"], w') ∧
           length (sources g) = 1 ∧
           ts_indices <$> geometry_primitives g = [[triangles sdata]]) ∧
  (normals adata = [] →
   Exists (λ i, (nvertices ≤ i)%Z) (triangles sdata) →
   convert_mesh nonzero uuid1 w m = Raise "DaeMalformedError").
Proof.
  intros Hadata Hm nvertices. unfold read_mesh in Hm.
  apply bind_Ok in Hm as (v & Hv & Hm).
  apply bind_Ok in Hm as (vi & Hvi & Hm).
  rewrite Hadata in Hm. simpl in Hm.
  apply bind_Ok in Hm as (n & Hn & Hm).
  apply bind_Ok in Hm as (ni & _ & Hm).
  apply bind_Ok in Hm as (mat & _ & [= <-]).
  pose proof (reshape_Ok_concat _ _ _ _ Hn) as Hcn.
  pose proof (reshape_Ok_concat _ _ _ _ Hv) as Hcv.
  pose proof (reshape_Ok_concat _ _ _ _ Hvi) as Hcvi.
  unfold reshape3, reshape in Hv, Hvi.
  case_decide as Hlv; [|done]. case_decide as Hlvi; [|done].
  match goal with
  | |- context [convert_mesh _ _ _ ?m0] =>
    pose proof (λ Htruth, convert_mesh_bounds nonzero uuid1 w m0
                  (vertices sdata) (triangles sdata) Htruth Hcv Hcvi)
      as Hwrite
  end.
  split_and!.
  - intros Hne.
    apply (convert_mesh_large_normal nonzero uuid1 w _ n); [done|].
    unfold size_of. rewrite Hcn.
    unfold reshape3, reshape in Hn. case_decide as Hl; [|done].
    destruct (normals adata) as [|a1 [|a2 [|a3 t]]]; simpl in *; try done; lia.
  - intros Hnil. rewrite Hnil in Hcn. apply Hwrite.
    + unfold normal_truth, array_bool. cbn [normal]. by rewrite Hcn.
    + rewrite <- Hlvi. apply Nat.Div0.mod_mul.
    + rewrite <- Hlv. apply Nat.Div0.mod_mul.
  - intros Hnil. rewrite Hnil in Hcn. apply Hwrite.
    + unfold normal_truth, array_bool. cbn [normal]. by rewrite Hcn.
    + rewrite <- Hlvi. apply Nat.Div0.mod_mul.
    + rewrite <- Hlv. apply Nat.Div0.mod_mul.
Qed.

(** The square with its four normals is not written; without normals it
    is, and with the index 7 in its second triangle it is refused. *)
Lemma vrml_mesh_to_collada_witness :
  (∃ m, read_mesh reader_square square_shape = Ok m ∧
        convert_mesh nonzeroZ uuid0 writer0 m = Raise "ValueError") ∧
  (∃ m g w', read_mesh reader_bare square_shape = Ok m ∧
             convert_mesh nonzeroZ uuid0 writer0 m
             = Ok (OutNode_Geometry g ["materialref"], w')) ∧
  (∃ m, read_mesh reader_bare
          (with_triangles square_shape [0; 1; 2; 0; 2; 7]%Z) = Ok m ∧
        convert_mesh nonzeroZ uuid0 writer0 m = Raise "DaeMalformedError").
Proof.
  split_and!.
  - destruct (read_mesh reader_square square_shape) as [m|e] eqn:E;
      [|by vm_compute in E].
    exists m. split; [done|].
    by apply (proj1 (vrml_mesh_to_collada nonzeroZ uuid0 reader_square writer0
                       square_shape square_appearance m eq_refl E)).
  - destruct (read_mesh reader_bare square_shape) as [m|e] eqn:E;
      [|by vm_compute in E].
    destruct (proj1 (proj2 (vrml_mesh_to_collada nonzeroZ uuid0 reader_bare
                              writer0 square_shape bare_appearance m eq_refl E))
                eq_refl) as (g & w' & Hconv & _).
    + apply (bool_decide_unpack _). by vm_compute.
    + by exists m, g, w'.
  - destruct (read_mesh reader_bare
                (with_triangles square_shape [0; 1; 2; 0; 2; 7]%Z))
      as [m|e] eqn:E; [|by vm_compute in E].
    exists m. split; [done|].
    apply (proj2 (proj2 (vrml_mesh_to_collada nonzeroZ uuid0 reader_bare
                           writer0
                           (with_triangles square_shape [0; 1; 2; 0; 2; 7]%Z)
                           bare_appearance m eq_refl E)) eq_refl).
    apply (bool_decide_unpack _). by vm_compute.
Defined.

(** X19: a primitive read from COLLADA and written back.  No primitive
    that pycollada delivers with its normals, or without any, goes through
    reader and writer: without normals the reader raises
    [AttributeError]; with a normal array of more than one element the
    reader returns a mesh with that array, and the writer raises
    [ValueError] on it.  Reader and writer both return only for a normal
    array of at most one element. *)
Theorem collada_primitive_round_trip {scalar : Type}
    (abspath_join : option string → string → string)
    (nonzero : scalar → bool) (uuid1 : nat → string)
    (reader : ColladaReader) (w : ColladaWriter scalar)
    (p : Primitive scalar) :
  (p_normal p = None →
   convert_primitive abspath_join reader p = Raise "AttributeError") ∧
  (∀ a, p_normal p = Some a → 1 < size_of a →
        (texcoordset p ≠ [] → texcoord_indexset p ≠ []) →
        ∃ sm, convert_primitive abspath_join reader p = Ok sm ∧
              normal sm = Some a ∧
              convert_mesh nonzero uuid1 w sm = Raise "ValueError") ∧
  (∀ sm r, convert_primitive abspath_join reader p = Ok sm →
           convert_mesh nonzero uuid1 w sm = Ok r →
           ∃ a, p_normal p = Some a ∧ (size_of a ≤ 1)%nat).
Proof.
  split_and!.
  - apply convert_primitive_no_normal.
  - intros a Ha Hsize Htex.
    destruct (convert_primitive_Ok abspath_join reader p a Ha Htex)
      as (sm & Hsm & _ & _ & Hn & _).
    rewrite decide_True in Hn by lia.
    exists sm. split_and!; [done..|].
    by apply (convert_mesh_large_normal nonzero uuid1 w sm a).
  - intros sm r Hsm Hr. destruct (p_normal p) as [a|] eqn:Ha.
    + exists a. split; [done|].
      destruct (decide (size_of a ≤ 1)%nat) as [|Hbig]; [done|exfalso].
      unfold convert_primitive in Hsm. rewrite Ha in Hsm.
      rewrite decide_True in Hsm by lia. cbn [bind] in Hsm.
      apply bind_Ok in Hsm as (uv & _ & [= <-]).
      rewrite (convert_mesh_large_normal nonzero uuid1 w _ a) in Hr;
        [done|done|lia].
    + by rewrite (convert_primitive_no_normal abspath_join reader p Ha)
        in Hsm.
Qed.

(** The triangle with one normal is read and not written; the triangle
    without normals is not read. *)
Lemma collada_primitive_round_trip_witness :
  (∃ sm, convert_primitive abspath_join0 reader_wood plain_primitive = Ok sm ∧
         convert_mesh nonzeroZ uuid0 writer0 sm = Raise "ValueError") ∧
  convert_primitive abspath_join0 reader_wood bare_primitive
  = Raise "AttributeError".
Proof.
  split.
  - destruct (proj1 (proj2 (collada_primitive_round_trip abspath_join0
                              nonzeroZ uuid0 reader_wood writer0
                              plain_primitive)) [[0; 0; 1]]%Z)
      as (sm & Hsm & _ & Hw); [done|vm_compute; lia|done|].
    by exists sm.
  - by apply (proj1 (collada_primitive_round_trip abspath_join0 nonzeroZ
                       uuid0 reader_wood writer0 bare_primitive)).
Defined.

(** ** The COLLADA reader *)

Section ColladaReaderExtras.
Context {scalar : Type}.
Context (abspath_join : option string → string → string).

Lemma resolve_image_no_surface (self : ColladaReader)
    (params : list EffectParam) (image0 : option string) :
  Forall (λ pr, pr = OtherParam) params →
  resolve_image abspath_join self params image0 = image0.
Proof.
  unfold resolve_image. intros H. revert image0.
  induction H as [|pr ps -> _ IH]; intros image0; simpl; [done|]. apply IH.
Qed.

Lemma materials_fold_other (ms : list Material) (tbl : gmap string Material)
    (k : string) :
  k ∉ (material_id <$> ms) →
  foldl (λ tbl m, <[material_id m := m]> tbl) tbl ms !! k = tbl !! k.
Proof.
  revert tbl. induction ms as [|m ms IH]; intros tbl Hk; simpl; [done|].
  rewrite IH.
  - apply lookup_insert_ne. intros Heq. apply Hk. rewrite <- Heq. by left.
  - intros H. apply Hk. by right.
Qed.

Lemma materials_fold_unique (ms : list Material) (tbl : gmap string Material)
    (m : Material) :
  NoDup (material_id <$> ms) → m ∈ ms →
  foldl (λ tbl m, <[material_id m := m]> tbl) tbl ms !! material_id m
  = Some m.
Proof.
  revert tbl. induction ms as [|x ms IH]; intros tbl Hnd Hm.
  - by apply elem_of_nil in Hm.
  - rewrite fmap_cons in Hnd. apply NoDup_cons in Hnd as [Hx Hnd].
    simpl. apply elem_of_cons in Hm as [->|Hm].
    + rewrite materials_fold_other by done. apply lookup_insert_eq.
    + by apply IH.
Qed.

Lemma read_children_loop (self : ColladaReader)
    (nodes : list (SceneNode scalar)) (acc cs : list (Data scalar)) :
  for_each (λ cs n, do cm <- ColladaReader_convertchild abspath_join self n;
                     Ok (match cm with
                         | PyNone => cs
                         | _ => cs ++ [cm]
                         end)) acc nodes = Ok cs →
  ∃ ds, Forall2 (λ n c, ColladaReader_convertchild abspath_join self n = Ok c)
          nodes ds ∧
        cs = acc ++ filter (λ c, is_PyNone c = false) ds.
Proof.
  revert acc. induction nodes as [|n nodes IH]; intros acc; simpl.
  - intros [= <-]. exists []. split; [constructor|by rewrite app_nil_r].
  - intros (st & (cm & Hcm & [= <-])%bind_Ok & Hrest)%bind_Ok.
    destruct (IH _ Hrest) as (ds & Hds & ->).
    exists (cm :: ds). split; [by constructor|].
    destruct cm; (rewrite filter_cons_True by done)
                 || (rewrite filter_cons_False by done);
      by rewrite <- ?app_assoc.
Qed.

End ColladaReaderExtras.

(** The loop over the parameters of an effect: the last surface decides. *)
Lemma resolve_image_surface
    (abspath_join : option string → string → string) (self : ColladaReader)
    (params : list EffectParam) (image0 : option string)
    (before : list EffectParam) (path : string) (after : list EffectParam) :
  params = before ++ Surface path :: after →
  Forall (λ pr, pr = OtherParam) after →
  resolve_image abspath_join self params image0 =
  Some (match _assethandler self with
        | Some handler => handler (abspath_join (_basepath self) path)
        | None => abspath_join (_basepath self) path
        end).
Proof.
  intros -> Hafter.
  unfold resolve_image. rewrite foldl_app. cbn [foldl].
  match goal with
  | |- foldl _ ?x after = _ =>
    pose proof (resolve_image_no_surface abspath_join self after x Hafter)
      as Hrest
  end.
  unfold resolve_image in Hrest. rewrite Hrest.
  by destruct (_assethandler self).
Qed.

(** X20: the image of a mesh.  A primitive that has normals, and an index
    set for its texture coordinates, converts to a mesh whose image
    depends on the materials table.  When the material id of the primitive
    is in the table, the image is decided by the last surface among the
    parameters of the effect of that material: the path of its image
    resolved against the base path, and passed through the asset handler
    if the reader has one; a material without a surface gives no image,
    and so does a material id that is not in the table. *)
Theorem convert_primitive_image {scalar : Type}
    (abspath_join : option string → string → string) (self : ColladaReader)
    (p : Primitive scalar) (a : list (list scalar)) :
  p_normal p = Some a →
  (texcoordset p ≠ [] → texcoord_indexset p ≠ []) →
  ∃ sm, convert_primitive abspath_join self p = Ok sm ∧
        (cr_materials self !! p_material p = None → image sm = None) ∧
        ∀ mat, cr_materials self !! p_material p = Some mat →
          (∀ before path after,
             effect_params mat = before ++ Surface path :: after →
             Forall (λ pr, pr = OtherParam) after →
             image sm =
             Some (match _assethandler self with
                   | Some handler =>
                     handler (abspath_join (_basepath self) path)
                   | None => abspath_join (_basepath self) path
                   end)) ∧
          (Forall (λ pr, pr = OtherParam) (effect_params mat) →
           image sm = None).
Proof.
  intros Ha Htex.
  destruct (convert_primitive_Ok abspath_join self p a Ha Htex)
    as (sm & Hsm & _ & _ & _ & Himg).
  exists sm. split; [done|]. split.
  - intros Hmiss. by rewrite Himg, Hmiss.
  - intros mat Hhit. rewrite Himg, Hhit. split.
    + intros before path after Hparams Hafter.
      by apply (resolve_image_surface _ _ _ _ before path after).
    + apply resolve_image_no_surface.
Qed.

(** The material [wood] has its surface after another parameter; the
    triangle of that material gets the image, the triangle of the unknown
    material [steel] gets none. *)
Lemma convert_primitive_image_witness :
  (∃ sm, convert_primitive abspath_join0 reader_wood plain_primitive = Ok sm ∧
         image sm = Some "/models/wood.png") ∧
  (∃ sm, convert_primitive abspath_join0 reader_wood steel_primitive = Ok sm ∧
         image sm = None).
Proof.
  split.
  - destruct (convert_primitive_image abspath_join0 reader_wood
                plain_primitive [[0; 0; 1]]%Z eq_refl)
      as (sm & Hsm & _ & Hhit); [done|].
    exists sm. split; [done|].
    by rewrite (proj1 (Hhit wood eq_refl) [OtherParam] "wood.png" []
                  eq_refl (Forall_nil_2 _)).
  - destruct (convert_primitive_image abspath_join0 reader_wood
                steel_primitive [[0; 0; 1]]%Z eq_refl)
      as (sm & Hsm & Hmiss & _); [done|].
    exists sm. split; [done|]. by apply Hmiss.
Defined.

(** X21: the scene [read] returns.  Its root is a transform node without a
    matrix whose children are the conversions of the scene nodes, in order,
    those of unknown type left out; a node inside the scene keeps one entry
    per child, [None] for a child of unknown type; and a geometry node
    becomes a transform node with one mesh per primitive. *)
Theorem ColladaReader_read_scene {scalar : Type}
    (abspath_join : option string → string → string) (self : ColladaReader)
    (basepath : string) (assethandler : option (string → string))
    (d : Collada scalar) (data_ : Data scalar) (self' : ColladaReader) :
  ColladaReader_read abspath_join self basepath assethandler d
  = Ok (data_, self') →
  (∃ ds, Forall2 (λ n c, ColladaReader_convertchild abspath_join self' n
                         = Ok c) (scene_nodes d) ds ∧
         data_ = MeshTransformData None
                   (filter (λ c, is_PyNone c = false) ds)) ∧
  (∀ matrix_ (children_ : list (SceneNode scalar)) (c : Data scalar),
     ColladaReader_convertchild abspath_join self' (Node matrix_ children_)
     = Ok c →
     ∃ cs, c = MeshTransformData (Some matrix_) cs ∧
           Forall2 (λ n c, ColladaReader_convertchild abspath_join self' n
                           = Ok c) children_ cs) ∧
  ColladaReader_convertchild abspath_join self' (@OtherNode scalar)
  = Ok PyNone.
Proof.
  unfold ColladaReader_read. intros (cs & Hcs & [= <- <-])%bind_Ok.
  split_and!; [|intros matrix_ children_ c|done].
  - apply read_children_loop in Hcs as (ds & Hds & ->). by exists ds.
  - cbn [ColladaReader_convertchild].
    intros (cs' & Hloop & [= <-])%bind_Ok. exists cs'. split; [done|].
    revert cs' Hloop. induction children_ as [|n ns IH]; intros cs'.
    + intros [= <-]. constructor.
    + intros (cm & Hcm & (rest & Hrest & [= <-])%bind_Ok)%bind_Ok.
      constructor; [done|by apply IH].
Qed.

(** The scene sample: the unknown node at the top is left out, the one
    inside the node is kept. *)
Lemma ColladaReader_read_scene_witness :
  ∃ mesh self',
    ColladaReader_read abspath_join0 ColladaReader_init "/m" None scene_sample
    = Ok (MeshTransformData None
            [MeshTransformData (Some [[1; 0]; [0; 1]]%Z)
               [MeshTransformData None [OfMeshData mesh; OfMeshData mesh];
                PyNone]], self').
Proof.
  destruct (ColladaReader_read abspath_join0 ColladaReader_init "/m" None
              scene_sample) as [[data_ self']|e] eqn:E;
    [|by vm_compute in E].
  destruct (ColladaReader_read_scene _ _ _ _ _ _ _ E) as [(ds & Hds & ->) _].
  apply Forall2_cons_inv_l in Hds as (c1 & ds1 & Hc1 & Hds & ->).
  apply Forall2_cons_inv_l in Hds as (c2 & ds2 & Hc2 & ->%Forall2_nil_inv_l & ->).
  vm_compute in Hc1. injection Hc1 as <-.
  vm_compute in Hc2. injection Hc2 as <-.
  by eexists _, self'.
Defined.

(** X22: the materials table of the reader.  [read] adds the materials of
    the document under their ids and never empties the table: a material of
    the document with a unique id is found under its id, and an id that the
    document does not have keeps the material of an earlier document. *)
Theorem ColladaReader_read_materials {scalar : Type}
    (abspath_join : option string → string → string) (self : ColladaReader)
    (basepath : string) (assethandler : option (string → string))
    (d : Collada scalar) (data_ : Data scalar) (self' : ColladaReader) :
  ColladaReader_read abspath_join self basepath assethandler d
  = Ok (data_, self') →
  _basepath self' = Some basepath ∧
  (NoDup (material_id <$> materials d) →
   ∀ m, m ∈ materials d → cr_materials self' !! material_id m = Some m) ∧
  (∀ k, k ∉ (material_id <$> materials d) →
        cr_materials self' !! k = cr_materials self !! k).
Proof.
  unfold ColladaReader_read. intros (cs & _ & [= _ <-])%bind_Ok.
  cbn [_basepath cr_materials]. split_and!; [done|..].
  - intros Hnd m Hm. by apply materials_fold_unique.
  - intros k Hk. by apply materials_fold_other.
Qed.

(** A reader that knows [wood] still knows it after a document without
    materials. *)
Lemma ColladaReader_read_materials_witness :
  ∃ data_ self',
    ColladaReader_read abspath_join0 reader_wood "/m" None
      {| materials := []; scene_nodes := [GeometryNode [plain_primitive]] |}
    = Ok (data_, self') ∧
    cr_materials self' !! "wood" = Some wood.
Proof.
  destruct (ColladaReader_read abspath_join0 reader_wood "/m" None
              {| materials := [];
                 scene_nodes := [GeometryNode [plain_primitive]] |})
    as [[data_ self']|e] eqn:E; [|by vm_compute in E].
  destruct (ColladaReader_read_materials _ _ _ _ _ _ _ E) as (_ & _ & Hold).
  exists data_, self'. split; [done|].
  rewrite Hold; [by vm_compute|]. simpl. apply not_elem_of_nil.
Defined.


(** ** From the VRML reader to the VRML writer *)

Section Ordered.
Context {scalar : Type}.
Implicit Types (ls : list (LinkModel scalar)) (js : list (JointModel scalar)).
Implicit Types (names : list string).

Lemma ordered_weaken names names' ls js :
  names ⊆ names' → ordered names ls js → ordered names' ls js.
Proof.
  revert names names' js. induction ls as [|l ls IH];
    intros names names' [|j js] Hsub; simpl; try done.
  intros (Hc & Hp & Ht & Hrest). split_and!; [done|by apply Hsub|done|].
  eapply IH; [|exact Hrest].
  intros x [Hx|Hx]%elem_of_app; apply elem_of_app; [left; by apply Hsub|by right].
Qed.

Lemma ordered_app names ls1 js1 ls2 js2 :
  ordered names ls1 js1 →
  ordered (names ++ (link_name <$> ls1)) ls2 js2 →
  ordered names (ls1 ++ ls2) (js1 ++ js2).
Proof.
  revert names js1. induction ls1 as [|l ls1 IH]; intros names [|j js1];
    simpl; try done.
  - intros _. by rewrite app_nil_r.
  - intros (Hc & Hp & Ht & Hrest) H2. split_and!; [done..|].
    apply IH; [done|]. by rewrite <- app_assoc.
Qed.

Lemma ordered_children names ls js :
  ordered names ls js → child <$> js = link_name <$> ls.
Proof.
  revert names js. induction ls as [|l ls IH]; intros names [|j js];
    cbn [ordered]; try done.
  intros (Hc & _ & _ & Hrest). rewrite !fmap_cons, Hc. f_equal. by eapply IH.
Qed.

Lemma ordered_parents names ls js (j : JointModel scalar) :
  ordered names ls js → j ∈ js →
  parent j ∈ names ++ (link_name <$> ls) ∧
  jointType j ∈ [J_FIXED; J_REVOLUTE; J_PRISMATIC].
Proof.
  revert names js. induction ls as [|l ls IH]; intros names [|j0 js];
    cbn [ordered]; try done.
  - intros _ Hj. by apply elem_of_nil in Hj.
  - intros (Hc & Hp & Ht & Hrest) [->|Hj]%elem_of_cons.
    + split; [|done]. apply elem_of_app. by left.
    + destruct (IH _ _ Hrest Hj) as [Hin Hty]. split; [|done].
      rewrite fmap_cons. rewrite <- app_assoc in Hin. exact Hin.
Qed.

Lemma index_of_lt names (s : string) :
  s ∈ names → index_of names s < length names.
Proof.
  induction names as [|a names IH]; intros Hs; simpl.
  - by apply elem_of_nil in Hs.
  - case_decide; [lia|].
    apply elem_of_cons in Hs as [?|Hs]; [congruence|]. apply IH in Hs. lia.
Qed.

Lemma index_of_app names names' (s : string) :
  s ∈ names → index_of (names ++ names') s = index_of names s.
Proof.
  induction names as [|a names IH]; intros Hs; simpl.
  - by apply elem_of_nil in Hs.
  - case_decide; [done|].
    apply elem_of_cons in Hs as [?|Hs]; [congruence|]. by rewrite IH.
Qed.

Lemma index_of_fresh names names' (s : string) :
  s ∉ names → index_of (names ++ s :: names') s = length names.
Proof.
  induction names as [|a names IH]; intros Hs; simpl.
  - by rewrite decide_True.
  - rewrite decide_False.
    + rewrite IH; [done|]. intros H. apply Hs. by right.
    + intros ->. apply Hs. by left.
Qed.

(** Along such links and joints the position of the parent is before the
    position of the child. *)
Lemma ordered_ranked names ls js :
  NoDup (names ++ (link_name <$> ls)) → ordered names ls js →
  Forall (λ j, index_of (names ++ (link_name <$> ls)) (parent j)
               < index_of (names ++ (link_name <$> ls)) (child j)) js.
Proof.
  revert names js. induction ls as [|l ls IH]; intros names [|j js] Hnd;
    cbn [ordered]; try done.
  intros (Hc & Hp & Ht & Hrest). rewrite fmap_cons in *.
  constructor.
  - rewrite Hc, index_of_app by done.
    rewrite index_of_fresh; [by apply index_of_lt|].
    apply NoDup_app in Hnd as (_ & Hdisj & _). intros Hin.
    apply (Hdisj _ Hin). by left.
  - assert (names ++ link_name l :: (link_name <$> ls)
            = (names ++ [link_name l]) ++ (link_name <$> ls)) as Heq
      by by rewrite <- app_assoc.
    rewrite Heq in *. by apply IH.
Qed.

End Ordered.

Section ReaderGrows.
Context {scalar : Type}.
Context (f0 f1 : scalar) (JointModel_new : JointModel scalar).
Context (quaternion_about_axis : scalar → list scalar → list scalar).
Implicit Types (self : VRMLReader scalar).

Lemma grows_refl (names : list string) self : grows names self self.
Proof. exists [], []. by rewrite !app_nil_r. Qed.

Lemma grows_trans (names : list string) self1 self2 self3 :
  grows names self1 self2 → grows names self2 self3 →
  grows names self1 self3.
Proof.
  intros (ls & js & Hl & Hj & Ho) (ls' & js' & Hl' & Hj' & Ho').
  exists (ls ++ ls'), (js ++ js').
  rewrite Hl', Hl, Hj', Hj, !app_assoc. split_and!; [done|done|].
  apply ordered_app; [done|]. eapply ordered_weaken; [|exact Ho'].
  intros x Hx. apply elem_of_app. by left.
Qed.

Lemma for_each_grows {A : Type} (names : list string)
    (body : VRMLReader scalar → A → result (VRMLReader scalar))
    (l : list A) self self' :
  (∀ s x s', body s x = Ok s' → grows names s s') →
  for_each body self l = Ok self' → grows names self self'.
Proof.
  intros Hbody. revert self. induction l as [|x l IH]; intros self; simpl.
  - intros [= <-]. apply grows_refl.
  - intros (s1 & H1 & Hrest)%bind_Ok.
    eapply grows_trans; [by eapply Hbody|by apply IH].
Qed.

Lemma read_joint_type (parent_ child_ : LinkInfo scalar) jm :
  read_joint JointModel_new quaternion_about_axis parent_ child_ = Ok jm →
  jointType jm ∈ [J_FIXED; J_REVOLUTE; J_PRISMATIC].
Proof.
  unfold read_joint.
  intros (jt & Hjt & (angle & _ & [= <-])%bind_Ok)%bind_Ok. simpl.
  repeat case_decide; try done; injection Hjt as <-.
  - by left.
  - right. by left.
  - right. right. by left.
Qed.

(** [readChild] appends the links and the joints of a subtree in the order
    of the tree walk. *)
Lemma readChild_grows depth self self' (parent_ child_ : LinkInfo scalar) :
  readChild f0 f1 JointModel_new quaternion_about_axis depth self
    parent_ child_ = Ok self' →
  grows [li_name parent_] self self'.
Proof.
  revert self self' parent_ child_.
  induction depth as [|d IH]; intros self self' parent_ child_; simpl;
    [done|].
  intros (lm & Hlm & (jm & Hjm & Hloop)%bind_Ok)%bind_Ok.
  apply readLink_name in Hlm.
  pose proof (read_joint_type _ _ _ Hjm) as Hty.
  apply read_joint_names in Hjm as (Hp & Hc & _).
  apply (for_each_grows [li_name child_]) in Hloop.
  - destruct Hloop as (ls & js & Hl & Hj & Ho). simpl in Hl, Hj.
    exists (lm :: ls), (jm :: js). split_and!.
    + by rewrite Hl, <- app_assoc.
    + by rewrite Hj, <- app_assoc.
    + cbn [ordered]. split_and!; [congruence|rewrite Hp; by left|done|].
      eapply ordered_weaken; [|exact Ho].
      intros x ->%list_elem_of_singleton. rewrite Hlm.
      apply elem_of_app. right. by left.
  - intros s c s' (g & _ & Hg)%bind_Ok. by eapply IH.
Qed.

(** The body read from a model without extra joints. *)
Lemma read_ordered depth (b : BodyInfo scalar) (bm : BodyModel scalar) :
  read f0 f1 JointModel_new quaternion_about_axis depth b = Ok bm →
  _get_extraJoints b = [] →
  ∃ rootlink ls, links bm = rootlink :: ls ∧
                 ordered [link_name rootlink] ls (joints bm).
Proof.
  unfold read. cbn [_hrplinks _hrpextrajoints].
  intros (root & Hroot & (lm & Hlm & (self1 & Hself1 & (self2 & Hself2 &
    [= <-])%bind_Ok)%bind_Ok)%bind_Ok)%bind_Ok Hno.
  assert (_hrpextrajoints self1 = _get_extraJoints b) as Hextra.
  { apply (for_each_preserves _hrpextrajoints) in Hself1; [done|].
    intros s c s' _ (g & _ & Hg)%bind_Ok.
    by eapply readChild_extrajoints. }
  rewrite Hextra, Hno in Hself2. simpl in Hself2. injection Hself2 as <-.
  apply (for_each_grows [li_name root]) in Hself1.
  2:{ intros s c s' (g & _ & Hg)%bind_Ok. by eapply readChild_grows. }
  destruct Hself1 as (ls & js & Hl & Hj & Ho). simpl in Hl, Hj.
  apply readLink_name in Hlm.
  exists lm, ls. cbn [links joints]. rewrite Hl, Hj, Hlm. by split.
Qed.

End ReaderGrows.

Section OrderedBody.
Context {scalar : Type}.
Implicit Types (mdata : BodyModel scalar).

Lemma ordered_body_acyclic mdata (rootlink : LinkModel scalar) ls :
  links mdata = rootlink :: ls →
  ordered [link_name rootlink] ls (joints mdata) →
  NoDup (link_name <$> links mdata) → acyclic mdata.
Proof.
  intros Hl Ho Hnd. rewrite Hl, fmap_cons in Hnd.
  apply (ranked_acyclic mdata
           (index_of ([link_name rootlink] ++ (link_name <$> ls)))).
  by apply ordered_ranked.
Qed.

Lemma ordered_body_supported mdata (names : list string) ls :
  ordered names ls (joints mdata) → supported mdata.
Proof.
  intros Ho j Hj. destruct (ordered_parents _ _ _ _ Ho Hj) as [_ Hty].
  unfold convertjointtype.
  repeat (apply elem_of_cons in Hty as [->|Hty]); [by eexists..|].
  by apply elem_of_nil in Hty.
Qed.

Lemma ordered_reachable mdata (root : string) (names : list string) ls js :
  (∀ j, j ∈ js → j ∈ joints mdata) →
  (∀ n, n ∈ names → rtc (edge mdata) root n) →
  ordered names ls js →
  ∀ j, j ∈ js → rtc (edge mdata) root (parent j).
Proof.
  revert names js. induction ls as [|l ls IH]; intros names [|j0 js] Hin Hreach;
    cbn [ordered]; try done.
  - intros _ j Hj. by apply elem_of_nil in Hj.
  - intros (Hc & Hp & _ & Hrest) j [->|Hj]%elem_of_cons; [by apply Hreach|].
    eapply (IH (names ++ [link_name l]) js); [| |exact Hrest|exact Hj].
    + intros j' Hj'. apply Hin. by right.
    + intros n [Hn | Hn%list_elem_of_singleton]%elem_of_app;
        [by apply Hreach|subst n].
      eapply rtc_r; [by apply Hreach|].
      exists j0. split_and!; [|done..]. apply Hin. by left.
Qed.

Lemma ordered_body_findroot mdata (rootlink : LinkModel scalar) ls :
  links mdata = rootlink :: ls →
  ordered [link_name rootlink] ls (joints mdata) →
  NoDup (link_name <$> links mdata) →
  link_name rootlink ≠ "world" → joints mdata ≠ [] →
  findroot mdata = [link_name rootlink].
Proof.
  intros Hl Ho Hnd Hw Hne.
  pose proof (ordered_children _ _ _ Ho) as Hch.
  rewrite Hl, fmap_cons in Hnd. apply NoDup_cons in Hnd as [Hroot _].
  assert (∀ r, r ∈ findroot mdata → r = link_name rootlink) as Hall.
  { intros r [(j & Hj & <- & _) Hnc]%findroot_spec.
    destruct (ordered_parents _ _ _ _ Ho Hj) as [Hp _].
    apply elem_of_app in Hp as [Hp%list_elem_of_singleton|Hp]; [done|].
    exfalso. apply Hnc. unfold is_child. by rewrite Hch. }
  assert (link_name rootlink ∈ findroot mdata) as Hin.
  { apply findroot_spec. split.
    - destruct (joints mdata) as [|j0 js] eqn:Ej; [done|].
      destruct ls as [|l ls']; [done|]. cbn [ordered] in Ho.
      destruct Ho as (_ & Hp%list_elem_of_singleton & _).
      exists j0. split_and!; [by left|done..].
    - unfold is_child. by rewrite Hch. }
  pose proof (findroot_NoDup mdata) as Hnd'.
  destruct (findroot mdata) as [|a [|a' l]].
  - by apply elem_of_nil in Hin.
  - f_equal. apply Hall. by left.
  - exfalso. apply NoDup_cons in Hnd' as [Ha _]. apply Ha.
    rewrite (Hall a) by by left. rewrite (Hall a'); [by left|].
    right. by left.
Qed.

End OrderedBody.

(** X23: reading a model and writing the body.  For a body the VRML reader
    returns from a model without extra joints, with distinct link names, a
    root not called ['world'] and at least one joint, root detection yields
    the root link of the model alone, and [write] with a stack one deeper
    than the joint list is long returns: the root node carries that link
    and a fixed joint of its name, and the tree below has a node, with a
    link record, for every joint of the body. *)
Theorem vrml_read_then_write {scalar : Type} (f0 f1 : scalar)
    (JointModel_new : JointModel scalar)
    (quaternion_about_axis : scalar → list scalar → list scalar)
    (depth : nat) (b : BodyInfo scalar) (bm : BodyModel scalar)
    (rootlink : LinkModel scalar) (rest : list (LinkModel scalar)) :
  read f0 f1 JointModel_new quaternion_about_axis depth b = Ok bm →
  _get_extraJoints b = [] →
  links bm = rootlink :: rest →
  NoDup (link_name <$> links bm) →
  link_name rootlink ≠ "world" → joints bm ≠ [] →
  findroot bm = [link_name rootlink] ∧
  ∃ r children,
    write JointModel_new VRMLWriter_init (S (length (joints bm))) bm = Ok r ∧
    r_root r = link_name rootlink ∧
    r_model r = [NModel (rootjoint_of JointModel_new (link_name rootlink))
                   "fixed" (Some rootlink) children] ∧
    ∀ j, j ∈ joints bm →
         ∃ n, n ∈ flatten_all children ∧ nm_joint n = j ∧
              is_Some (nm_link n).
Proof.
  intros Hread Hno Hlinks Hnd Hw Hne.
  destruct (read_ordered _ _ _ _ _ _ _ Hread Hno) as (rl & ls & Hl & Ho).
  rewrite Hlinks in Hl. injection Hl as <- <-.
  pose proof (ordered_body_findroot bm rootlink rest Hlinks Ho Hnd Hw Hne)
    as Hroots.
  split; [done|].
  set (self' := set_roots (register_links VRMLWriter_init bm)
                  [link_name rootlink]).
  assert (∀ l, l ∈ links bm → _linkmap self' !! link_name l = Some l)
    as Hmap.
  { intros l Hin. by apply linkmap_fold_unique. }
  assert (¬ cycle_reachable bm (link_name rootlink)) as Hnc.
  { intros (c & _ & Hc).
    by eapply (ordered_body_acyclic bm rootlink rest). }
  destruct (convertchildren_terminates self' bm (link_name rootlink) Hnc
              (ordered_body_supported bm _ _ Ho)) as [children Hch].
  eexists _, children. split_and!.
  - unfold write. rewrite Hroots. fold self'. unfold select_root.
    change (_roots self') with [link_name rootlink]. cbv iota.
    rewrite (Hmap rootlink) by (rewrite Hlinks; by left).
    cbn [bind]. rewrite Hch. cbn [bind]. reflexivity.
  - done.
  - done.
  - intros j Hj.
    assert (rtc (edge bm) (link_name rootlink) (parent j)) as Hreach.
    { eapply (ordered_reachable bm _ [link_name rootlink] rest (joints bm));
        [done| |exact Ho|exact Hj].
      by intros n ->%list_elem_of_singleton. }
    destruct (convertchildren_nodes self' bm _ j Hj Hreach _ _ Hch)
      as (n & Hn & Hnj & Hnl).
    exists n. split_and!; [done..|]. rewrite Hnl.
    assert (child j ∈ link_name <$> rest) as Hc.
    { rewrite <- (ordered_children _ _ _ Ho).
      apply list_elem_of_fmap. by exists j. }
    apply list_elem_of_fmap in Hc as (l & -> & Hl).
    exists l. apply Hmap. rewrite Hlinks. by right.
Qed.

(** The chain [L0], [L1], [L2] is read and written: the root is [L0]. *)
Lemma vrml_read_then_write_witness :
  ∃ r, read 0%Z 1%Z JointModel0 quaternion0 5 open_chain_sample
       = Ok open_chain_body ∧
       findroot open_chain_body = ["L0"] ∧
       write JointModel0 VRMLWriter_init
         (S (length (joints open_chain_body))) open_chain_body = Ok r ∧
       r_root r = "L0".
Proof.
  assert (read 0%Z 1%Z JointModel0 quaternion0 5 open_chain_sample
          = Ok open_chain_body) as E by (vm_compute; reflexivity).
  assert (NoDup (link_name <$> links open_chain_body)) as Hnd
    by (apply (bool_decide_unpack _); by vm_compute).
  destruct (links open_chain_body) as [|rootlink rest] eqn:El;
    [by vm_compute in El|].
  assert (link_name rootlink = "L0") as Hname
    by (vm_compute in El; by injection El as <- _).
  assert (link_name rootlink ≠ "world") as Hw by (by rewrite Hname).
  assert (joints open_chain_body ≠ []) as Hne by (by vm_compute).
  rewrite <- El in Hnd.
  destruct (vrml_read_then_write 0%Z 1%Z JointModel0 quaternion0 5
              open_chain_sample open_chain_body rootlink rest
              E eq_refl El Hnd Hw Hne)
    as [Hroot (r & children & Hwr & Hr & _)].
  exists r. rewrite <- Hname. by split_and!.
Defined.
